(** * Synthetic event-data generator: allocation engine and derived entities

    A shallow embedding of [data.py] and [v2_data.py].  Python integers are
    [Z]; dictionaries are [gmap]s; tuples are records; the three ambient
    sources of non-determinism of the scripts (the [random] module, the
    Faker provider and the wall clock) are explicit tapes threaded through
    a state-and-exception monad. *)

From Stdlib Require Import ZArith NArith List Lia Bool Sorted Permutation.
From Stdlib Require Import Strings.String Strings.Ascii.
From stdpp Require Import base option list gmap strings pretty fin_maps.

Open Scope Z_scope.

(** ** Python exceptions and the ambient world *)

Inductive exn : Type :=
| IndexError   (* random.choice on an empty sequence *)
| ValueError   (* random.randint on an empty range *)
| KeyError.    (* d[k] on a missing key *)

Inductive result (A : Type) : Type :=
| Ok (a : A)
| Raise (e : exn).
Arguments Ok {A} a.
Arguments Raise {A} e.

(** The world a run reads from.  [rnd] lists the raw outputs of the
    generator behind the [random] module in call order, [fake] the values
    handed out by the Faker provider, [clock] the successive readings of
    [int(time.time() * 1000)]. *)
Record World : Type := mkWorld {
  rnd : N -> N;
  rnd_pos : N;
  fake : N -> string;
  fake_pos : N;
  clock : N -> Z;
  clock_pos : N
}.

Definition M (A : Type) : Type := World -> result (A * World).

Definition ret {A} (a : A) : M A := fun w => Ok (a, w).

Definition bind {A B} (c : M A) (k : A -> M B) : M B :=
  fun w => match c w with
           | Ok (a, w') => k a w'
           | Raise e => Raise e
           end.

Definition raise {A} (e : exn) : M A := fun _ => Raise e.

Notation "'let*' x ':=' c 'in' k" := (bind c (fun x => k))
  (at level 10, x name, c at level 100, k at level 200).

(** Raw draw from the [random] generator. *)
Definition draw : M N :=
  fun w => Ok (rnd w (rnd_pos w),
               mkWorld (rnd w) (N.succ (rnd_pos w)) (fake w) (fake_pos w)
                       (clock w) (clock_pos w)).

(** One value from the Faker provider (already formatted with strftime
    where the script does so). *)
Definition faker : M string :=
  fun w => Ok (fake w (fake_pos w),
               mkWorld (rnd w) (rnd_pos w) (fake w) (N.succ (fake_pos w))
                       (clock w) (clock_pos w)).

(** [int(time.time() * 1000)] *)
Definition time_ms : M Z :=
  fun w => Ok (clock w (clock_pos w),
               mkWorld (rnd w) (rnd_pos w) (fake w) (fake_pos w)
                       (clock w) (N.succ (clock_pos w))).

(** [random.randint(a, b)]: an integer of the closed range [a..b];
    ValueError on an empty range. *)
Definition randint (a b : Z) : M Z :=
  if b <? a then raise ValueError
  else let* r := draw in ret (a + Z.of_N r mod (b - a + 1)).

(** [random.choice(seq)]: IndexError on an empty sequence. *)
Definition choice {A} (seq : list A) : M A :=
  match seq with
  | [] => raise IndexError
  | x :: _ =>
      let* r := draw in
      ret (nth (N.to_nat (r mod N.of_nat (length seq))) seq x)
  end.

(** [random.random()]: a double k / 2^53 with 0 <= k < 2^53, represented
    by its numerator k. *)
Definition two53 : N := 9007199254740992%N.

Definition random : M N := let* r := draw in ret (r mod two53)%N.

(** [u < 0.4] for [u = k / 2^53].  The double nearest to 0.4 is
    3602879701896397 / 2^53. *)
Definition lt_0_4 (k : N) : bool := (k <? 3602879701896397)%N.

(** [u < 0.5] for [u = k / 2^53]; 0.5 is 2^52 / 2^53. *)
Definition lt_0_5 (k : N) : bool := (k <? 4503599627370496)%N.

(** [round(random.uniform(lo, hi), 2)], in cents. *)
Definition uniform_cents (lo hi : Z) : M Z :=
  let* r := draw in ret (100 * lo + Z.of_N r mod (100 * (hi - lo) + 1)).

(** The world one raw draw later, and one Faker value later: what [draw]
    (hence [randint], [choice], [random]) and [faker] leave behind. *)
Definition after_draw (w : World) : World :=
  mkWorld (rnd w) (N.succ (rnd_pos w)) (fake w) (fake_pos w)
          (clock w) (clock_pos w).

Definition after_fake (w : World) : World :=
  mkWorld (rnd w) (rnd_pos w) (fake w) (N.succ (fake_pos w))
          (clock w) (clock_pos w).

(** ** Records of the data model *)

(** A ticket tuple
    [(event_id, ticket_type, price, quantity_available, quantity_sold,
      sales_start, sales_end, created_at)]; prices are two-decimal amounts,
    kept in cents. *)
Record Ticket : Type := mkTicket {
  t_event_id : Z;
  t_type : string;
  t_price : Z;
  t_quantity_available : Z;
  t_quantity_sold : Z;
  t_sales_start : string;
  t_sales_end : string;
  t_created_at : string
}.

(** An event tuple
    [(title, description, start_time, end_time, organizer_id, venue_id,
      capacity, status, created_at, updated_at)]. *)
Record Event : Type := mkEvent {
  e_title : string;
  e_description : string;
  e_start_time : string;
  e_end_time : string;
  e_organizer_id : Z;
  e_venue_id : Z;
  e_capacity : Z;
  e_status : string;
  e_created_at : string;
  e_updated_at : string
}.

(** A registration tuple
    [(user_id, event_id, ticket_id, quantity, total_amount, status,
      registered_at, payment_status)]; [total_amount] in cents, which for
    a two-decimal price is what [round(quantity * price, 2)] gives. *)
Record Registration : Type := mkRegistration {
  r_user_id : Z;
  r_event_id : Z;
  r_ticket_id : Z;
  r_quantity : Z;
  r_total_amount : Z;
  r_status : string;
  r_registered_at : string;
  r_payment_status : string
}.

(** [d.get(k, 0)] *)
Definition get0 (d : gmap Z Z) (k : Z) : Z := default 0 (d !! k).

(** [d[k]] *)
Definition getitem {V} (d : gmap Z V) (k : Z) : M V :=
  match d !! k with
  | Some v => ret v
  | None => raise KeyError
  end.

Definition desired_count : Z := 2500.

(** ** The while loop shared by both allocators *)

Section While.
Context {S : Type} (cond : S -> bool) (body : S -> M S).

(** [while cond(s): s = body(s)], with a bound on the iterations the
    evaluator may take; [None] when the bound is hit. *)
Fixpoint while_ (fuel : nat) (s : S) (w : World) : option (result (S * World)) :=
  if cond s then
    match fuel with
    | O => None
    | Datatypes.S fuel' =>
        match body s w with
        | Ok (s', w') => while_ fuel' s' w'
        | Raise e => Some (Raise e)
        end
    end
  else Some (Ok (s, w)).

(** [runs n s w r]: started in [s], the loop executes its body exactly
    [n] times and ends with [r]. *)
Inductive runs : nat -> S -> World -> result (S * World) -> Prop :=
| runs_exit s w :
    cond s = false -> runs 0 s w (Ok (s, w))
| runs_raise s w e :
    cond s = true -> body s w = Raise e -> runs 1 s w (Raise e)
| runs_iter n s w s' w' r :
    cond s = true -> body s w = Ok (s', w') -> runs n s' w' r ->
    runs (Datatypes.S n) s w r.

(** [reaches s w s' w']: [s'] is the loop state after some number of
    complete iterations started from [s]. *)
Inductive reaches : S -> World -> S -> World -> Prop :=
| reaches_refl s w : reaches s w s w
| reaches_step s w s1 w1 s' w' :
    cond s = true -> body s w = Ok (s1, w1) -> reaches s1 w1 s' w' ->
    reaches s w s' w'.
End While.

(** ** v2_data.py *)

Module V2.

Record Inputs : Type := mkInputs {
  user_ids : list Z;
  event_ids : list Z;
  ticket_map : gmap Z (list Z);
  ticket_prices : gmap Z Z;
  event_capacities : gmap Z Z
}.

(** The local variables of [generate_registrations] together with the two
    dictionaries it mutates in place. *)
Record LoopState : Type := mkLoop {
  registrations : list Registration;
  attempts : Z;
  tickets_remaining : gmap Z Z;
  event_reg_totals : gmap Z Z
}.

Definition cond (st : LoopState) : bool :=
  (Z.of_nat (length (registrations st)) <? desired_count)
  && (attempts st <? desired_count * 10).

Definition body (inp : Inputs) (st : LoopState) : M LoopState :=
  let st := mkLoop (registrations st) (attempts st + 1)
                   (tickets_remaining st) (event_reg_totals st) in
  let* user_id := choice (user_ids inp) in
  let* event_id := choice (event_ids inp) in
  let possible_tickets := default [] (ticket_map inp !! event_id) in
  match possible_tickets with
  | [] => ret st
  | _ :: _ =>
    let* ticket_id := choice possible_tickets in
    let available := get0 (tickets_remaining st) ticket_id in
    if available <=? 0 then ret st else
    let* capacity := getitem (event_capacities inp) event_id in
    let remaining_capacity := capacity - get0 (event_reg_totals st) event_id in
    if remaining_capacity <=? 0 then ret st else
    let* quantity := randint 1 (Z.min 5 (Z.min available remaining_capacity)) in
    let* price := getitem (ticket_prices inp) ticket_id in
    let total_amount := quantity * price in
    let status := "confirmed"%string in
    let* registered_at := faker in
    let* u := random in
    let payment_status := if lt_0_4 u then "paid"%string else "unpaid"%string in
    ret (mkLoop
           (registrations st ++
              [mkRegistration user_id event_id ticket_id quantity total_amount
                              status registered_at payment_status])
           (attempts st)
           (<[ticket_id := available - quantity]> (tickets_remaining st))
           (<[event_id := get0 (event_reg_totals st) event_id + quantity]>
              (event_reg_totals st)))
  end.

Definition init (tickets_remaining event_reg_totals : gmap Z Z) : LoopState :=
  mkLoop [] 0 tickets_remaining event_reg_totals.

Definition generate_registrations_fuel (fuel : nat) (inp : Inputs)
    (tickets_remaining event_reg_totals : gmap Z Z)
  : World -> option (result (LoopState * World)) :=
  while_ cond (body inp) fuel (init tickets_remaining event_reg_totals).

(** The attempt budget [desired_count * 10] is all the fuel the loop can
    use. *)
Definition attempt_budget : nat := Z.to_nat (desired_count * 10).

Definition generate_registrations := generate_registrations_fuel attempt_budget.

End V2.

(** ** data.py *)

Module V1.

Record Inputs : Type := mkInputs {
  user_ids : list Z;
  event_ids : list Z;
  ticket_map : gmap Z (list Z);
  ticket_prices : gmap Z Z
}.

(** The local variables of [generate_registrations] and the dictionary it
    mutates in place; this version keeps no per-event total. *)
Record LoopState : Type := mkLoop {
  registrations : list Registration;
  attempts : Z;
  tickets_remaining : gmap Z Z
}.

Definition cond (st : LoopState) : bool :=
  (Z.of_nat (length (registrations st)) <? desired_count)
  && (attempts st <? desired_count * 10).

Definition body (inp : Inputs) (st : LoopState) : M LoopState :=
  let st := mkLoop (registrations st) (attempts st + 1) (tickets_remaining st) in
  let* user_id := choice (user_ids inp) in
  let* event_id := choice (event_ids inp) in
  let possible_tickets := default [] (ticket_map inp !! event_id) in
  match possible_tickets with
  | [] => ret st
  | _ :: _ =>
    let* ticket_id := choice possible_tickets in
    let available := get0 (tickets_remaining st) ticket_id in
    if available <=? 0 then ret st else
    let* drawn := randint 1 5 in
    let quantity := if available <? drawn then available else drawn in
    let* price := getitem (ticket_prices inp) ticket_id in
    let total_amount := quantity * price in
    let status := "confirmed"%string in
    let* registered_at := faker in
    let* u := random in
    let payment_status := if lt_0_4 u then "paid"%string else "unpaid"%string in
    ret (mkLoop
           (registrations st ++
              [mkRegistration user_id event_id ticket_id quantity total_amount
                              status registered_at payment_status])
           (attempts st)
           (<[ticket_id := available - quantity]> (tickets_remaining st)))
  end.

Definition init (tickets_remaining : gmap Z Z) : LoopState :=
  mkLoop [] 0 tickets_remaining.

Definition generate_registrations_fuel (fuel : nat) (inp : Inputs)
    (tickets_remaining : gmap Z Z)
  : World -> option (result (LoopState * World)) :=
  while_ cond (body inp) fuel (init tickets_remaining).

Definition attempt_budget : nat := Z.to_nat (desired_count * 10).

Definition generate_registrations := generate_registrations_fuel attempt_budget.

End V1.


(** ** Loops over lists and other Python idioms *)

(** [for x in l: out.append(f(x))] *)
Fixpoint mapM {A B} (f : A -> M B) (l : list A) : M (list B) :=
  match l with
  | [] => ret []
  | x :: l' =>
      let* y := f x in
      let* ys := mapM f l' in
      ret (y :: ys)
  end.

(** [for x in l: out.extend(f(x))] *)
Fixpoint concatM {A B} (f : A -> M (list B)) (l : list A) : M (list B) :=
  match l with
  | [] => ret []
  | x :: l' =>
      let* ys := f x in
      let* rest := concatM f l' in
      ret (ys ++ rest)
  end.

(** [enumerate(l, start)] *)
Fixpoint enumerate {A} (start : Z) (l : list A) : list (Z * A) :=
  match l with
  | [] => []
  | x :: l' => (start, x) :: enumerate (start + 1) l'
  end.

Definition is_paid (reg : Registration) : bool :=
  String.eqb (r_payment_status reg) "paid".

(** ** Derived entities *)

(** A payment tuple
    [(registration_id, user_id, amount, payment_method, transaction_id,
      payment_status, paid_at)]. *)
Record Payment : Type := mkPayment {
  p_registration_id : Z;
  p_user_id : Z;
  p_amount : Z;
  p_payment_method : string;
  p_transaction_id : string;
  p_payment_status : string;
  p_paid_at : string
}.

Definition payment_methods : list string :=
  ["credit_card"; "paypal"; "bank_transfer"; "cash"]%string.

(** [[(i, reg) for i, reg in enumerate(registrations) if reg[7] == 'paid']] *)
Definition paid_regs (registrations : list Registration) : list (Z * Registration) :=
  List.filter (fun ir => is_paid (snd ir)) (enumerate 0 registrations).

(** [generate_payments], identical in both scripts. *)
Definition generate_payments (registrations : list Registration) : M (list Payment) :=
  mapM (fun ir =>
          let idx := fst ir in
          let reg := snd ir in
          let registration_id := idx + 1 in
          let user_id := r_user_id reg in
          let amount := r_total_amount reg in
          let* payment_method := choice payment_methods in
          let* uuid := faker in
          let transaction_id := ("txn_" +:+ uuid)%string in
          let payment_status := "completed"%string in
          let* paid_at := faker in
          ret (mkPayment registration_id user_id amount payment_method
                         transaction_id payment_status paid_at))
       (take 1000 (paid_regs registrations)).

(** A waitlist tuple [(event_id, user_id, joined_at, status)]. *)
Record Waitlist : Type := mkWaitlist {
  wl_event_id : Z;
  wl_user_id : Z;
  wl_joined_at : string;
  wl_status : string
}.

(** [random.sample(population, k)]: [k] elements taken at pairwise
    distinct positions.  The selection follows the library's pool
    scheme: pick a position among the [n] live slots, then move the last
    live slot into the hole.  ValueError unless [0 <= k <= len]. *)
Fixpoint sample_pool {A} (k : nat) (pool : list A) (n : nat) : M (list A) :=
  match k with
  | O => ret []
  | Datatypes.S k' =>
      let* r := draw in
      let j := N.to_nat (r mod N.of_nat n) in
      match pool !! j, pool !! (n - 1)%nat with
      | Some x, Some last =>
          let* rest := sample_pool k' (<[j := last]> pool) (n - 1) in
          ret (x :: rest)
      | _, _ => raise IndexError
      end
  end.

Definition sample {A} (population : list A) (k : Z) : M (list A) :=
  if (k <? 0) || (Z.of_nat (length population) <? k) then raise ValueError
  else sample_pool (Z.to_nat k) population (length population).

Module V2Derived.

(** [calculate_total_registrations]: a [defaultdict(int)] filled with
    [total_regs[event_id] += quantity]. *)
Definition calculate_total_registrations (registrations : list Registration)
  : gmap Z Z :=
  foldl (fun total_regs reg =>
           <[r_event_id reg := get0 total_regs (r_event_id reg) + r_quantity reg]>
             total_regs)
        ∅ registrations.

Definition statuses : list string := ["waiting"; "notified"; "registered"]%string.

(** The body of the [for event_id in event_ids] loop of
    [generate_waitlists]: the entries it appends for one event. *)
Definition waitlist_for_event (user_ids : list Z)
    (total_regs event_capacities : gmap Z Z) (min_waitlist max_waitlist : Z)
    (event_id : Z) : M (list Waitlist) :=
  let* capacity := getitem event_capacities event_id in
  if capacity <=? get0 total_regs event_id then
    let* num_waitlist := randint min_waitlist max_waitlist in
    let* selected_users :=
      sample user_ids (Z.min num_waitlist (Z.of_nat (length user_ids))) in
    mapM (fun user_id =>
            let* joined_at := faker in
            let* status := choice statuses in
            ret (mkWaitlist event_id user_id joined_at status))
         selected_users
  else ret [].

Definition generate_waitlists (user_ids event_ids : list Z)
    (total_regs event_capacities : gmap Z Z) (min_waitlist max_waitlist : Z)
  : M (list Waitlist) :=
  concatM (waitlist_for_event user_ids total_regs event_capacities
                              min_waitlist max_waitlist)
          event_ids.

(** The body of the [for event_id in event_ids] loop of
    [generate_tickets]: a General Admission and a VIP ticket. *)
Definition tickets_for_event (event_capacities : gmap Z Z) (event_id : Z)
  : M (list Ticket) :=
  let* capacity := getitem event_capacities event_id in
  let ga_lower := Z.min 300 (capacity / 2) in
  let ga_upper := Z.min 1000 (capacity / 2) in
  let* ga_quantity := randint ga_lower ga_upper in
  let remaining_capacity := capacity - ga_quantity in
  let vip_lower := Z.min 300 remaining_capacity in
  let vip_upper := Z.min 600 remaining_capacity in
  let* vip_quantity := randint vip_lower vip_upper in
  let* ga_price := uniform_cents 20 50 in
  let* ga_start := faker in
  let* ga_end := faker in
  let* ga_created := faker in
  let* vip_price := uniform_cents 50 150 in
  let* vip_start := faker in
  let* vip_end := faker in
  let* vip_created := faker in
  ret [mkTicket event_id "General Admission" ga_price ga_quantity 0
                ga_start ga_end ga_created;
       mkTicket event_id "VIP" vip_price vip_quantity 0
                vip_start vip_end vip_created].

Definition generate_tickets (event_ids : list Z) (event_capacities : gmap Z Z)
  : M (list Ticket) :=
  concatM (tickets_for_event event_capacities) event_ids.

End V2Derived.

(** ** Users *)

(** A user tuple [(first_name, last_name, email, password_hash, phone,
    role, created_at, updated_at)]. *)
Record User : Type := mkUser {
  u_first_name : string;
  u_last_name : string;
  u_email : string;
  u_password_hash : string;
  u_phone : string;
  u_role : string;
  u_created_at : string;
  u_updated_at : string
}.

Definition lower_ascii (c : ascii) : ascii :=
  let n := nat_of_ascii c in
  if (65 <=? n)%nat && (n <=? 90)%nat then ascii_of_nat (n + 32) else c.

(** [s.lower()] on ASCII text. *)
Fixpoint lower (s : string) : string :=
  match s with
  | EmptyString => EmptyString
  | String c s' => String (lower_ascii c) (lower s')
  end.

(** [random.shuffle(x)]:
    [for i in reversed(range(1, len(x))): j = randbelow(i + 1); swap]. *)
Fixpoint shuffle_from {A} (i : nat) (x : list A) : M (list A) :=
  match i with
  | O => ret x
  | Datatypes.S i' =>
      let* r := draw in
      let j := N.to_nat (r mod N.of_nat (Datatypes.S i)) in
      match x !! i, x !! j with
      | Some xi, Some xj => shuffle_from i' (<[j := xi]> (<[i := xj]> x))
      | _, _ => raise IndexError
      end
  end.

Definition shuffle {A} (x : list A) : M (list A) :=
  shuffle_from (length x - 1) x.

Definition area_codes (city : string) : list string :=
  if String.eqb city "Dallas" then ["214"; "469"; "972"]%string
  else if String.eqb city "Philadelphia" then ["215"; "267"; "445"]%string
  else if String.eqb city "New York" then ["212"; "646"; "718"; "917"]%string
  else ["800"]%string.

Definition generate_phone_number (city : string) : M string :=
  let* area_code := choice (area_codes city) in
  let* exchange := randint 200 999 in
  let* line := randint 1000 9999 in
  ret (area_code +:+ "-" +:+ pretty exchange +:+ "-" +:+ pretty line)%string.

Definition cities : list string := ["Dallas"; "Philadelphia"; "New York"]%string.

(** [range(n)] as integers. *)
Definition range (n : nat) : list Z := map Z.of_nat (seq 0 n).

(** [generate_users], identical in both scripts. *)
Definition generate_users : M (list User) :=
  let roles := replicate 80 "attendee"%string
               ++ replicate 15 "organizer"%string
               ++ replicate 5 "admin"%string in
  let* roles := shuffle roles in
  mapM (fun i =>
          let* first_name := faker in
          let* last_name := faker in
          let* now := time_ms in
          let timestamp := now + i in
          let email := (lower first_name +:+ "." +:+ lower last_name +:+ "."
                        +:+ pretty timestamp +:+ "@example.com")%string in
          let password_hash := ("hash" +:+ pretty i)%string in
          let* city := choice cities in
          let* phone := generate_phone_number city in
          let* role :=
            match roles !! Z.to_nat (i mod 100) with
            | Some role => ret role
            | None => raise IndexError
            end in
          let* created_at := faker in
          let updated_at := created_at in
          ret (mkUser first_name last_name email password_hash phone role
                      created_at updated_at))
       (range 500).

(** ** Reconciliation and the output sink *)

(** [{ticket_id: t[3] for ticket_id, t in enumerate(tickets, 1)}] *)
Definition remaining_of (tickets : list Ticket) : gmap Z Z :=
  foldl (fun d it => <[fst it := t_quantity_available (snd it)]> d)
        ∅ (enumerate 1 tickets).

(** [{ticket_id: t[2] for ticket_id, t in enumerate(tickets, 1)}] *)
Definition prices_of (tickets : list Ticket) : gmap Z Z :=
  foldl (fun d it => <[fst it := t_price (snd it)]> d)
        ∅ (enumerate 1 tickets).

(** [{event_id: [ticket_id for ticket_id, t in enumerate(tickets, 1)
                 if t[0] == event_id] for event_id in event_ids}] *)
Definition ticket_map_of (event_ids : list Z) (tickets : list Ticket)
  : gmap Z (list Z) :=
  foldl (fun d event_id =>
           <[event_id :=
               map fst (List.filter (fun it => t_event_id (snd it) =? event_id)
                                    (enumerate 1 tickets))]> d)
        ∅ event_ids.

(** [{i + 1: event[6] for i, event in enumerate(events)}] *)
Definition capacities_of (events : list Event) : gmap Z Z :=
  foldl (fun d ie => <[fst ie + 1 := e_capacity (snd ie)]> d)
        ∅ (enumerate 0 events).

(** The "Update tickets' quantity_sold" loop of [main]. *)
Definition update_quantity_sold (tickets : list Ticket)
    (tickets_remaining : gmap Z Z) : list Ticket :=
  map (fun it =>
         let ticket_id := fst it in
         let t := snd it in
         let orig_available := t_quantity_available t in
         let sold := orig_available - get0 tickets_remaining ticket_id in
         let sold := Z.min sold orig_available in
         mkTicket (t_event_id t) (t_type t) (t_price t)
                  (t_quantity_available t) sold
                  (t_sales_start t) (t_sales_end t) (t_created_at t))
      (enumerate 1 tickets).

Module V1Sink.

Inductive Rows : Type :=
| TicketRows (rows : list Ticket)
| RegistrationRows (rows : list Registration).

(** A CSV file: header row, then one line per record. *)
Record Csv : Type := mkCsv {
  csv_columns : list string;
  csv_data : Rows
}.

(** The two sinks of [data.py]: the files under [csv/] and the tables of
    the store.  Rows of a table carry their serial key implicitly: the
    row at position [i] has key [i + 1]. *)
Record Sink : Type := mkSink {
  files : gmap string Csv;
  tickets_table : list Ticket;
  registrations_table : list Registration
}.

(** [write_to_csv(filename, columns, data, args)], for the file names
    [main] passes, [csv/<table>.csv]: the directory part is [csv], which
    [os.makedirs(..., exist_ok=True)] creates or finds. *)
Definition write_to_csv (filename : string) (columns : list string)
    (data : Rows) (force : bool) (s : Sink) : Sink :=
  if bool_decide (is_Some (files s !! filename)) && negb force then s
  else mkSink (<[filename := mkCsv columns data]> (files s))
              (tickets_table s) (registrations_table s).

(** [batch_insert(conn, 'tickets', ...)] *)
Definition batch_insert_tickets (data : list Ticket) (force : bool) (s : Sink)
  : Sink :=
  if (0 <? length (tickets_table s))%nat && negb force then s
  else mkSink (files s) (tickets_table s ++ data) (registrations_table s).

(** [batch_insert(conn, 'registrations', ...)] *)
Definition batch_insert_registrations (data : list Registration) (force : bool)
    (s : Sink) : Sink :=
  if (0 <? length (registrations_table s))%nat && negb force then s
  else mkSink (files s) (tickets_table s) (registrations_table s ++ data).

(** [UPDATE tickets SET quantity_sold = %s WHERE ticket_id = %s] *)
Definition update_ticket_row (sold ticket_id : Z) (table : list Ticket)
  : list Ticket :=
  if ticket_id <? 1 then table
  else alter (fun t => mkTicket (t_event_id t) (t_type t) (t_price t)
                                (t_quantity_available t) sold
                                (t_sales_start t) (t_sales_end t)
                                (t_created_at t))
             (Z.to_nat (ticket_id - 1)) table.

Definition update_store (updated_tickets : list Ticket) (s : Sink) : Sink :=
  mkSink (files s)
         (foldl (fun table it =>
                   update_ticket_row (t_quantity_sold (snd it)) (fst it) table)
                (tickets_table s) (enumerate 1 updated_tickets))
         (registrations_table s).

Definition ticket_columns : list string :=
  ["event_id"; "ticket_type"; "price"; "quantity_available"; "quantity_sold";
   "sales_start"; "sales_end"; "created_at"]%string.

Definition registration_columns : list string :=
  ["user_id"; "event_id"; "ticket_id"; "quantity"; "total_amount"; "status";
   "registered_at"; "payment_status"]%string.

(** The part of [main] from the ticket insert to the rewrite of the
    ticket export, given the tickets, users and events generated so
    far.  The event-category mapping that [main] writes in between
    touches neither the tickets nor these two files and is left out. *)
Definition main_tickets_to_reconciliation (force : bool)
    (tickets : list Ticket) (user_ids event_ids : list Z) (s : Sink)
  : World -> option (result (Sink * World)) :=
  fun w =>
    let s := batch_insert_tickets tickets force s in
    let s := write_to_csv "csv/tickets.csv" ticket_columns
                          (TicketRows tickets) force s in
    let ticket_map := ticket_map_of event_ids tickets in
    let ticket_prices := prices_of tickets in
    let tickets_remaining := remaining_of tickets in
    match V1.generate_registrations
            (V1.mkInputs user_ids event_ids ticket_map ticket_prices)
            tickets_remaining w with
    | None => None
    | Some (Raise e) => Some (Raise e)
    | Some (Ok (st, w')) =>
        let registrations := V1.registrations st in
        let s := batch_insert_registrations registrations force s in
        let s := write_to_csv "csv/registrations.csv" registration_columns
                              (RegistrationRows registrations) force s in
        let updated_tickets :=
          update_quantity_sold tickets (V1.tickets_remaining st) in
        let s := update_store updated_tickets s in
        let s := write_to_csv "csv/tickets.csv" ticket_columns
                              (TicketRows updated_tickets) force s in
        Some (Ok (s, w'))
    end.

End V1Sink.

(** ** Quantities used to state the properties *)

Definition sum_quantity (regs : list Registration) : Z :=
  foldr (fun r acc => r_quantity r + acc) 0 regs.

(** Registrations recorded for an event, and for a ticket. *)
Definition by_event (e : Z) (regs : list Registration) : list Registration :=
  List.filter (fun r => r_event_id r =? e) regs.

Definition by_ticket (t : Z) (regs : list Registration) : list Registration :=
  List.filter (fun r => r_ticket_id r =? t) regs.

(** Registrations whose ticket is one of the tickets of event [e]. *)
Definition by_tickets_of (ticket_map : gmap Z (list Z)) (e : Z)
    (regs : list Registration) : list Registration :=
  List.filter (fun r => bool_decide (r_ticket_id r ∈ default [] (ticket_map !! e)))
              regs.

(** Every ticket is listed under at most one event. *)
Definition tickets_partitioned (ticket_map : gmap Z (list Z)) : Prop :=
  forall e1 e2 l1 l2 t,
    ticket_map !! e1 = Some l1 -> ticket_map !! e2 = Some l2 ->
    t ∈ l1 -> t ∈ l2 -> e1 = e2.

(** What one iteration of the v2 allocator does when it emits [r]. *)
Definition v2_emission (inp : V2.Inputs) (st st' : V2.LoopState)
    (w' : World) (r : Registration) : Prop :=
  let available := get0 (V2.tickets_remaining st) (r_ticket_id r) in
  let consumed := get0 (V2.event_reg_totals st) (r_event_id r) in
  exists capacity price u w1 w2 w3,
    r_user_id r ∈ V2.user_ids inp /\
    r_event_id r ∈ V2.event_ids inp /\
    r_ticket_id r ∈ default [] (V2.ticket_map inp !! r_event_id r) /\
    0 < available /\
    V2.event_capacities inp !! r_event_id r = Some capacity /\
    0 < capacity - consumed /\
    randint 1 (Z.min 5 (Z.min available (capacity - consumed))) w1
      = Ok (r_quantity r, w2) /\
    V2.ticket_prices inp !! r_ticket_id r = Some price /\
    r_total_amount r = r_quantity r * price /\
    random w3 = Ok (u, w') /\
    r_payment_status r = (if lt_0_4 u then "paid" else "unpaid")%string /\
    V2.registrations st' = V2.registrations st ++ [r] /\
    V2.tickets_remaining st'
      = <[r_ticket_id r := available - r_quantity r]> (V2.tickets_remaining st) /\
    V2.event_reg_totals st'
      = <[r_event_id r := consumed + r_quantity r]> (V2.event_reg_totals st).

(** What one iteration of the data.py allocator does when it emits [r]. *)
Definition v1_emission (inp : V1.Inputs) (st st' : V1.LoopState)
    (w' : World) (r : Registration) : Prop :=
  let available := get0 (V1.tickets_remaining st) (r_ticket_id r) in
  exists drawn price u w1 w2 w3,
    r_user_id r ∈ V1.user_ids inp /\
    r_event_id r ∈ V1.event_ids inp /\
    r_ticket_id r ∈ default [] (V1.ticket_map inp !! r_event_id r) /\
    0 < available /\
    randint 1 5 w1 = Ok (drawn, w2) /\
    r_quantity r = Z.min drawn available /\
    V1.ticket_prices inp !! r_ticket_id r = Some price /\
    r_total_amount r = r_quantity r * price /\
    random w3 = Ok (u, w') /\
    r_payment_status r = (if lt_0_4 u then "paid" else "unpaid")%string /\
    V1.registrations st' = V1.registrations st ++ [r] /\
    V1.tickets_remaining st'
      = <[r_ticket_id r := available - r_quantity r]> (V1.tickets_remaining st).

(** ** Concrete runs *)

(** The loop came to its end and handed back a state. *)
Definition returned {A} (o : option (result A)) : bool :=
  match o with
  | Some (Ok _) => true
  | _ => false
  end.

(** A world whose generator returns 0, 1, 2, ... and whose clock reads
    [t] throughout. *)
Definition demo_world (t : Z) : World :=
  mkWorld (fun n => n) 0 (fun _ => "x"%string) 0 (fun _ => t) 0.

(** One event of capacity 7 with two tickets of five seats each. *)
Definition demo_inputs : V2.Inputs :=
  V2.mkInputs [1; 2] [1] {[ 1 := [1; 2] ]} {[ 1 := 2500; 2 := 10000 ]}
              {[ 1 := 7 ]}.

Definition demo_remaining : gmap Z Z := {[ 1 := 5; 2 := 5 ]}.

Definition demo_inputs_v1 : V1.Inputs :=
  V1.mkInputs [1; 2] [1] {[ 1 := [1; 2] ]} {[ 1 := 2500; 2 := 10000 ]}.

Definition sum_available (tickets : list Ticket) : Z :=
  foldr (fun t acc => t_quantity_available t + acc) 0 tickets.

Definition tickets_of_event (e : Z) (tickets : list Ticket) : list Ticket :=
  List.filter (fun t => t_event_id t =? e) tickets.

Definition waitlist_of_event (e : Z) (waitlists : list Waitlist) : list Waitlist :=
  List.filter (fun x => wl_event_id x =? e) waitlists.

(** What the loop of [generate_waitlists] appends for one event. *)
Definition waitlist_batch (user_ids : list Z) (total_regs caps : gmap Z Z)
    (min_waitlist max_waitlist : Z) (e : Z) (b : list Waitlist) : Prop :=
  exists capacity,
    caps !! e = Some capacity /\
    Forall (fun x => wl_event_id x = e) b /\
    (get0 total_regs e < capacity -> b = []) /\
    (capacity <= get0 total_regs e ->
     exists num,
       min_waitlist <= num <= max_waitlist /\
       Z.of_nat (length b) = Z.min num (Z.of_nat (length user_ids)) /\
       (NoDup user_ids -> NoDup (map wl_user_id b)) /\
       Forall (fun x => wl_user_id x ∈ user_ids) b).

(** ** Loop invariants of the allocators *)

(** A registration as the v2 allocator emits them. *)
Definition v2_wf (inp : V2.Inputs) (r : Registration) : Prop :=
  1 <= r_quantity r <= 5 /\
  r_ticket_id r ∈ default [] (V2.ticket_map inp !! r_event_id r) /\
  r_event_id r ∈ V2.event_ids inp /\
  r_user_id r ∈ V2.user_ids inp.

(** The ledger invariant of the v2 allocator relative to the dictionaries
    it was started with. *)
Definition v2_inv (inp : V2.Inputs) (tr0 ert0 : gmap Z Z) (st : V2.LoopState)
  : Prop :=
  (forall t, get0 (V2.tickets_remaining st) t
             + sum_quantity (by_ticket t (V2.registrations st)) = get0 tr0 t) /\
  (forall e, get0 (V2.event_reg_totals st) e
             = get0 ert0 e + sum_quantity (by_event e (V2.registrations st))) /\
  (forall t, 0 <= get0 tr0 t -> 0 <= get0 (V2.tickets_remaining st) t) /\
  (forall e capacity, V2.event_capacities inp !! e = Some capacity ->
                      get0 ert0 e <= capacity ->
                      get0 (V2.event_reg_totals st) e <= capacity) /\
  dom (V2.tickets_remaining st) = dom tr0 /\
  Forall (v2_wf inp) (V2.registrations st).

Definition v1_wf (inp : V1.Inputs) (r : Registration) : Prop :=
  1 <= r_quantity r <= 5 /\
  r_ticket_id r ∈ default [] (V1.ticket_map inp !! r_event_id r) /\
  r_event_id r ∈ V1.event_ids inp /\
  r_user_id r ∈ V1.user_ids inp.

Definition v1_inv (inp : V1.Inputs) (tr0 : gmap Z Z) (st : V1.LoopState)
  : Prop :=
  (forall t, get0 (V1.tickets_remaining st) t
             + sum_quantity (by_ticket t (V1.registrations st)) = get0 tr0 t) /\
  (forall t, 0 <= get0 tr0 t -> 0 <= get0 (V1.tickets_remaining st) t) /\
  dom (V1.tickets_remaining st) = dom tr0 /\
  Forall (v1_wf inp) (V1.registrations st).

Definition demo_event (capacity : Z) : Event :=
  mkEvent "title" "description" "start" "end" 1 1 capacity "published"
          "created" "created".

Definition demo_ticket (event_id : Z) (type : string) (price quantity : Z)
  : Ticket :=
  mkTicket event_id type price quantity 0 "start" "end" "created".

(** One event of capacity 100 whose two tickets hold 300 seats each, the
    smallest figures [data.py] can generate. *)
Definition demo_events : list Event := [demo_event 100].

Definition demo_tickets : list Ticket :=
  [demo_ticket 1 "General Admission" 2500 300; demo_ticket 1 "VIP" 10000 300].

Definition demo_main_inputs_v1 : V1.Inputs :=
  V1.mkInputs [1; 2] [1] (ticket_map_of [1] demo_tickets) (prices_of demo_tickets).

(** A state of the data.py allocator in which ticket 1 has two seats
    left, and worlds in which the generator answers [k] to the fourth
    draw of an iteration (the [randint(1, 5)] call) and 0 otherwise. *)
Definition two_left_inputs : V1.Inputs :=
  V1.mkInputs [1] [1] {[ 1 := [1] ]} {[ 1 := 2500 ]}.

Definition two_left : V1.LoopState := V1.init {[ 1 := 2 ]}.

Definition fourth_draw (k : N) : World :=
  mkWorld (fun n => if (n =? 3)%N then k else 0%N) 0 (fun _ => "x"%string) 0
          (fun _ => 0) 0.

Definition emitted_quantities (r : result (V1.LoopState * World)) : list Z :=
  match r with
  | Ok (st, _) => map r_quantity (V1.registrations st)
  | Raise _ => []
  end.

Definition demo_main_inputs : V2.Inputs :=
  V2.mkInputs [1; 2] [1] (ticket_map_of [1] demo_tickets) (prices_of demo_tickets)
              (capacities_of demo_events).

(** Worlds for two runs with the same seeds: the same generator and
    provider tapes, the provider handing out a first name, a last name and
    a date in turn, and a clock that reads [t]. *)
Definition seeded_world (t : Z) : World :=
  mkWorld (fun n => (n * 7 + 3)%N) 0
          (fun n => if (n mod 3 =? 0)%N then "Ada"
                    else if (n mod 3 =? 1)%N then "Lovelace"
                    else "2026-01-15 10:30:00")%string
          0 (fun _ => t) 0.

Definition users_of (r : result (list User * World)) : list User :=
  match r with
  | Ok (users, _) => users
  | Raise _ => []
  end.

Definition empty_sink : V1Sink.Sink := V1Sink.mkSink ∅ [] [].

(** ** The remaining generators *)

(** A venue tuple [(name, address, city, state, country, zip_code,
    latitude, longitude, capacity, created_at)]; the coordinates are kept
    as the provider's decimal text. *)
Record Venue : Type := mkVenue {
  v_name : string;
  v_address : string;
  v_city : string;
  v_state : string;
  v_country : string;
  v_zip_code : string;
  v_latitude : string;
  v_longitude : string;
  v_capacity : Z;
  v_created_at : string
}.

(** ['TX' if city == 'Dallas' else ('PA' if city == 'Philadelphia' else 'NY')] *)
Definition state_of (city : string) : string :=
  if String.eqb city "Dallas" then "TX"
  else if String.eqb city "Philadelphia" then "PA" else "NY".

(** [for _ in range(n)]: the body run [n] times, results appended. *)
Fixpoint repeatM {A} (n : nat) (c : M A) : M (list A) :=
  match n with
  | O => ret []
  | Datatypes.S n' =>
      let* x := c in
      let* xs := repeatM n' c in
      ret (x :: xs)
  end.

(** [generate_venues], identical in both scripts. *)
Definition generate_venues : M (list Venue) :=
  repeatM 10
    (let* city := choice cities in
     let* company := faker in
     let name := (city +:+ " " +:+ company +:+ " Center")%string in
     let* address := faker in
     let state := state_of city in
     let country := "USA"%string in
     let* zip_code := faker in
     let* latitude := faker in
     let* longitude := faker in
     let* capacity := randint 500 10000 in
     let* created_at := faker in
     ret (mkVenue name address city state country zip_code latitude longitude
                  capacity created_at)).

Definition event_statuses : list string :=
  ["draft"; "published"; "canceled"; "completed"]%string.

Section Events.
(** [plus_hours t h] is the text of [strptime(t) + timedelta(hours=h)]:
    the calendar arithmetic of the datetime library. *)
Variable plus_hours : string -> Z -> string.

(** [generate_events], identical in both scripts. *)
Definition generate_events (organizer_ids venue_ids : list Z) : M (list Event) :=
  repeatM 15
    (let* title := faker in
     let* description := faker in
     let* start_time_str := faker in
     let* hours := randint 2 8 in
     let end_time_str := plus_hours start_time_str hours in
     let* organizer_id := choice organizer_ids in
     let* venue_id := choice venue_ids in
     let* capacity := randint 100 5000 in
     let* status := choice event_statuses in
     let* created_at := faker in
     let updated_at := created_at in
     ret (mkEvent title description start_time_str end_time_str organizer_id
                  venue_id capacity status created_at updated_at)).
End Events.

(** [[i + 1 for i, u in enumerate(users) if u[5] in ('organizer', 'admin')]] *)
Definition organizer_ids_of (users : list User) : list Z :=
  map (fun iu => fst iu + 1)
      (List.filter (fun iu => String.eqb (u_role (snd iu)) "organizer"
                              || String.eqb (u_role (snd iu)) "admin")
                   (enumerate 0 users)).

(** [list(range(1, n + 1))] *)
Definition ids_upto (n : nat) : list Z := map (fun i => Z.of_nat i + 1) (seq 0 n).

(** [generate_event_categories] *)
Definition generate_event_categories : list (string * string) :=
  [("Conference", "Professional development and networking events");
   ("Festival", "Music, art, or cultural celebrations");
   ("Exhibition", "Showcases of art, products, or services");
   ("Sports", "Competitive or recreational sporting events");
   ("Workshop", "Hands-on learning sessions")]%string.

(** The body of the loop of [generate_event_category_mapping]. *)
Definition categories_for_event (category_ids : list Z) (event_id : Z)
  : M (list (Z * Z)) :=
  let* num_categories := randint 1 3 in
  let* selected := sample category_ids num_categories in
  ret (map (fun cat => (event_id, cat)) selected).

(** [generate_event_category_mapping], identical in both scripts. *)
Definition generate_event_category_mapping (event_ids category_ids : list Z)
  : M (list (Z * Z)) :=
  concatM (categories_for_event category_ids) event_ids.

(** A notification tuple [(user_id, event_id, message, type, status,
    sent_at)]; [sent_at] may be [None]. *)
Record Notification : Type := mkNotification {
  n_user_id : Z;
  n_event_id : Z;
  n_message : string;
  n_type : string;
  n_status : string;
  n_sent_at : option string
}.

Definition notification_types : list string := ["email"; "sms"; "push"]%string.

Definition confirmation_message (event_id : Z) : string :=
  ("Your registration for event " +:+ pretty event_id +:+ " is confirmed")%string.

Definition reminder_message : string := "Reminder: Your event starts soon!".

Module V1Notify.

(** The body of the loop of [generate_notifications] in [data.py]. *)
Definition notifications_for (reg : Registration) : M (list Notification) :=
  let* type := choice notification_types in
  let* sent_at := faker in
  let confirmation :=
    mkNotification (r_user_id reg) (r_event_id reg)
                   (confirmation_message (r_event_id reg)) type
                   (if is_paid reg then "sent" else "pending")%string
                   (Some sent_at) in
  let* u := random in
  if lt_0_5 u then
    let* type' := choice notification_types in
    ret [confirmation;
         mkNotification (r_user_id reg) (r_event_id reg) reminder_message type'
                        "pending" None]
  else ret [confirmation].

Definition generate_notifications (registrations : list Registration)
  : M (list Notification) :=
  concatM notifications_for registrations.

End V1Notify.

Module V2Notify.

(** The body of the loop of [generate_notifications] in [v2_data.py]. *)
Definition notifications_for (reg : Registration) : M (list Notification) :=
  let* sent_at :=
    if is_paid reg then (let* s := faker in ret (Some s)) else ret None in
  let* type := choice notification_types in
  let confirmation :=
    mkNotification (r_user_id reg) (r_event_id reg)
                   (confirmation_message (r_event_id reg)) type
                   (if is_paid reg then "sent" else "pending")%string
                   sent_at in
  let* u := random in
  if lt_0_5 u then
    let* type' := choice notification_types in
    ret [confirmation;
         mkNotification (r_user_id reg) (r_event_id reg) reminder_message type'
                        "pending" None]
  else ret [confirmation].

Definition generate_notifications (registrations : list Registration)
  : M (list Notification) :=
  concatM notifications_for registrations.

End V2Notify.

(** A double given by its exact value [num / 2^exp]. *)
Record Dyadic : Type := mkDyadic {
  dy_num : Z;
  dy_exp : N
}.

(** [u < p] for the [random()] draw [u = k / 2^53]. *)
Definition random_lt (k : N) (p : Dyadic) : bool :=
  Z.of_N k * 2 ^ Z.of_N (dy_exp p) <? dy_num p * 2 ^ 53.

(** The double nearest to 0.3. *)
Definition p_0_3 : Dyadic := mkDyadic 5404319552844595 54.

(** A feedback tuple [(event_id, user_id, rating, comment, submitted_at)]. *)
Record Feedback : Type := mkFeedback {
  f_event_id : Z;
  f_user_id : Z;
  f_rating : Z;
  f_comment : string;
  f_submitted_at : string
}.

(** The body of the loop of [generate_feedback]; the draw is made only for
    a paid registration. *)
Definition feedback_for (feedback_probability : Dyadic) (reg : Registration)
  : M (list Feedback) :=
  if is_paid reg then
    let* u := random in
    if random_lt u feedback_probability then
      let event_id := r_event_id reg in
      let user_id := r_user_id reg in
      let* rating := randint 1 5 in
      let* comment := faker in
      let* submitted_at := faker in
      ret [mkFeedback event_id user_id rating comment submitted_at]
    else ret []
  else ret [].

(** [generate_feedback] of [v2_data.py]. *)
Definition generate_feedback (registrations : list Registration)
    (feedback_probability : Dyadic) : M (list Feedback) :=
  concatM (feedback_for feedback_probability) registrations.

(** A speaker tuple [(first_name, last_name, bio, email, phone,
    created_at)]. *)
Record Speaker : Type := mkSpeaker {
  sp_first_name : string;
  sp_last_name : string;
  sp_bio : string;
  sp_email : string;
  sp_phone : string;
  sp_created_at : string
}.

(** [generate_speakers] of [v2_data.py]. *)
Definition generate_speakers (num_speakers : Z) : M (list Speaker) :=
  mapM (fun i =>
          let* first_name := faker in
          let* last_name := faker in
          let* bio := faker in
          let email := (lower first_name +:+ "." +:+ lower last_name
                        +:+ pretty i +:+ "@speaker.com")%string in
          let* area_code := randint 100 999 in
          let* exchange_code := randint 100 999 in
          let* line_number := randint 1000 9999 in
          let phone := (pretty area_code +:+ "-" +:+ pretty exchange_code
                        +:+ "-" +:+ pretty line_number)%string in
          let* created_at := faker in
          ret (mkSpeaker first_name last_name bio email phone created_at))
       (range (Z.to_nat num_speakers)).

(** An event-sponsor tuple [(event_id, sponsor_id, sponsorship_level,
    contribution_amount)], the amount in cents. *)
Record EventSponsor : Type := mkEventSponsor {
  es_event_id : Z;
  es_sponsor_id : Z;
  es_level : string;
  es_contribution : Z
}.

Definition sponsorship_levels : list string := ["Gold"; "Silver"; "Bronze"]%string.

(** The body of the loop of [generate_event_sponsors]. *)
Definition sponsors_for_event (sponsor_ids : list Z)
    (max_sponsors_per_event : Z) (event_id : Z) : M (list EventSponsor) :=
  let* num_sponsors := randint 0 max_sponsors_per_event in
  let* selected_sponsors :=
    sample sponsor_ids (Z.min num_sponsors (Z.of_nat (length sponsor_ids))) in
  mapM (fun sponsor_id =>
          let* level := choice sponsorship_levels in
          let* contribution := uniform_cents 1000 10000 in
          ret (mkEventSponsor event_id sponsor_id level contribution))
       selected_sponsors.

(** [generate_event_sponsors] of [v2_data.py]. *)
Definition generate_event_sponsors (event_ids sponsor_ids : list Z)
    (max_sponsors_per_event : Z) : M (list EventSponsor) :=
  concatM (sponsors_for_event sponsor_ids max_sponsors_per_event) event_ids.

(** ** The connection retry loop of data.py *)

Inductive Connection : Type :=
| Connected (failed_attempts : nat) (slept_seconds : Z)
| ConnectionFailed (failed_attempts : nat) (slept_seconds : Z).

(** [create_connection]: [refused k] tells whether the [k]-th call of
    [psycopg2.connect] raises OperationalError.  The result records the
    number of failed attempts and the seconds spent in [time.sleep(5)]. *)
Fixpoint create_connection_from (refused : nat -> bool) (budget : nat)
    (attempts : nat) (slept : Z) : Connection :=
  match budget with
  | O => ConnectionFailed attempts slept
  | Datatypes.S budget' =>
      if refused attempts
      then create_connection_from refused budget' (Datatypes.S attempts) (slept + 5)
      else Connected attempts slept
  end.

Definition max_attempts : nat := 5.

Definition create_connection (refused : nat -> bool) : Connection :=
  create_connection_from refused max_attempts 0 0.

(** ** Further properties of the allocators: the predicates *)

(** A registration as both allocators build it. *)
Definition registration_ok (user_ids event_ids : list Z)
    (ticket_map : gmap Z (list Z)) (ticket_prices : gmap Z Z)
    (r : Registration) : Prop :=
  r_user_id r ∈ user_ids /\
  r_event_id r ∈ event_ids /\
  r_ticket_id r ∈ default [] (ticket_map !! r_event_id r) /\
  1 <= r_quantity r <= 5 /\
  is_Some (ticket_prices !! r_ticket_id r) /\
  r_status r = "confirmed"%string /\
  (r_payment_status r = "paid"%string \/ r_payment_status r = "unpaid"%string).

(** Every ticket offered for a listed event has a price. *)
Definition tickets_priced (event_ids : list Z) (ticket_map : gmap Z (list Z))
    (ticket_prices : gmap Z Z) : Prop :=
  forall e t, e ∈ event_ids -> t ∈ default [] (ticket_map !! e) ->
              is_Some (ticket_prices !! t).

(** ** Further properties of the derived entities: the predicates *)

Definition is_reminder (n : Notification) : bool :=
  String.eqb (n_message n) reminder_message.

Definition confirmations (ns : list Notification) : list Notification :=
  List.filter (fun n => negb (is_reminder n)) ns.

Definition reminders (ns : list Notification) : list Notification :=
  List.filter is_reminder ns.

(** The confirmation both scripts emit for a registration. *)
Definition confirms (reg : Registration) (n : Notification) : Prop :=
  n_user_id n = r_user_id reg /\
  n_event_id n = r_event_id reg /\
  n_message n = confirmation_message (r_event_id reg) /\
  n_type n ∈ notification_types /\
  n_status n = (if is_paid reg then "sent" else "pending")%string.

Definition is_reminder_of (reg : Registration) (n : Notification) : Prop :=
  n_user_id n = r_user_id reg /\
  n_event_id n = r_event_id reg /\
  n_message n = reminder_message /\
  n_type n ∈ notification_types /\
  n_status n = "pending"%string /\
  n_sent_at n = None.

(** What the loop of [generate_notifications] appends for one
    registration: its confirmation, satisfying [extra], and at most one
    reminder. *)
Definition notification_batch (extra : Registration -> Notification -> Prop)
    (reg : Registration) (b : list Notification) : Prop :=
  exists c, confirms reg c /\ extra reg c /\
            (b = [c] \/ exists r, is_reminder_of reg r /\ b = [c; r]).

(** [v2_data.py]: a timestamp exactly for a paid registration. *)
Definition stamped_iff_paid (reg : Registration) (n : Notification) : Prop :=
  is_Some (n_sent_at n) <-> is_paid reg = true.

(** [data.py]: always a timestamp. *)
Definition always_stamped (reg : Registration) (n : Notification) : Prop :=
  is_Some (n_sent_at n).

(** The state and world the allocator of [v2_data.py] returns on the
    first concrete run, and the waitlists then drawn for three users. *)
Definition demo_state : V2.LoopState :=
  match V2.generate_registrations demo_inputs demo_remaining ∅ (demo_world 0) with
  | Some (Ok (st, _)) => st
  | _ => V2.init demo_remaining ∅
  end.

Definition demo_world_after : World :=
  match V2.generate_registrations demo_inputs demo_remaining ∅ (demo_world 0) with
  | Some (Ok (_, w)) => w
  | _ => demo_world 0
  end.

Definition demo_waitlist_run : result (list Waitlist * World) :=
  V2Derived.generate_waitlists
    [1; 2; 3] [1]
    (V2Derived.calculate_total_registrations (V2.registrations demo_state))
    {[ 1 := 7 ]} 10 50 demo_world_after.

Definition value_of {A} (default : A) (r : result (A * World)) : A :=
  match r with
  | Ok (a, _) => a
  | Raise _ => default
  end.

Definition world_of {A} (default : World) (r : result (A * World)) : World :=
  match r with
  | Ok (_, w) => w
  | Raise _ => default
  end.

Definition demo_waitlists : list Waitlist := value_of [] demo_waitlist_run.

Definition demo_world_final : World := world_of (demo_world 0) demo_waitlist_run.

(** A venue whose state is the state of its city. *)
Definition venue_ok (v : Venue) : Prop :=
  ((v_city v = "Dallas" /\ v_state v = "TX") \/
   (v_city v = "Philadelphia" /\ v_state v = "PA") \/
   (v_city v = "New York" /\ v_state v = "NY"))%string /\
  v_country v = "USA"%string /\
  500 <= v_capacity v <= 10000.

Definition event_ok (plus_hours : string -> Z -> string)
    (organizer_ids venue_ids : list Z) (ev : Event) : Prop :=
  e_organizer_id ev ∈ organizer_ids /\
  e_venue_id ev ∈ venue_ids /\
  100 <= e_capacity ev <= 5000 /\
  e_status ev ∈ event_statuses /\
  e_updated_at ev = e_created_at ev /\
  exists hours, 2 <= hours <= 8 /\
                e_end_time ev = plus_hours (e_start_time ev) hours.

Definition demo_user (role : string) : User :=
  mkUser "Ada" "Lovelace" "ada.lovelace.0@example.com" "hash0" "214-200-1000"
         role "2026-01-15 10:30:00" "2026-01-15 10:30:00".

Definition demo_users : list User :=
  [demo_user "attendee"; demo_user "organizer"; demo_user "attendee";
   demo_user "admin"].

Definition demo_plus_hours (t : string) (h : Z) : string :=
  (t +:+ "+" +:+ pretty h +:+ "h")%string.

Definition demo_events_run : result (list Event * World) :=
  generate_events demo_plus_hours (organizer_ids_of demo_users) [1; 2]
                  (demo_world 0).

(** The role list [generate_users] shuffles. *)
Definition initial_roles : list string :=
  replicate 80 "attendee"%string ++ replicate 15 "organizer"%string
  ++ replicate 5 "admin"%string.

(** The generation stages at the head of [main], in the order both
    scripts run them: users, venues, then events for the organizers among
    the users and the venues 1..n. *)
Definition main_entities (plus_hours : string -> Z -> string)
  : M (list User * list Venue * list Event) :=
  let* users := generate_users in
  let* venues := generate_venues in
  let organizer_ids := organizer_ids_of users in
  let venue_ids := ids_upto (length venues) in
  let* events := generate_events plus_hours organizer_ids venue_ids in
  ret (users, venues, events).

(** The name of the export of a table, [csv/<table>.csv].  Every file
    [main] writes has such a name, the table name being made of lower-case
    letters and underscores; two such names denote two files. *)
Definition csv_path (table : string) : string :=
  ("csv/" +:+ table +:+ ".csv")%string.

Definition is_table_char (c : ascii) : bool :=
  let n := nat_of_ascii c in
  ((97 <=? n) && (n <=? 122) || (n =? 95))%nat.

Fixpoint all_table_chars (s : string) : bool :=
  match s with
  | EmptyString => true
  | String c s' => is_table_char c && all_table_chars s'
  end.

Definition table_name (s : string) : bool :=
  match s with
  | EmptyString => false
  | String _ _ => all_table_chars s
  end.

Definition demo_sink_run : option (result (V1Sink.Sink * World)) :=
  V1Sink.main_tickets_to_reconciliation false demo_tickets [1; 2] [1]
                                        empty_sink (demo_world 0).


(** ** Promotions (v2_data.py) *)

(** A promotion tuple
    [(event_id, code, discount_percentage, valid_from, valid_to,
      created_at)]; the discount in hundredths of a percent. *)
Record Promotion : Type := mkPromotion {
  pr_event_id : Z;
  pr_code : string;
  pr_discount : Z;
  pr_valid_from : string;
  pr_valid_to : string;
  pr_created_at : string
}.

Section Promotions.
(** [upper s] is [s.upper()]; [plus_days t d] is the text of
    [strptime(t) + timedelta(days=d)]. *)
Variable upper : string -> string.
Variable plus_days : string -> Z -> string.

(** [fake.word().upper() + str(random.randint(100, 999))] *)
Definition new_code : M string :=
  let* word := faker in
  let* n := randint 100 999 in
  ret (upper word +:+ pretty n)%string.

(** The first code and the loop [while code in used_codes]; [fuel] bounds
    the number of codes drawn. *)
Fixpoint fresh_code (fuel : nat) (used_codes : gset string) (w : World)
  : option (result (string * World)) :=
  match fuel with
  | O => None
  | Datatypes.S fuel' =>
      match new_code w with
      | Raise e => Some (Raise e)
      | Ok (code, w1) =>
          if bool_decide (code ∈ used_codes)
          then fresh_code fuel' used_codes w1
          else Some (Ok (code, w1))
      end
  end.

(** The body of [for _ in range(num_promos)] after the code is chosen. *)
Definition promotion_with_code (event_id : Z) (code : string) : M Promotion :=
  let* discount_percentage := uniform_cents 5 50 in
  let* valid_from := faker in
  let valid_to := plus_days valid_from 30 in
  let* created_at := faker in
  ret (mkPromotion event_id code discount_percentage valid_from valid_to
                   created_at).

(** [for _ in range(num_promos)], threading [used_codes]. *)
Fixpoint promotions_for_event (fuel : nat) (event_id : Z) (num_promos : nat)
         (used_codes : gset string) (w : World)
  : option (result (list Promotion * gset string * World)) :=
  match num_promos with
  | O => Some (Ok ([], used_codes, w))
  | Datatypes.S n =>
      match fresh_code fuel used_codes w with
      | None => None
      | Some (Raise e) => Some (Raise e)
      | Some (Ok (code, w1)) =>
          match promotion_with_code event_id code w1 with
          | Raise e => Some (Raise e)
          | Ok (p, w2) =>
              match promotions_for_event fuel event_id n
                                         ({[code]} ∪ used_codes) w2 with
              | None => None
              | Some (Raise e) => Some (Raise e)
              | Some (Ok (ps, used, w3)) => Some (Ok (p :: ps, used, w3))
              end
          end
      end
  end.

(** [for event_id in event_ids], threading [used_codes]. *)
Fixpoint generate_promotions_from (fuel : nat) (event_ids : list Z)
         (max_promos_per_event : Z) (used_codes : gset string) (w : World)
  : option (result (list Promotion * gset string * World)) :=
  match event_ids with
  | [] => Some (Ok ([], used_codes, w))
  | event_id :: rest =>
      match randint 0 max_promos_per_event w with
      | Raise e => Some (Raise e)
      | Ok (num_promos, w1) =>
          match promotions_for_event fuel event_id (Z.to_nat num_promos)
                                     used_codes w1 with
          | None => None
          | Some (Raise e) => Some (Raise e)
          | Some (Ok (ps, used, w2)) =>
              match generate_promotions_from fuel rest max_promos_per_event
                                             used w2 with
              | None => None
              | Some (Raise e) => Some (Raise e)
              | Some (Ok (qs, used', w3)) => Some (Ok (ps ++ qs, used', w3))
              end
          end
      end
  end.

(** [generate_promotions]; [None] when some code loop outlives [fuel]. *)
Definition generate_promotions (fuel : nat) (event_ids : list Z)
           (max_promos_per_event : Z) (w : World)
  : option (result (list Promotion * World)) :=
  match generate_promotions_from fuel event_ids max_promos_per_event ∅ w with
  | None => None
  | Some (Raise e) => Some (Raise e)
  | Some (Ok (promotions, _, w')) => Some (Ok (promotions, w'))
  end.
End Promotions.

(** What every promotion of a run for [event_ids] satisfies. *)
Definition promotion_ok (plus_days : string -> Z -> string)
           (event_ids : list Z) (p : Promotion) : Prop :=
  pr_event_id p ∈ event_ids /\
  500 <= pr_discount p <= 5000 /\
  pr_valid_to p = plus_days (pr_valid_from p) 30.

(** What the loop of [generate_promotions] appends for one event. *)
Definition promotion_batch (max_promos_per_event : Z) (event_id : Z)
    (b : list Promotion) : Prop :=
  Forall (fun p => pr_event_id p = event_id) b /\
  Z.of_nat (length b) <= max_promos_per_event.

Definition promotions_of_event (e : Z) (ps : list Promotion) : list Promotion :=
  List.filter (fun p => pr_event_id p =? e) ps.

Definition demo_upper (s : string) : string := s.

Definition demo_plus_days (t : string) (d : Z) : string :=
  (t +:+ "+" +:+ pretty d +:+ "d")%string.

Definition demo_promotions_run : option (result (list Promotion * World)) :=
  generate_promotions demo_upper demo_plus_days 3 [1; 2; 3] 2 (demo_world 0).
(** * Properties *)

(** ** Facts about the primitives *)

Lemma bind_Ok {A B} (c : M A) (k : A -> M B) w b w' :
  bind c k w = Ok (b, w') ->
  exists a w1, c w = Ok (a, w1) /\ k a w1 = Ok (b, w').
Proof.
  unfold bind. destruct (c w) as [[a w1]|e]; [eauto | discriminate].
Qed.

Lemma ret_Ok {A} (a b : A) w w' : ret a w = Ok (b, w') -> b = a /\ w' = w.
Proof. unfold ret. intros H. injection H as <- <-. auto. Qed.

(** Peel the leading [let*] of a computation known to return. *)
Tactic Notation "bind_inv" hyp(H) "as" ident(a) ident(w) ident(E) :=
  apply bind_Ok in H; destruct H as (a & w & E & H).

Lemma randint_range a b w x w' :
  randint a b w = Ok (x, w') -> a <= x <= b.
Proof.
  unfold randint. destruct (Z.ltb_spec b a) as [Hlt|Hle]; [discriminate|].
  intros H. bind_inv H as r w1 E. apply ret_Ok in H as [-> _].
  assert (0 <= Z.of_N r mod (b - a + 1) < b - a + 1)
    by (apply Z.mod_pos_bound; lia).
  lia.
Qed.

Lemma randint_returns a b w :
  a <= b -> exists x w', randint a b w = Ok (x, w').
Proof.
  intros Hab. unfold randint. destruct (Z.ltb_spec b a); [lia|].
  unfold bind, draw, ret. eauto.
Qed.

Lemma choice_elem {A} (seq : list A) w x w' :
  choice seq w = Ok (x, w') -> x ∈ seq.
Proof.
  destruct seq as [|y seq]; [discriminate|].
  unfold choice. intros H. bind_inv H as r w1 E. apply ret_Ok in H as [-> _].
  apply list_elem_of_In, nth_In.
  assert (Hne : N.of_nat (length (y :: seq)) <> 0%N) by (simpl; lia).
  pose proof (N.mod_upper_bound r (N.of_nat (length (y :: seq))) Hne). lia.
Qed.

Lemma choice_returns {A} (seq : list A) w :
  seq <> [] -> exists x w', choice seq w = Ok (x, w').
Proof.
  destruct seq; [congruence|]. intros _.
  unfold choice, bind, draw, ret. eauto.
Qed.

Lemma random_bound w u w' : random w = Ok (u, w') -> (u < two53)%N.
Proof.
  unfold random. intros H. bind_inv H as r w1 E. apply ret_Ok in H as [-> _].
  apply N.mod_upper_bound. discriminate.
Qed.

(** Comparing [k / 2^53] with the double 0.4 is the comparison with the
    rational 2/5. *)
Lemma lt_0_4_exact (k : N) :
  lt_0_4 k = true <-> (5 * k < 2 * two53)%N.
Proof.
  unfold lt_0_4, two53. rewrite N.ltb_lt. lia.
Qed.

(** ** Facts about the loop *)

Section WhileFacts.
Context {S : Type} (cond : S -> bool) (body : S -> M S).

Lemma runs_invariant (P : S -> Prop) :
  (forall s w s' w', P s -> cond s = true -> body s w = Ok (s', w') -> P s') ->
  forall n s w s' w', P s -> runs cond body n s w (Ok (s', w')) -> P s'.
Proof.
  intros Hstep n s w s' w' HP Hruns.
  remember (Ok (s', w')) as r eqn:Er.
  induction Hruns as [s w Hc|s w e Hc Hb|n s w s1 w1 r Hc Hb Hr IH].
  - injection Er as <- <-. exact HP.
  - discriminate.
  - apply IH; [eapply Hstep; eauto | exact Er].
Qed.

Lemma reaches_invariant (P : S -> Prop) :
  (forall s w s' w', P s -> cond s = true -> body s w = Ok (s', w') -> P s') ->
  forall s w s' w', P s -> reaches cond body s w s' w' -> P s'.
Proof.
  intros Hstep s w s' w' HP Hr.
  induction Hr as [s w|s w s1 w1 s' w' Hc Hb Hr IH]; [exact HP|].
  apply IH. eapply Hstep; eauto.
Qed.

Lemma runs_reaches n s w s' w' :
  runs cond body n s w (Ok (s', w')) -> reaches cond body s w s' w'.
Proof.
  intros Hruns. remember (Ok (s', w')) as r eqn:Er.
  induction Hruns as [s w Hc|s w e Hc Hb|n s w s1 w1 r Hc Hb Hr IH].
  - injection Er as <- <-. constructor.
  - discriminate.
  - econstructor; eauto.
Qed.

Lemma runs_exit_cond n s w s' w' :
  runs cond body n s w (Ok (s', w')) -> cond s' = false.
Proof.
  intros Hruns. remember (Ok (s', w')) as r eqn:Er.
  induction Hruns as [s w Hc|s w e Hc Hb|n s w s1 w1 r Hc Hb Hr IH]; auto.
  - injection Er as <- <-. exact Hc.
  - discriminate.
Qed.

Lemma while_runs fuel s w r :
  while_ cond body fuel s w = Some r ->
  exists n, (n <= fuel)%nat /\ runs cond body n s w r.
Proof.
  revert s w. induction fuel as [|fuel IH]; intros s w; simpl.
  - destruct (cond s) eqn:Hc; [discriminate|].
    intros [= <-]. exists 0%nat. split; [lia | by constructor].
  - destruct (cond s) eqn:Hc.
    + destruct (body s w) as [[s1 w1]|e] eqn:Hb.
      * intros H. apply IH in H as (n & Hn & Hr).
        exists (Datatypes.S n). split; [lia | econstructor; eauto].
      * intros [= <-]. exists 1%nat. split; [lia | by constructor].
    + intros [= <-]. exists 0%nat. split; [lia | by constructor].
Qed.

(** A counter that every iteration advances by one, and that the loop
    condition keeps below a budget, bounds the number of iterations. *)
Section Budget.
Variable counter : S -> Z.
Variable budget : Z.
Hypothesis cond_budget : forall s, cond s = true -> counter s < budget.
Hypothesis body_counter :
  forall s w s' w', body s w = Ok (s', w') -> counter s' = counter s + 1.

Lemma while_within_budget fuel s w :
  budget - counter s <= Z.of_nat fuel ->
  exists n r,
    while_ cond body fuel s w = Some r /\
    runs cond body n s w r /\
    Z.of_nat n <= Z.max 0 (budget - counter s) /\
    forall s' w', r = Ok (s', w') -> counter s' = counter s + Z.of_nat n.
Proof.
  revert s w. induction fuel as [|fuel IH]; intros s w Hfuel; simpl.
  - destruct (cond s) eqn:Hc.
    + apply cond_budget in Hc. lia.
    + exists 0%nat, (Ok (s, w)). repeat split; [by constructor|lia|].
      intros s' w' [= <- <-]. lia.
  - destruct (cond s) eqn:Hc.
    + pose proof (cond_budget _ Hc) as Hlt.
      destruct (body s w) as [[s1 w1]|e] eqn:Hb.
      * pose proof (body_counter _ _ _ _ Hb) as Hcnt.
        destruct (IH s1 w1) as (n & r & Hw & Hr & Hn & Hfin); [lia|].
        exists (Datatypes.S n), r. repeat split; auto.
        -- econstructor; eauto.
        -- lia.
        -- intros s' w' Er. rewrite (Hfin _ _ Er). lia.
      * exists 1%nat, (Raise e). repeat split; [by constructor|lia|].
        intros s' w' [=].
    + exists 0%nat, (Ok (s, w)). repeat split; [by constructor|lia|].
      intros s' w' [= <- <-]. lia.
Qed.
End Budget.
End WhileFacts.

Lemma getitem_Ok {V} (d : gmap Z V) k w v w' :
  getitem d k w = Ok (v, w') -> d !! k = Some v /\ w' = w.
Proof.
  unfold getitem. destruct (d !! k); [|discriminate].
  intros H. apply ret_Ok in H as [-> ->]. auto.
Qed.

Lemma faker_Ok w s w' : faker w = Ok (s, w') -> rnd w' = rnd w /\ rnd_pos w' = rnd_pos w.
Proof. unfold faker. intros [= <- <-]. auto. Qed.

(** Closed decidable facts, by evaluation of the decision procedure. *)
Ltac decide_closed := apply (bool_decide_unpack _); vm_compute; exact I.

(** ** One iteration of the allocators *)

Lemma v2_body_inv inp st w st' w' :
  V2.body inp st w = Ok (st', w') ->
  V2.attempts st' = V2.attempts st + 1 /\
  ((V2.registrations st' = V2.registrations st /\
    V2.tickets_remaining st' = V2.tickets_remaining st /\
    V2.event_reg_totals st' = V2.event_reg_totals st)
   \/ exists r, v2_emission inp st st' w' r).
Proof.
  unfold V2.body. intros H.
  bind_inv H as user_id w1 Eu. bind_inv H as event_id w2 Ee.
  apply choice_elem in Eu, Ee.
  destruct (default [] (V2.ticket_map inp !! event_id)) as [|t0 ts] eqn:Etm.
  { apply ret_Ok in H as [-> _]. simpl. auto. }
  bind_inv H as ticket_id w3 Et. apply choice_elem in Et. simpl in H.
  destruct (Z.leb_spec (get0 (V2.tickets_remaining st) ticket_id) 0) as [Hav|Hav].
  { apply ret_Ok in H as [-> _]. simpl. auto. }
  bind_inv H as capacity w4 Ec. apply getitem_Ok in Ec as [Ec ->].
  destruct (Z.leb_spec (capacity - get0 (V2.event_reg_totals st) event_id) 0)
    as [Hcap|Hcap].
  { apply ret_Ok in H as [-> _]. simpl. auto. }
  bind_inv H as quantity w5 Eq. bind_inv H as price w6 Ep.
  apply getitem_Ok in Ep as [Ep ->].
  bind_inv H as registered_at w7 Ef. bind_inv H as u w8 Er.
  apply ret_Ok in H as [-> ->]. simpl. split; [reflexivity|]. right.
  eexists (mkRegistration user_id event_id ticket_id quantity _ _ _ _).
  unfold v2_emission; simpl. rewrite Etm.
  exists capacity, price, u, w3, w5, w7. repeat split; auto.
Qed.

Lemma v1_body_inv inp st w st' w' :
  V1.body inp st w = Ok (st', w') ->
  V1.attempts st' = V1.attempts st + 1 /\
  ((V1.registrations st' = V1.registrations st /\
    V1.tickets_remaining st' = V1.tickets_remaining st)
   \/ exists r, v1_emission inp st st' w' r).
Proof.
  unfold V1.body. intros H.
  bind_inv H as user_id w1 Eu. bind_inv H as event_id w2 Ee.
  apply choice_elem in Eu, Ee.
  destruct (default [] (V1.ticket_map inp !! event_id)) as [|t0 ts] eqn:Etm.
  { apply ret_Ok in H as [-> _]. simpl. auto. }
  bind_inv H as ticket_id w3 Et. apply choice_elem in Et. simpl in H.
  destruct (Z.leb_spec (get0 (V1.tickets_remaining st) ticket_id) 0) as [Hav|Hav].
  { apply ret_Ok in H as [-> _]. simpl. auto. }
  bind_inv H as drawn w5 Eq.
  assert (Hq : (if get0 (V1.tickets_remaining st) ticket_id <? drawn
                then get0 (V1.tickets_remaining st) ticket_id else drawn)
               = Z.min drawn (get0 (V1.tickets_remaining st) ticket_id)).
  { destruct (Z.ltb_spec (get0 (V1.tickets_remaining st) ticket_id) drawn); lia. }
  rewrite Hq in H. clear Hq.
  bind_inv H as price w6 Ep.
  apply getitem_Ok in Ep as [Ep ->].
  bind_inv H as registered_at w7 Ef. bind_inv H as u w8 Er.
  apply ret_Ok in H as [-> ->]. simpl. split; [reflexivity|]. right.
  eexists (mkRegistration user_id event_id ticket_id _ _ _ _ _).
  unfold v1_emission; simpl. rewrite Etm.
  exists drawn, price, u, w3, w5, w7. repeat split; auto.
Qed.

Lemma v2_cond_true st :
  V2.cond st = true ->
  Z.of_nat (length (V2.registrations st)) < 2500 /\ V2.attempts st < 25000.
Proof.
  unfold V2.cond, desired_count. rewrite andb_true_iff, !Z.ltb_lt. lia.
Qed.

Lemma v1_cond_true st :
  V1.cond st = true ->
  Z.of_nat (length (V1.registrations st)) < 2500 /\ V1.attempts st < 25000.
Proof.
  unfold V1.cond, desired_count. rewrite andb_true_iff, !Z.ltb_lt. lia.
Qed.

Lemma v2_body_length inp st w st' w' :
  V2.body inp st w = Ok (st', w') ->
  (length (V2.registrations st') <= Datatypes.S (length (V2.registrations st)))%nat.
Proof.
  intros H. apply v2_body_inv in H as [_ [(-> & _)|(r & Hr)]]; [lia|].
  destruct Hr as (? & ? & ? & ? & ? & ? & Hr).
  destruct Hr as (_ & _ & _ & _ & _ & _ & _ & _ & _ & _ & _ & -> & _).
  rewrite length_app. simpl. lia.
Qed.

Lemma v1_body_length inp st w st' w' :
  V1.body inp st w = Ok (st', w') ->
  (length (V1.registrations st') <= Datatypes.S (length (V1.registrations st)))%nat.
Proof.
  intros H. apply v1_body_inv in H as [_ [(-> & _)|(r & Hr)]]; [lia|].
  destruct Hr as (? & ? & ? & ? & ? & ? & Hr).
  destruct Hr as (_ & _ & _ & _ & _ & _ & _ & _ & _ & _ & -> & _).
  rewrite length_app. simpl. lia.
Qed.

(** ** Termination of the allocator *)

Lemma v2_terminates inp tr ert w :
  exists n r,
    V2.generate_registrations inp tr ert w = Some r /\
    runs V2.cond (V2.body inp) n (V2.init tr ert) w r /\
    Z.of_nat n <= 25000 /\
    match r with
    | Ok (st, _) =>
        V2.attempts st = Z.of_nat n /\
        Z.of_nat (length (V2.registrations st)) <= 2500
    | Raise _ => True
    end.
Proof.
  destruct (while_within_budget V2.cond (V2.body inp) V2.attempts 25000)
    with (fuel := V2.attempt_budget) (s := V2.init tr ert) (w := w)
    as (n & r & Hw & Hr & Hn & Hfin).
  - intros s Hc. apply v2_cond_true in Hc. lia.
  - intros s w1 s' w' Hb. by apply v2_body_inv in Hb as [-> _].
  - vm_compute. discriminate.
  - exists n, r. split; [exact Hw|]. split; [exact Hr|].
    simpl in Hn. split; [lia|].
    destruct r as [[st w']|e]; [|exact I].
    split; [rewrite (Hfin _ _ eq_refl); simpl; lia|].
    eapply (runs_invariant V2.cond (V2.body inp)
              (fun s => Z.of_nat (length (V2.registrations s)) <= 2500));
      [| |exact Hr]; [|simpl; lia].
    intros s w1 s' w1' _ Hc Hb. apply v2_cond_true in Hc.
    apply v2_body_length in Hb. lia.
Qed.

Lemma v1_terminates inp tr w :
  exists n r,
    V1.generate_registrations inp tr w = Some r /\
    runs V1.cond (V1.body inp) n (V1.init tr) w r /\
    Z.of_nat n <= 25000 /\
    match r with
    | Ok (st, _) =>
        V1.attempts st = Z.of_nat n /\
        Z.of_nat (length (V1.registrations st)) <= 2500
    | Raise _ => True
    end.
Proof.
  destruct (while_within_budget V1.cond (V1.body inp) V1.attempts 25000)
    with (fuel := V1.attempt_budget) (s := V1.init tr) (w := w)
    as (n & r & Hw & Hr & Hn & Hfin).
  - intros s Hc. apply v1_cond_true in Hc. lia.
  - intros s w1 s' w' Hb. by apply v1_body_inv in Hb as [-> _].
  - vm_compute. discriminate.
  - exists n, r. split; [exact Hw|]. split; [exact Hr|].
    simpl in Hn. split; [lia|].
    destruct r as [[st w']|e]; [|exact I].
    split; [rewrite (Hfin _ _ eq_refl); simpl; lia|].
    eapply (runs_invariant V1.cond (V1.body inp)
              (fun s => Z.of_nat (length (V1.registrations s)) <= 2500));
      [| |exact Hr]; [|simpl; lia].
    intros s w1 s' w1' _ Hc Hb. apply v1_cond_true in Hc.
    apply v1_body_length in Hb. lia.
Qed.

(** C8, exceptions included.  For every input both allocators terminate: the loop
    runs its body [n <= 25000] times, every completed iteration adds
    exactly one to the attempt counter whether or not the draw is
    discarded, and the run ends either with an exception or with at most
    2500 registrations and an attempt counter equal to [n]. *)
Theorem generate_registrations_terminates :
  (forall inp tr ert w,
      (forall st w1 st' w', V2.body inp st w1 = Ok (st', w') ->
                            V2.attempts st' = V2.attempts st + 1) /\
      exists n r,
        V2.generate_registrations inp tr ert w = Some r /\
        runs V2.cond (V2.body inp) n (V2.init tr ert) w r /\
        Z.of_nat n <= 25000 /\
        match r with
        | Ok (st, _) =>
            V2.attempts st = Z.of_nat n /\
            Z.of_nat (length (V2.registrations st)) <= 2500
        | Raise _ => True
        end) /\
  (forall inp tr w,
      (forall st w1 st' w', V1.body inp st w1 = Ok (st', w') ->
                            V1.attempts st' = V1.attempts st + 1) /\
      exists n r,
        V1.generate_registrations inp tr w = Some r /\
        runs V1.cond (V1.body inp) n (V1.init tr) w r /\
        Z.of_nat n <= 25000 /\
        match r with
        | Ok (st, _) =>
            V1.attempts st = Z.of_nat n /\
            Z.of_nat (length (V1.registrations st)) <= 2500
        | Raise _ => True
        end).
Proof.
  split.
  - intros inp tr ert w. split; [|apply v2_terminates].
    intros st w1 st' w' Hb. by apply v2_body_inv in Hb as [-> _].
  - intros inp tr w. split; [|apply v1_terminates].
    intros st w1 st' w' Hb. by apply v1_body_inv in Hb as [-> _].
Qed.

(** C8 as stated fails: with an empty user list the first draw raises and
    no list is returned. *)
Lemma generate_registrations_empty_users_raises :
  V2.generate_registrations
    (V2.mkInputs [] [1] {[ 1 := [1; 2] ]} {[ 1 := 2500; 2 := 10000 ]} {[ 1 := 7 ]})
    demo_remaining ∅ (demo_world 0) = Some (Raise IndexError) /\
  V1.generate_registrations
    (V1.mkInputs [] [1] {[ 1 := [1; 2] ]} {[ 1 := 2500; 2 := 10000 ]})
    demo_remaining (demo_world 0) = Some (Raise IndexError).
Proof. split; vm_compute; reflexivity. Qed.

(** ** The ledger *)

Lemma get0_insert (d : gmap Z Z) k v k' :
  get0 (<[k := v]> d) k' = if decide (k = k') then v else get0 d k'.
Proof.
  unfold get0. rewrite lookup_insert. by destruct (decide (k = k')).
Qed.

Lemma sum_quantity_app l1 l2 :
  sum_quantity (l1 ++ l2) = sum_quantity l1 + sum_quantity l2.
Proof.
  unfold sum_quantity. induction l1 as [|r l1 IH]; simpl; [lia|].
  rewrite IH. lia.
Qed.

Lemma by_ticket_snoc t l r :
  sum_quantity (by_ticket t (l ++ [r]))
  = sum_quantity (by_ticket t l) + (if decide (r_ticket_id r = t) then r_quantity r else 0).
Proof.
  unfold by_ticket. rewrite List.filter_app, sum_quantity_app. simpl.
  destruct (decide (r_ticket_id r = t)) as [->|Hne].
  - rewrite Z.eqb_refl. simpl. lia.
  - apply Z.eqb_neq in Hne. rewrite Hne. simpl. lia.
Qed.

Lemma by_event_snoc e l r :
  sum_quantity (by_event e (l ++ [r]))
  = sum_quantity (by_event e l) + (if decide (r_event_id r = e) then r_quantity r else 0).
Proof.
  unfold by_event. rewrite List.filter_app, sum_quantity_app. simpl.
  destruct (decide (r_event_id r = e)) as [->|Hne].
  - rewrite Z.eqb_refl. simpl. lia.
  - apply Z.eqb_neq in Hne. rewrite Hne. simpl. lia.
Qed.

Lemma get0_pos_is_Some (d : gmap Z Z) k : 0 < get0 d k -> is_Some (d !! k).
Proof. unfold get0. destruct (d !! k); simpl; [eauto | lia]. Qed.

Lemma v2_inv_init inp tr0 ert0 : v2_inv inp tr0 ert0 (V2.init tr0 ert0).
Proof.
  unfold v2_inv, V2.init; simpl. repeat split; auto; intros; lia.
Qed.

Lemma v2_inv_step inp tr0 ert0 st w st' w' :
  v2_inv inp tr0 ert0 st -> V2.body inp st w = Ok (st', w') ->
  v2_inv inp tr0 ert0 st'.
Proof.
  intros (Ht & He & Hpos & Hcap & Hdom & Hwf) Hb.
  apply v2_body_inv in Hb as [_ [(Er & Et & Ee)|(r & Hr)]].
  { unfold v2_inv. rewrite Er, Et, Ee. repeat split; assumption. }
  destruct Hr as (capacity & price & u & w1 & w2 & w3 & Hr).
  destruct Hr as (Hu & Hev & Htk & Hav & Hc & Hrem & Hq & _ & _ & _ & _
                  & Er & Et & Ee).
  apply randint_range in Hq.
  unfold v2_inv. rewrite Er, Et, Ee. repeat split.
  - intros t. rewrite get0_insert, by_ticket_snoc. specialize (Ht t).
    destruct (decide (r_ticket_id r = t)) as [<-|]; lia.
  - intros e. rewrite get0_insert, by_event_snoc. specialize (He e).
    destruct (decide (r_event_id r = e)) as [<-|]; lia.
  - intros t H0. rewrite get0_insert. specialize (Hpos t H0).
    destruct (decide (r_ticket_id r = t)) as [<-|]; lia.
  - intros e c Hc' Hle. rewrite get0_insert. specialize (Hcap e c Hc' Hle).
    destruct (decide (r_event_id r = e)) as [<-|]; [|lia].
    rewrite Hc in Hc'. injection Hc' as ->. lia.
  - rewrite <- Hdom. apply dom_insert_lookup_L. by apply get0_pos_is_Some.
  - apply Forall_app. split; [exact Hwf|]. constructor; [|constructor].
    unfold v2_wf. repeat split; auto; lia.
Qed.

Lemma v2_inv_reaches inp tr0 ert0 w st w' :
  reaches V2.cond (V2.body inp) (V2.init tr0 ert0) w st w' ->
  v2_inv inp tr0 ert0 st.
Proof.
  apply (reaches_invariant V2.cond (V2.body inp) (v2_inv inp tr0 ert0)).
  - intros s w1 s' w1' Hinv _ Hb. eapply v2_inv_step; eauto.
  - apply v2_inv_init.
Qed.

Lemma v2_returns_reaches inp tr0 ert0 w st w' :
  V2.generate_registrations inp tr0 ert0 w = Some (Ok (st, w')) ->
  reaches V2.cond (V2.body inp) (V2.init tr0 ert0) w st w'.
Proof.
  intros H. apply while_runs in H as (n & _ & Hr).
  eapply runs_reaches; eauto.
Qed.

Lemma v1_inv_init inp tr0 : v1_inv inp tr0 (V1.init tr0).
Proof.
  unfold v1_inv, V1.init; simpl. repeat split; auto; intros; lia.
Qed.

Lemma v1_inv_step inp tr0 st w st' w' :
  v1_inv inp tr0 st -> V1.body inp st w = Ok (st', w') -> v1_inv inp tr0 st'.
Proof.
  intros (Ht & Hpos & Hdom & Hwf) Hb.
  apply v1_body_inv in Hb as [_ [(Er & Et)|(r & Hr)]].
  { unfold v1_inv. rewrite Er, Et. repeat split; assumption. }
  destruct Hr as (drawn & price & u & w1 & w2 & w3 & Hr).
  destruct Hr as (Hu & Hev & Htk & Hav & Hd & Hq & _ & _ & _ & _ & Er & Et).
  apply randint_range in Hd.
  unfold v1_inv. rewrite Er, Et. repeat split.
  - intros t. rewrite get0_insert, by_ticket_snoc. specialize (Ht t).
    destruct (decide (r_ticket_id r = t)) as [<-|]; lia.
  - intros t H0. rewrite get0_insert. specialize (Hpos t H0).
    destruct (decide (r_ticket_id r = t)) as [<-|]; lia.
  - rewrite <- Hdom. apply dom_insert_lookup_L. by apply get0_pos_is_Some.
  - apply Forall_app. split; [exact Hwf|]. constructor; [|constructor].
    unfold v1_wf. repeat split; auto; lia.
Qed.

Lemma v1_inv_reaches inp tr0 w st w' :
  reaches V1.cond (V1.body inp) (V1.init tr0) w st w' -> v1_inv inp tr0 st.
Proof.
  apply (reaches_invariant V1.cond (V1.body inp) (v1_inv inp tr0)).
  - intros s w1 s' w1' Hinv _ Hb. eapply v1_inv_step; eauto.
  - apply v1_inv_init.
Qed.

Lemma v1_returns_reaches inp tr0 w st w' :
  V1.generate_registrations inp tr0 w = Some (Ok (st, w')) ->
  reaches V1.cond (V1.body inp) (V1.init tr0) w st w'.
Proof.
  intros H. apply while_runs in H as (n & _ & Hr).
  eapply runs_reaches; eauto.
Qed.

Lemma returned_Ok {A} (o : option (result A)) :
  returned o = true -> exists a, o = Some (Ok a).
Proof. destruct o as [[a|e]|]; simpl; [eauto|discriminate|discriminate]. Qed.

Lemma demo_v2_returns :
  returned (V2.generate_registrations demo_inputs demo_remaining ∅ (demo_world 0))
  = true.
Proof. vm_compute. reflexivity. Qed.

Lemma demo_v1_returns :
  returned (V1.generate_registrations demo_inputs_v1 demo_remaining (demo_world 0))
  = true.
Proof. vm_compute. reflexivity. Qed.

Lemma demo_main_v2_returns :
  returned (V2.generate_registrations demo_main_inputs (remaining_of demo_tickets) ∅
                                      (demo_world 0))
  = true.
Proof. vm_compute. reflexivity. Qed.

Lemma demo_main_v1_returns :
  returned (V1.generate_registrations demo_main_inputs_v1 (remaining_of demo_tickets)
                                      (demo_world 0))
  = true.
Proof. vm_compute. reflexivity. Qed.


Lemma by_tickets_of_by_event (tm : gmap Z (list Z)) e regs :
  tickets_partitioned tm ->
  Forall (fun r => r_ticket_id r ∈ default [] (tm !! r_event_id r)) regs ->
  by_tickets_of tm e regs = by_event e regs.
Proof.
  intros Hpart Hwf. unfold by_tickets_of, by_event.
  induction Hwf as [|r regs Hr Hwf IH]; [reflexivity|]. simpl. rewrite IH.
  replace (bool_decide (r_ticket_id r ∈ default [] (tm !! e)))
    with (r_event_id r =? e); [reflexivity|].
  destruct (Z.eqb_spec (r_event_id r) e) as [<-|Hne].
  - symmetry. by apply bool_decide_eq_true.
  - symmetry. apply bool_decide_eq_false. intros Hin. apply Hne.
    destruct (tm !! r_event_id r) as [l1|] eqn:E1; simpl in Hr;
      [|by apply elem_of_nil in Hr].
    destruct (tm !! e) as [l2|] eqn:E2; simpl in Hin;
      [|by apply elem_of_nil in Hin].
    eapply Hpart; eauto.
Qed.

(** C1, for [v2_data.py].  In [v2_data.py], started with an empty
    [event_reg_totals], for every event with a non-negative capacity: after
    every iteration of the loop the consumed total of the event, which is
    the sum of the quantities registered for it, is at most its capacity;
    so is that sum when [generate_registrations] returns, also when the
    registrations are selected by their ticket belonging to the event. *)
Theorem event_capacity_respected inp tr0 w e capacity :
  V2.event_capacities inp !! e = Some capacity ->
  0 <= capacity ->
  (forall st w',
      reaches V2.cond (V2.body inp) (V2.init tr0 ∅) w st w' ->
      get0 (V2.event_reg_totals st) e
        = sum_quantity (by_event e (V2.registrations st)) /\
      get0 (V2.event_reg_totals st) e <= capacity) /\
  (forall st w',
      V2.generate_registrations inp tr0 ∅ w = Some (Ok (st, w')) ->
      sum_quantity (by_event e (V2.registrations st)) <= capacity /\
      (tickets_partitioned (V2.ticket_map inp) ->
       sum_quantity (by_tickets_of (V2.ticket_map inp) e (V2.registrations st))
         <= capacity)).
Proof.
  intros Hc Hpos.
  assert (Hreach : forall st w',
             reaches V2.cond (V2.body inp) (V2.init tr0 ∅) w st w' ->
             get0 (V2.event_reg_totals st) e
               = sum_quantity (by_event e (V2.registrations st)) /\
             get0 (V2.event_reg_totals st) e <= capacity /\
             Forall (v2_wf inp) (V2.registrations st)).
  { intros st w' Hr. apply v2_inv_reaches in Hr.
    destruct Hr as (_ & He & _ & Hcap & _ & Hwf).
    specialize (He e). specialize (Hcap e capacity Hc).
    unfold get0 at 2 in He. rewrite lookup_empty in He. simpl in He.
    unfold get0 at 1 in Hcap. rewrite lookup_empty in Hcap. simpl in Hcap.
    repeat split; [lia | auto | exact Hwf]. }
  split.
  - intros st w' Hr. destruct (Hreach _ _ Hr) as (H1 & H2 & _). auto.
  - intros st w' Hret. apply v2_returns_reaches in Hret.
    destruct (Hreach _ _ Hret) as (H1 & H2 & Hwf). split; [lia|].
    intros Hpart. rewrite by_tickets_of_by_event; [lia | exact Hpart |].
    eapply Forall_impl; [exact Hwf|]. by intros r (_ & Hr & _).
Qed.

Lemma event_capacity_respected_witness :
  exists st w',
    V2.generate_registrations demo_inputs demo_remaining ∅ (demo_world 0)
      = Some (Ok (st, w')) /\
    sum_quantity (by_event 1 (V2.registrations st)) <= 7.
Proof.
  destruct (returned_Ok _ demo_v2_returns) as ([st w'] & E).
  exists st, w'. split; [exact E|].
  eapply (event_capacity_respected demo_inputs demo_remaining (demo_world 0) 1 7).
  - reflexivity.
  - lia.
  - exact E.
Defined.

(** C1 as stated fails on [data.py]: its allocator receives no event
    capacity.  For an event of capacity 100 with two tickets of 300 seats
    the registrations add up to 600. *)
Lemma v1_event_capacity_exceeded :
  match V1.generate_registrations demo_main_inputs_v1 (remaining_of demo_tickets)
                                  (demo_world 0) with
  | Some (Ok (st, _)) =>
      capacities_of demo_events !! 1 = Some 100 /\
      100 < sum_quantity (by_event 1 (V1.registrations st))
  | _ => False
  end.
Proof. vm_compute. split; reflexivity. Qed.

(** C9.  When [generate_registrations] returns, for every ticket id the
    initial count of [tickets_remaining] minus its final count is the sum
    of the quantities of the returned registrations of that ticket; the
    dictionary keeps its keys.  Both scripts. *)
Theorem ledger_accounts_for_registrations :
  (forall inp tr0 ert0 w st w' t,
      V2.generate_registrations inp tr0 ert0 w = Some (Ok (st, w')) ->
      get0 tr0 t - get0 (V2.tickets_remaining st) t
        = sum_quantity (by_ticket t (V2.registrations st)) /\
      (forall q0, tr0 !! t = Some q0 ->
                  exists q, V2.tickets_remaining st !! t = Some q /\
                            q0 - q = sum_quantity (by_ticket t (V2.registrations st))))
  /\
  (forall inp tr0 w st w' t,
      V1.generate_registrations inp tr0 w = Some (Ok (st, w')) ->
      get0 tr0 t - get0 (V1.tickets_remaining st) t
        = sum_quantity (by_ticket t (V1.registrations st)) /\
      (forall q0, tr0 !! t = Some q0 ->
                  exists q, V1.tickets_remaining st !! t = Some q /\
                            q0 - q = sum_quantity (by_ticket t (V1.registrations st)))).
Proof.
  split.
  - intros inp tr0 ert0 w st w' t Hret.
    apply v2_returns_reaches, v2_inv_reaches in Hret.
    destruct Hret as (Ht & _ & _ & _ & Hdom & _). specialize (Ht t).
    split; [lia|]. intros q0 Hq0.
    assert (Hin : t ∈ dom (V2.tickets_remaining st))
      by (rewrite Hdom; apply elem_of_dom; eauto).
    apply elem_of_dom in Hin as [q Hq]. exists q. split; [exact Hq|].
    unfold get0 in Ht. rewrite Hq, Hq0 in Ht. simpl in Ht. lia.
  - intros inp tr0 w st w' t Hret.
    apply v1_returns_reaches, v1_inv_reaches in Hret.
    destruct Hret as (Ht & _ & Hdom & _). specialize (Ht t).
    split; [lia|]. intros q0 Hq0.
    assert (Hin : t ∈ dom (V1.tickets_remaining st))
      by (rewrite Hdom; apply elem_of_dom; eauto).
    apply elem_of_dom in Hin as [q Hq]. exists q. split; [exact Hq|].
    unfold get0 in Ht. rewrite Hq, Hq0 in Ht. simpl in Ht. lia.
Qed.

Lemma ledger_accounts_for_registrations_witness :
  exists st2 w2 st1 w1,
    V2.generate_registrations demo_inputs demo_remaining ∅ (demo_world 0)
      = Some (Ok (st2, w2)) /\
    V1.generate_registrations demo_inputs_v1 demo_remaining (demo_world 0)
      = Some (Ok (st1, w1)) /\
    5 - get0 (V2.tickets_remaining st2) 1
      = sum_quantity (by_ticket 1 (V2.registrations st2)) /\
    5 - get0 (V1.tickets_remaining st1) 1
      = sum_quantity (by_ticket 1 (V1.registrations st1)).
Proof.
  destruct (returned_Ok _ demo_v2_returns) as ([st2 w2] & E2).
  destruct (returned_Ok _ demo_v1_returns) as ([st1 w1] & E1).
  exists st2, w2, st1, w1. split; [exact E2|]. split; [exact E1|].
  destruct ledger_accounts_for_registrations as [H2 H1]. split.
  - exact (proj1 (H2 demo_inputs demo_remaining ∅ (demo_world 0) st2 w2 1 E2)).
  - exact (proj1 (H1 demo_inputs_v1 demo_remaining (demo_world 0) st1 w1 1 E1)).
Defined.

(** ** Quantity and payment status of an emitted registration *)

Lemma randint_raw a b w x w' :
  randint a b w = Ok (x, w') ->
  x = a + Z.of_N (rnd w (rnd_pos w)) mod (b - a + 1).
Proof.
  unfold randint. destruct (b <? a); [discriminate|].
  unfold bind, draw, ret. intros [= <- _]. reflexivity.
Qed.

Lemma choice_world {A} (seq : list A) w x w' :
  choice seq w = Ok (x, w') -> w' = after_draw w.
Proof.
  destruct seq as [|y seq]; [discriminate|].
  unfold choice, bind, draw, ret. intros [= _ <-]. reflexivity.
Qed.

Lemma randint_world a b w x w' :
  randint a b w = Ok (x, w') -> w' = after_draw w.
Proof.
  unfold randint. destruct (b <? a); [discriminate|].
  unfold bind, draw, ret. intros [= _ <-]. reflexivity.
Qed.

Lemma faker_world w s w' : faker w = Ok (s, w') -> w' = after_fake w.
Proof. unfold faker. intros [= _ <-]. reflexivity. Qed.

(** C2, per script.  An iteration that emits a registration has made
    three [choice] draws (user, event, ticket); its quantity comes from
    the fourth draw of the iteration.  In [v2_data.py] that draw is the
    one call [randint(1, min(5, available, remaining_capacity))], both
    bounds positive, and its value is the quantity; in [data.py] the draw
    is [randint(1, 5)] and the quantity is its minimum with [available],
    no event capacity being consulted.  In both, the fifth draw is the
    [random()] call made after the time stamp is taken, and
    [payment_status] is 'paid' exactly when it is below 0.4, 'unpaid'
    otherwise. *)
Theorem emitted_quantity_and_payment_status :
  (forall inp st w st' w',
      V2.body inp st w = Ok (st', w') ->
      V2.registrations st' <> V2.registrations st ->
      exists r capacity u,
        let available := get0 (V2.tickets_remaining st) (r_ticket_id r) in
        let remaining_capacity :=
          capacity - get0 (V2.event_reg_totals st) (r_event_id r) in
        let w3 := after_draw (after_draw (after_draw w)) in
        V2.registrations st' = V2.registrations st ++ [r] /\
        V2.event_capacities inp !! r_event_id r = Some capacity /\
        0 < available /\ 0 < remaining_capacity /\
        randint 1 (Z.min 5 (Z.min available remaining_capacity)) w3
          = Ok (r_quantity r, after_draw w3) /\
        1 <= r_quantity r <= Z.min 5 (Z.min available remaining_capacity) /\
        random (after_fake (after_draw w3)) = Ok (u, w') /\
        r_payment_status r = (if lt_0_4 u then "paid" else "unpaid")%string)
  /\
  (forall inp st w st' w',
      V1.body inp st w = Ok (st', w') ->
      V1.registrations st' <> V1.registrations st ->
      exists r drawn u,
        let available := get0 (V1.tickets_remaining st) (r_ticket_id r) in
        let w3 := after_draw (after_draw (after_draw w)) in
        V1.registrations st' = V1.registrations st ++ [r] /\
        0 < available /\
        randint 1 5 w3 = Ok (drawn, after_draw w3) /\
        r_quantity r = Z.min drawn available /\
        1 <= r_quantity r <= Z.min 5 available /\
        random (after_fake (after_draw w3)) = Ok (u, w') /\
        r_payment_status r = (if lt_0_4 u then "paid" else "unpaid")%string).
Proof.
  split.
  - intros inp st w st' w' H Hne. unfold V2.body in H.
    bind_inv H as user_id w1 Eu. bind_inv H as event_id w2 Ee.
    apply choice_world in Eu, Ee. subst w1 w2.
    destruct (default [] (V2.ticket_map inp !! event_id)) as [|t0 ts] eqn:Etm.
    { apply ret_Ok in H as [-> _]. by destruct Hne. }
    bind_inv H as ticket_id w3 Et. apply choice_world in Et. subst w3.
    simpl in H.
    destruct (Z.leb_spec (get0 (V2.tickets_remaining st) ticket_id) 0) as [Hav|Hav].
    { apply ret_Ok in H as [-> _]. by destruct Hne. }
    bind_inv H as capacity w4 Ec. apply getitem_Ok in Ec as [Ec ->].
    destruct (Z.leb_spec (capacity - get0 (V2.event_reg_totals st) event_id) 0)
      as [Hcap|Hcap].
    { apply ret_Ok in H as [-> _]. by destruct Hne. }
    bind_inv H as quantity w5 Eq.
    pose proof (randint_range _ _ _ _ _ Eq) as Hq.
    pose proof (randint_world _ _ _ _ _ Eq) as ->.
    bind_inv H as price w6 Ep. apply getitem_Ok in Ep as [Ep ->].
    bind_inv H as registered_at w7 Ef. apply faker_world in Ef as ->.
    bind_inv H as u w8 Er. apply ret_Ok in H as [-> ->].
    exists (mkRegistration user_id event_id ticket_id quantity (quantity * price)
                           "confirmed" registered_at
                           (if lt_0_4 u then "paid" else "unpaid")%string),
           capacity, u.
    cbn [r_ticket_id r_event_id r_quantity r_payment_status V2.registrations
         V2.tickets_remaining V2.event_reg_totals].
    repeat split; auto; lia.
  - intros inp st w st' w' H Hne. unfold V1.body in H.
    bind_inv H as user_id w1 Eu. bind_inv H as event_id w2 Ee.
    apply choice_world in Eu, Ee. subst w1 w2.
    destruct (default [] (V1.ticket_map inp !! event_id)) as [|t0 ts] eqn:Etm.
    { apply ret_Ok in H as [-> _]. by destruct Hne. }
    bind_inv H as ticket_id w3 Et. apply choice_world in Et. subst w3.
    simpl in H.
    destruct (Z.leb_spec (get0 (V1.tickets_remaining st) ticket_id) 0) as [Hav|Hav].
    { apply ret_Ok in H as [-> _]. by destruct Hne. }
    bind_inv H as drawn w5 Eq.
    pose proof (randint_range _ _ _ _ _ Eq) as Hq.
    pose proof (randint_world _ _ _ _ _ Eq) as ->.
    assert (Hmin : (if get0 (V1.tickets_remaining st) ticket_id <? drawn
                    then get0 (V1.tickets_remaining st) ticket_id else drawn)
                   = Z.min drawn (get0 (V1.tickets_remaining st) ticket_id)).
    { destruct (Z.ltb_spec (get0 (V1.tickets_remaining st) ticket_id) drawn); lia. }
    rewrite Hmin in H.
    bind_inv H as price w6 Ep. apply getitem_Ok in Ep as [Ep ->].
    bind_inv H as registered_at w7 Ef. apply faker_world in Ef as ->.
    bind_inv H as u w8 Er. apply ret_Ok in H as [-> ->].
    exists (mkRegistration user_id event_id ticket_id
                           (Z.min drawn (get0 (V1.tickets_remaining st) ticket_id))
                           (Z.min drawn (get0 (V1.tickets_remaining st) ticket_id)
                            * price)
                           "confirmed" registered_at
                           (if lt_0_4 u then "paid" else "unpaid")%string),
           drawn, u.
    cbn [r_ticket_id r_event_id r_quantity r_payment_status V1.registrations
         V1.tickets_remaining].
    repeat split; auto; lia.
Qed.

Lemma emitted_quantity_and_payment_status_witness :
  exists r,
    V2.registrations
      (fst (match V2.body demo_inputs (V2.init demo_remaining ∅) (demo_world 0) with
            | Ok p => p
            | Raise _ => (V2.init demo_remaining ∅, demo_world 0)
            end)) = [r] /\
    1 <= r_quantity r <= 5.
Proof.
  destruct (V2.body demo_inputs (V2.init demo_remaining ∅) (demo_world 0))
    as [[st' w']|err] eqn:E; [|vm_compute in E; discriminate E].
  destruct (proj1 emitted_quantity_and_payment_status
              demo_inputs (V2.init demo_remaining ∅) (demo_world 0) st' w' E)
    as (r & capacity & u & Er & _ & _ & _ & _ & Hq & _).
  - vm_compute in E. injection E as <- _. discriminate.
  - exists r. split; [exact Er|]. simpl in Hq. lia.
Defined.

(** C2 as stated fails on [data.py]: with two seats left, the five
    outcomes 1..5 of [randint(1, 5)] give the quantities 1, 2, 2, 2, 2,
    which is not a uniform draw from [1, 2]. *)
Lemma v1_quantity_not_uniform :
  map (fun k => emitted_quantities (V1.body two_left_inputs two_left (fourth_draw k)))
      [0; 1; 2; 3; 4]%N
  = [[1]; [2]; [2]; [2]; [2]].
Proof. vm_compute. reflexivity. Qed.

(** ** Reconciliation *)

Lemma enumerate_lookup {A} (l : list A) s i :
  enumerate s l !! i = (fun x => (s + Z.of_nat i, x)) <$> l !! i.
Proof.
  revert s i. induction l as [|x l IH]; intros s i; [by destruct i|].
  destruct i as [|i]; simpl.
  - f_equal. f_equal. lia.
  - rewrite IH. destruct (l !! i); simpl; [|reflexivity].
    f_equal. f_equal. lia.
Qed.

Lemma enumerate_dict_lookup {A} (f : A -> Z) (l : list A) s (d0 : gmap Z Z) k :
  foldl (fun d it => <[fst it := f (snd it)]> d) d0 (enumerate s l) !! k
  = match (if decide (s <= k) then l !! Z.to_nat (k - s) else None) with
    | Some x => Some (f x)
    | None => d0 !! k
    end.
Proof.
  revert s d0. induction l as [|x l IH]; intros s d0; simpl.
  - by destruct (decide (s <= k)).
  - rewrite IH. destruct (decide (s + 1 <= k)) as [Hle|Hgt].
    + destruct (decide (s <= k)); [|lia].
      replace (Z.to_nat (k - s)) with (Datatypes.S (Z.to_nat (k - (s + 1)))) by lia.
      simpl. destruct (l !! Z.to_nat (k - (s + 1))); [reflexivity|].
      apply lookup_insert_ne. lia.
    + destruct (decide (s <= k)) as [Hle|Hlt].
      * assert (k = s) as -> by lia. rewrite Z.sub_diag. simpl.
        apply lookup_insert_eq.
      * apply lookup_insert_ne. lia.
Qed.

Lemma remaining_of_lookup tickets i t :
  tickets !! i = Some t ->
  get0 (remaining_of tickets) (Z.of_nat i + 1) = t_quantity_available t.
Proof.
  intros Ht. unfold get0, remaining_of. rewrite enumerate_dict_lookup.
  destruct (decide (1 <= Z.of_nat i + 1)); [|lia].
  replace (Z.to_nat (Z.of_nat i + 1 - 1)) with i by lia. by rewrite Ht.
Qed.

Lemma update_quantity_sold_lookup tickets tr i t :
  tickets !! i = Some t ->
  exists t',
    update_quantity_sold tickets tr !! i = Some t' /\
    t_quantity_sold t'
      = Z.min (t_quantity_available t - get0 tr (Z.of_nat i + 1))
              (t_quantity_available t) /\
    t_quantity_available t' = t_quantity_available t /\
    t_event_id t' = t_event_id t /\ t_type t' = t_type t /\
    t_price t' = t_price t.
Proof.
  intros Ht. unfold update_quantity_sold.
  rewrite list_lookup_fmap, enumerate_lookup, Ht. simpl.
  eexists. split; [reflexivity|]. simpl.
  replace (1 + Z.of_nat i) with (Z.of_nat i + 1) by lia. auto.
Qed.

Lemma sum_quantity_filter_nonneg (f : Registration -> bool) regs :
  Forall (fun r => 0 <= r_quantity r) regs ->
  0 <= sum_quantity (List.filter f regs).
Proof.
  induction 1 as [|r regs Hr _ IH]; simpl; [reflexivity|].
  destruct (f r); simpl; lia.
Qed.

Lemma v2_remaining_bounds inp tr0 ert0 w st w' t :
  V2.generate_registrations inp tr0 ert0 w = Some (Ok (st, w')) ->
  0 <= get0 tr0 t ->
  0 <= get0 (V2.tickets_remaining st) t <= get0 tr0 t.
Proof.
  intros Hret H0. apply v2_returns_reaches, v2_inv_reaches in Hret.
  destruct Hret as (Ht & _ & Hpos & _ & _ & Hwf).
  specialize (Ht t). specialize (Hpos t H0).
  assert (0 <= sum_quantity (by_ticket t (V2.registrations st))).
  { apply sum_quantity_filter_nonneg. eapply Forall_impl; [exact Hwf|].
    intros r (Hq & _). simpl. lia. }
  lia.
Qed.

Lemma v1_remaining_bounds inp tr0 w st w' t :
  V1.generate_registrations inp tr0 w = Some (Ok (st, w')) ->
  0 <= get0 tr0 t ->
  0 <= get0 (V1.tickets_remaining st) t <= get0 tr0 t.
Proof.
  intros Hret H0. apply v1_returns_reaches, v1_inv_reaches in Hret.
  destruct Hret as (Ht & Hpos & _ & Hwf).
  specialize (Ht t). specialize (Hpos t H0).
  assert (0 <= sum_quantity (by_ticket t (V1.registrations st))).
  { apply sum_quantity_filter_nonneg. eapply Forall_impl; [exact Hwf|].
    intros r (Hq & _). simpl. lia. }
  lia.
Qed.

(** C5.  After the allocator has run on the ledger built from the
    tickets, the reconciliation loop gives every ticket the
    [quantity_sold] [min(quantity_available - remaining, quantity_available)],
    which is at most [quantity_available]; for a ticket whose
    [quantity_available] is not negative the clamp is inert, so that
    [quantity_sold = quantity_available - remaining] and
    [0 <= quantity_sold <= quantity_available].  Both scripts. *)
Theorem quantity_sold_reconciled :
  (forall inp tickets ert0 w st w' i t,
      tickets !! i = Some t ->
      V2.generate_registrations inp (remaining_of tickets) ert0 w
        = Some (Ok (st, w')) ->
      let remaining := get0 (V2.tickets_remaining st) (Z.of_nat i + 1) in
      exists t',
        update_quantity_sold tickets (V2.tickets_remaining st) !! i = Some t' /\
        t_quantity_available t' = t_quantity_available t /\
        t_quantity_sold t'
          = Z.min (t_quantity_available t - remaining) (t_quantity_available t) /\
        t_quantity_sold t' <= t_quantity_available t' /\
        (0 <= t_quantity_available t ->
         t_quantity_sold t' = t_quantity_available t - remaining /\
         0 <= t_quantity_sold t'))
  /\
  (forall inp tickets w st w' i t,
      tickets !! i = Some t ->
      V1.generate_registrations inp (remaining_of tickets) w
        = Some (Ok (st, w')) ->
      let remaining := get0 (V1.tickets_remaining st) (Z.of_nat i + 1) in
      exists t',
        update_quantity_sold tickets (V1.tickets_remaining st) !! i = Some t' /\
        t_quantity_available t' = t_quantity_available t /\
        t_quantity_sold t'
          = Z.min (t_quantity_available t - remaining) (t_quantity_available t) /\
        t_quantity_sold t' <= t_quantity_available t' /\
        (0 <= t_quantity_available t ->
         t_quantity_sold t' = t_quantity_available t - remaining /\
         0 <= t_quantity_sold t')).
Proof.
  split.
  - intros inp tickets ert0 w st w' i t Ht Hret remaining.
    destruct (update_quantity_sold_lookup tickets (V2.tickets_remaining st) i t Ht)
      as (t' & Hl & Hs & Ha & _).
    pose proof (v2_remaining_bounds _ _ _ _ _ _ (Z.of_nat i + 1) Hret) as Hb.
    rewrite (remaining_of_lookup _ _ _ Ht) in Hb. fold remaining in Hb, Hs.
    exists t'. repeat split; auto; lia.
  - intros inp tickets w st w' i t Ht Hret remaining.
    destruct (update_quantity_sold_lookup tickets (V1.tickets_remaining st) i t Ht)
      as (t' & Hl & Hs & Ha & _).
    pose proof (v1_remaining_bounds _ _ _ _ _ (Z.of_nat i + 1) Hret) as Hb.
    rewrite (remaining_of_lookup _ _ _ Ht) in Hb. fold remaining in Hb, Hs.
    exists t'. repeat split; auto; lia.
Qed.

Lemma quantity_sold_reconciled_witness :
  exists st2 w2 st1 w1,
    V2.generate_registrations demo_main_inputs (remaining_of demo_tickets) ∅
                              (demo_world 0) = Some (Ok (st2, w2)) /\
    V1.generate_registrations demo_main_inputs_v1 (remaining_of demo_tickets)
                              (demo_world 0) = Some (Ok (st1, w1)) /\
    (exists t', update_quantity_sold demo_tickets (V2.tickets_remaining st2) !! 0%nat
                  = Some t' /\
                0 <= t_quantity_sold t' <= t_quantity_available t') /\
    (exists t', update_quantity_sold demo_tickets (V1.tickets_remaining st1) !! 0%nat
                  = Some t' /\
                0 <= t_quantity_sold t' <= t_quantity_available t').
Proof.
  destruct (returned_Ok _ demo_main_v2_returns) as ([st2 w2] & E2).
  destruct (returned_Ok _ demo_main_v1_returns) as ([st1 w1] & E1).
  exists st2, w2, st1, w1. split; [exact E2|]. split; [exact E1|].
  destruct quantity_sold_reconciled as [H2 H1]. split.
  - destruct (H2 demo_main_inputs demo_tickets ∅ (demo_world 0) st2 w2 0%nat
                (demo_ticket 1 "General Admission" 2500 300) eq_refl E2)
      as (t' & Hl & _ & _ & Hle & Hpos).
    exists t'. split; [exact Hl|]. split; [|exact Hle].
    apply Hpos. simpl. lia.
  - destruct (H1 demo_main_inputs_v1 demo_tickets (demo_world 0) st1 w1 0%nat
                (demo_ticket 1 "General Admission" 2500 300) eq_refl E1)
      as (t' & Hl & _ & _ & Hle & Hpos).
    exists t'. split; [exact Hl|]. split; [|exact Hle].
    apply Hpos. simpl. lia.
Defined.

(** ** Payments *)

Lemma mapM_Ok {A B} (f : A -> M B) l w ys w' :
  mapM f l w = Ok (ys, w') ->
  Forall2 (fun x y => exists w1 w2, f x w1 = Ok (y, w2)) l ys.
Proof.
  revert w ys w'. induction l as [|x l IH]; intros w ys w' H; simpl in H.
  - apply ret_Ok in H as [-> _]. constructor.
  - bind_inv H as y w1 Ey. bind_inv H as ys' w2 Eys.
    apply ret_Ok in H as [-> _].
    constructor; [exists w, w1; exact Ey | eapply IH; exact Eys].
Qed.

Lemma mapM_returns {A B} (f : A -> M B) l w :
  (forall x w1, x ∈ l -> exists y w2, f x w1 = Ok (y, w2)) ->
  exists ys w', mapM f l w = Ok (ys, w').
Proof.
  revert w. induction l as [|x l IH]; intros w Hf; simpl.
  - unfold ret. eauto.
  - destruct (Hf x w) as (y & w1 & Ey); [left|].
    destruct (IH w1) as (ys & w2 & Eys).
    { intros x' w' Hin. apply Hf. by right. }
    unfold bind. rewrite Ey, Eys. unfold ret. eauto.
Qed.

Lemma enumerate_fst_sorted {A} (l : list A) s :
  StronglySorted Z.lt (map fst (enumerate s l)) /\
  Forall (fun i => s <= i) (map fst (enumerate s l)).
Proof.
  revert s. induction l as [|x l IH]; intros s; simpl.
  - split; constructor.
  - destruct (IH (s + 1)) as [Hs Hge]. split.
    + constructor; [exact Hs|]. eapply Forall_impl; [exact Hge|].
      simpl. intros; lia.
    + constructor; [lia|]. eapply Forall_impl; [exact Hge|]. simpl. intros; lia.
Qed.

Lemma StronglySorted_map_filter {A} (g : A -> Z) (f : A -> bool) l :
  StronglySorted Z.lt (map g l) -> StronglySorted Z.lt (map g (List.filter f l)).
Proof.
  induction l as [|x l IH]; simpl; [auto|].
  intros Hs. apply StronglySorted_inv in Hs as [Hs Hx].
  destruct (f x); simpl; [|auto]. constructor; [auto|].
  rewrite Forall_forall in Hx |- *. intros y Hy. apply Hx.
  apply list_elem_of_fmap in Hy as (z & -> & Hz).
  apply list_elem_of_fmap. exists z. split; [reflexivity|].
  apply list_elem_of_In in Hz. apply List.filter_In in Hz as [Hz _].
  by apply list_elem_of_In.
Qed.

Lemma StronglySorted_take {A} (R : A -> A -> Prop) n l :
  StronglySorted R l -> StronglySorted R (take n l).
Proof.
  revert n. induction l as [|x l IH]; intros n Hs; [by destruct n|].
  destruct n as [|n]; simpl; [constructor|].
  apply StronglySorted_inv in Hs as [Hs Hx]. constructor; [auto|].
  rewrite Forall_forall in Hx |- *. intros y Hy. apply Hx.
  eapply subseteq_take; eauto.
Qed.

Lemma paid_regs_length regs :
  length (paid_regs regs) = length (List.filter is_paid regs).
Proof.
  unfold paid_regs. generalize 0. induction regs as [|r regs IH]; intros s; simpl;
    [reflexivity|].
  destruct (is_paid r); simpl; rewrite IH; reflexivity.
Qed.

Lemma paid_regs_elem regs idx reg :
  (idx, reg) ∈ paid_regs regs ->
  0 <= idx /\ regs !! Z.to_nat idx = Some reg /\ r_payment_status reg = "paid"%string.
Proof.
  unfold paid_regs. intros Hin. apply list_elem_of_In in Hin.
  apply List.filter_In in Hin as [Hin Hp]. simpl in Hp.
  apply list_elem_of_In, list_elem_of_lookup in Hin as [i Hi].
  rewrite enumerate_lookup in Hi. destruct (regs !! i) as [r|] eqn:Er; [|discriminate].
  simpl in Hi. injection Hi as <- <-.
  split; [lia|]. split; [by rewrite Z.add_0_l, Nat2Z.id|].
  unfold is_paid in Hp. by apply String.eqb_eq in Hp.
Qed.

Lemma StronglySorted_shift (l : list Z) (c : Z) :
  StronglySorted Z.lt l -> StronglySorted Z.lt (map (fun i => i + c) l).
Proof.
  induction 1 as [|x l Hs IH Hx]; simpl; constructor; [exact IH|].
  rewrite Forall_forall in Hx |- *. intros y Hy.
  apply list_elem_of_fmap in Hy as (z & -> & Hz). specialize (Hx z Hz). lia.
Qed.

(** C6.  [generate_payments] returns for every registration list; it
    yields exactly min(1000, number of paid registrations) payments; each
    payment names, by its 1-based position, a registration of the input
    whose [payment_status] is 'paid' and copies its [total_amount] and
    [user_id]; the positions are strictly increasing. *)
Theorem payments_from_paid_registrations regs w :
  exists payments w',
    generate_payments regs w = Ok (payments, w') /\
    Z.of_nat (length payments)
      = Z.min 1000 (Z.of_nat (length (List.filter is_paid regs))) /\
    Forall (fun p =>
              1 <= p_registration_id p /\
              exists reg,
                regs !! Z.to_nat (p_registration_id p - 1) = Some reg /\
                r_payment_status reg = "paid"%string /\
                p_amount p = r_total_amount reg /\
                p_user_id p = r_user_id reg)
           payments /\
    StronglySorted Z.lt (map p_registration_id payments).
Proof.
  unfold generate_payments.
  match goal with |- context [mapM ?f ?l w] =>
    destruct (mapM_returns f l w) as (payments & w' & Hret)
  end.
  { intros [idx reg] w1 _. unfold bind, choice, payment_methods, draw, faker, ret.
    simpl. eauto. }
  exists payments, w'. split; [exact Hret|].
  apply mapM_Ok in Hret.
  assert (Hrel : Forall2 (fun ir p =>
                            p_registration_id p = fst ir + 1 /\
                            p_user_id p = r_user_id (snd ir) /\
                            p_amount p = r_total_amount (snd ir))
                         (take 1000 (paid_regs regs)) payments).
  { eapply Forall2_impl; [exact Hret|]. simpl.
    intros [idx reg] p (w1 & w2 & H). simpl in *.
    bind_inv H as method w3 E1. bind_inv H as uuid w4 E2.
    bind_inv H as paid_at w5 E3. apply ret_Ok in H as [-> _]. simpl. auto. }
  clear Hret. split; [|split].
  - rewrite <- (Forall2_length _ _ _ Hrel), length_take, paid_regs_length. lia.
  - assert (Hsrc : Forall (fun ir => (fst ir, snd ir) ∈ paid_regs regs)
                          (take 1000 (paid_regs regs))).
    { rewrite Forall_forall. intros [idx reg] Hin. simpl.
      eapply subseteq_take; eauto. }
    induction Hrel as [|[idx reg] p l ps (Hid & Hu & Ha) Hrel IH];
      [constructor|].
    apply Forall_cons in Hsrc as [Hin Hsrc]. simpl in *.
    constructor; [|auto].
    apply paid_regs_elem in Hin as (Hidx & Hl & Hp).
    split; [lia|]. exists reg. rewrite Hid.
    replace (idx + 1 - 1) with idx by lia. auto.
  - assert (Hids : map p_registration_id payments
                   = map (fun i => i + 1) (map fst (take 1000 (paid_regs regs)))).
    { clear -Hrel. induction Hrel as [|ir p l ps (Hid & _) _ IH]; simpl;
        [reflexivity|]. by rewrite Hid, IH. }
    rewrite Hids. apply StronglySorted_shift.
    change (map fst (take 1000 (paid_regs regs)))
      with (fst <$> take 1000 (paid_regs regs)).
    rewrite fmap_take. apply StronglySorted_take.
    unfold paid_regs. apply StronglySorted_map_filter, enumerate_fst_sorted.
Qed.

(** ** Loops that extend a list per element *)

Lemma concatM_Ok {A B} (f : A -> M (list B)) l w ys w' :
  concatM f l w = Ok (ys, w') ->
  exists yss, ys = concat yss /\
              Forall2 (fun x b => exists w1 w2, f x w1 = Ok (b, w2)) l yss.
Proof.
  revert w ys w'. induction l as [|x l IH]; intros w ys w' H; simpl in H.
  - apply ret_Ok in H as [-> _]. exists []. split; [reflexivity|constructor].
  - bind_inv H as b w1 Eb. bind_inv H as rest w2 Er.
    apply ret_Ok in H as [-> _]. apply IH in Er as (yss & -> & Hall).
    exists (b :: yss). split; [reflexivity|]. constructor; eauto.
Qed.

Lemma concatM_returns {A B} (f : A -> M (list B)) l w :
  (forall x w1, x ∈ l -> exists b w2, f x w1 = Ok (b, w2)) ->
  exists ys w', concatM f l w = Ok (ys, w').
Proof.
  revert w. induction l as [|x l IH]; intros w Hf; simpl.
  - unfold ret. eauto.
  - destruct (Hf x w) as (b & w1 & Eb); [left|].
    destruct (IH w1) as (ys & w2 & Eys).
    { intros x' w' Hin. apply Hf. by right. }
    unfold bind. rewrite Eb, Eys. unfold ret. eauto.
Qed.

(** Batches keyed by the element they were produced for: selecting the
    records of one key from the concatenation gives that key's batch. *)
Section Keyed.
Context {B : Type} (key : B -> Z).

Lemma filter_key_all e (b : list B) :
  Forall (fun y => key y = e) b -> List.filter (fun y => key y =? e) b = b.
Proof.
  induction 1 as [|y b Hy _ IH]; simpl; [reflexivity|].
  rewrite Hy, Z.eqb_refl, IH. reflexivity.
Qed.

Lemma filter_key_none e x (b : list B) :
  x <> e -> Forall (fun y => key y = x) b ->
  List.filter (fun y => key y =? e) b = [].
Proof.
  intros Hne. induction 1 as [|y b Hy _ IH]; simpl; [reflexivity|].
  rewrite Hy. apply Z.eqb_neq in Hne. by rewrite Hne.
Qed.

Lemma concat_filter_absent e l (yss : list (list B)) :
  Forall2 (fun x b => Forall (fun y => key y = x) b) l yss ->
  e ∉ l -> List.filter (fun y => key y =? e) (concat yss) = [].
Proof.
  induction 1 as [|x b l yss Hb _ IH]; intros Hnin; simpl; [reflexivity|].
  rewrite List.filter_app, IH by (intros ?; apply Hnin; by right).
  rewrite (filter_key_none e x); [reflexivity| |exact Hb].
  intros ->. apply Hnin. left.
Qed.

Lemma concat_filter_present e l (yss : list (list B)) i :
  Forall2 (fun x b => Forall (fun y => key y = x) b) l yss ->
  NoDup l -> l !! i = Some e ->
  exists b, yss !! i = Some b /\
            List.filter (fun y => key y =? e) (concat yss) = b.
Proof.
  intros Hall. revert i.
  induction Hall as [|x b l yss Hb Hall IH]; intros i Hnd Hi; [by destruct i|].
  apply NoDup_cons in Hnd as [Hx Hnd]. simpl. rewrite List.filter_app.
  destruct i as [|i]; simpl in Hi.
  - injection Hi as ->. exists b. split; [reflexivity|].
    rewrite (concat_filter_absent e l yss Hall Hx), app_nil_r.
    by apply filter_key_all.
  - destruct (IH i Hnd Hi) as (b' & Hl & Hf). exists b'. split; [exact Hl|].
    rewrite Hf, (filter_key_none e x); [reflexivity| |exact Hb].
    intros ->. apply Hx. apply list_elem_of_lookup. eauto.
Qed.
End Keyed.

(** ** Ticket generation in v2_data.py *)

Lemma tickets_for_event_Ok caps e w b w' :
  V2Derived.tickets_for_event caps e w = Ok (b, w') ->
  exists capacity ga vip,
    caps !! e = Some capacity /\ b = [ga; vip] /\
    t_event_id ga = e /\ t_type ga = "General Admission"%string /\
    t_event_id vip = e /\ t_type vip = "VIP"%string /\
    t_quantity_sold ga = 0 /\ t_quantity_sold vip = 0 /\
    Z.min 300 (capacity / 2) <= t_quantity_available ga
      <= Z.min 1000 (capacity / 2) /\
    Z.min 300 (capacity - t_quantity_available ga) <= t_quantity_available vip
      <= Z.min 600 (capacity - t_quantity_available ga).
Proof.
  unfold V2Derived.tickets_for_event. intros H.
  bind_inv H as capacity w1 Ec. apply getitem_Ok in Ec as [Ec ->].
  bind_inv H as ga_quantity w2 Ega. bind_inv H as vip_quantity w3 Evip.
  apply randint_range in Ega, Evip.
  bind_inv H as p1 w4 E1. bind_inv H as s1 w5 E2. bind_inv H as s2 w6 E3.
  bind_inv H as s3 w7 E4. bind_inv H as p2 w8 E5. bind_inv H as s4 w9 E6.
  bind_inv H as s5 w10 E7. bind_inv H as s6 w11 E8.
  apply ret_Ok in H as [-> _].
  eexists capacity, _, _. split; [exact Ec|]. split; [reflexivity|].
  simpl. repeat split; auto; lia.
Qed.

Lemma tickets_for_event_returns caps e w :
  is_Some (caps !! e) ->
  exists b w', V2Derived.tickets_for_event caps e w = Ok (b, w').
Proof.
  intros [capacity Hc]. unfold V2Derived.tickets_for_event.
  unfold bind at 1. unfold getitem. rewrite Hc. unfold ret at 1.
  destruct (randint_returns (Z.min 300 (capacity / 2)) (Z.min 1000 (capacity / 2)) w)
    as (ga & w1 & Ega); [lia|].
  unfold bind at 1. rewrite Ega.
  destruct (randint_returns (Z.min 300 (capacity - ga)) (Z.min 600 (capacity - ga)) w1)
    as (vip & w2 & Evip); [lia|].
  unfold bind at 1. rewrite Evip.
  unfold bind, uniform_cents, draw, faker, ret. simpl. eauto.
Qed.

Lemma ticket_batches_lookup (l : list Z) (yss : list (list Ticket)) i e :
  Forall2 (fun x b => exists ga vip : Ticket, b = [ga; vip]) l yss ->
  l !! i = Some e ->
  exists ga vip,
    yss !! i = Some [ga; vip] /\
    concat yss !! (2 * i)%nat = Some ga /\
    concat yss !! (2 * i + 1)%nat = Some vip.
Proof.
  intros Hall. revert i.
  induction Hall as [|x b l yss (ga & vip & ->) _ IH]; intros i Hi;
    [by destruct i|].
  destruct i as [|i]; simpl in Hi.
  - exists ga, vip. auto.
  - destruct (IH i Hi) as (ga' & vip' & H1 & H2 & H3).
    exists ga', vip'. split; [exact H1|].
    replace (2 * Datatypes.S i)%nat with (Datatypes.S (Datatypes.S (2 * i))) by lia.
    simpl. split; [exact H2|].
    replace (i + (i + 0) + 1)%nat with (2 * i + 1)%nat by lia. exact H3.
Qed.

Lemma ticket_batches_length (l : list Z) (yss : list (list Ticket)) :
  Forall2 (fun x b => exists ga vip : Ticket, b = [ga; vip]) l yss ->
  length (concat yss) = (2 * length l)%nat.
Proof.
  induction 1 as [|x b l yss (ga & vip & ->) _ IH]; simpl; [reflexivity|].
  rewrite IH. lia.
Qed.

(** C10.  [generate_tickets] of [v2_data.py] returns whenever every event
    has a capacity entry; it emits, in order, a General Admission and a VIP
    ticket per event, and for an event of capacity [>= 0] the General
    Admission quantity is at most [capacity // 2] and the two quantities
    add up to at most the capacity, so the tickets of an event never offer
    more than its capacity. *)
Theorem generated_tickets_within_capacity event_ids (caps : gmap Z Z) w :
  (forall e, e ∈ event_ids -> is_Some (caps !! e)) ->
  exists tickets w',
    V2Derived.generate_tickets event_ids caps w = Ok (tickets, w') /\
    length tickets = (2 * length event_ids)%nat /\
    (forall i e capacity,
        event_ids !! i = Some e -> caps !! e = Some capacity -> 0 <= capacity ->
        exists ga vip,
          tickets !! (2 * i)%nat = Some ga /\
          tickets !! (2 * i + 1)%nat = Some vip /\
          t_event_id ga = e /\ t_type ga = "General Admission"%string /\
          t_event_id vip = e /\ t_type vip = "VIP"%string /\
          0 <= t_quantity_available ga <= capacity / 2 /\
          0 <= t_quantity_available vip /\
          t_quantity_available ga + t_quantity_available vip <= capacity) /\
    (NoDup event_ids ->
     forall e capacity,
       caps !! e = Some capacity -> 0 <= capacity ->
       sum_available (tickets_of_event e tickets) <= capacity).
Proof.
  intros Hcaps. unfold V2Derived.generate_tickets.
  destruct (concatM_returns (V2Derived.tickets_for_event caps) event_ids w)
    as (tickets & w' & Hret).
  { intros e w1 He. apply tickets_for_event_returns. by apply Hcaps. }
  exists tickets, w'. split; [exact Hret|].
  apply concatM_Ok in Hret as (yss & -> & Hall).
  assert (HQ : Forall2 (fun x b =>
                 exists capacity ga vip,
                   caps !! x = Some capacity /\ b = [ga; vip] /\
                   t_event_id ga = x /\ t_type ga = "General Admission"%string /\
                   t_event_id vip = x /\ t_type vip = "VIP"%string /\
                   (0 <= capacity ->
                    0 <= t_quantity_available ga <= capacity / 2 /\
                    0 <= t_quantity_available vip /\
                    t_quantity_available ga + t_quantity_available vip <= capacity))
                 event_ids yss).
  { eapply Forall2_impl; [exact Hall|]. simpl.
    intros x b (w1 & w2 & H). apply tickets_for_event_Ok in H.
    destruct H as (capacity & ga & vip & Hc & -> & H1 & H2 & H3 & H4 & _ & _
                   & Hga & Hvip).
    exists capacity, ga, vip. repeat split; auto.
    all: pose proof (Z.div_pos capacity 2 ltac:(lia) ltac:(lia));
      pose proof (Z.mul_div_le capacity 2 ltac:(lia)); lia. }
  clear Hall.
  assert (Hshape : Forall2 (fun (x : Z) b => exists ga vip : Ticket, b = [ga; vip])
                           event_ids yss).
  { eapply Forall2_impl; [exact HQ|]. simpl.
    intros x b (c & ga & vip & _ & -> & _). eauto. }
  assert (Hkey : Forall2 (fun x b => Forall (fun t => t_event_id t = x) b)
                         event_ids yss).
  { eapply Forall2_impl; [exact HQ|]. simpl.
    intros x b (c & ga & vip & _ & -> & H1 & _ & H2 & _).
    repeat constructor; auto. }
  split; [by apply ticket_batches_length|]. split.
  - intros i e capacity Hi Hc Hpos.
    destruct (ticket_batches_lookup _ _ _ _ Hshape Hi) as (ga & vip & Hb & Hga & Hvip).
    pose proof (Forall2_lookup_lr _ _ _ _ _ _ HQ Hi Hb) as HQi. simpl in HQi.
    destruct HQi as (c & ga' & vip' & Hc' & Heq & H1 & H2 & H3 & H4 & Hq).
    injection Heq as <- <-. rewrite Hc in Hc'. injection Hc' as <-.
    exists ga, vip. specialize (Hq Hpos). tauto.
  - intros Hnd e capacity Hc Hpos. unfold tickets_of_event.
    destruct (decide (e ∈ event_ids)) as [Hin|Hnin].
    + apply list_elem_of_lookup in Hin as [i Hi].
      destruct (concat_filter_present t_event_id e _ _ i Hkey Hnd Hi) as (b & Hb & ->).
      pose proof (Forall2_lookup_lr _ _ _ _ _ _ HQ Hi Hb) as HQi. simpl in HQi.
      destruct HQi as (c & ga & vip & Hc' & -> & _ & _ & _ & _ & Hq).
      rewrite Hc in Hc'. injection Hc' as <-. specialize (Hq Hpos).
      simpl. lia.
    + rewrite (concat_filter_absent t_event_id e _ _ Hkey Hnin). simpl. lia.
Qed.

Lemma generated_tickets_within_capacity_witness :
  exists tickets w',
    V2Derived.generate_tickets [1; 2] {[ 1 := 100; 2 := 5000 ]} (demo_world 0)
      = Ok (tickets, w') /\
    sum_available (tickets_of_event 1 tickets) <= 100 /\
    sum_available (tickets_of_event 2 tickets) <= 5000.
Proof.
  destruct (generated_tickets_within_capacity
              [1; 2] {[ 1 := 100; 2 := 5000 ]} (demo_world 0))
    as (tickets & w' & Hret & _ & _ & Hsum).
  - intros e He. apply elem_of_dom. revert e He. apply Forall_forall.
    repeat constructor; vm_compute; reflexivity.
  - exists tickets, w'. split; [exact Hret|].
    assert (Hnd : NoDup [1; 2]) by decide_closed.
    split; apply (Hsum Hnd); first [reflexivity | lia].
Defined.

(** ** Sampling without replacement *)

Lemma insert_swap_perm {A} (t : list A) j x y :
  t !! j = Some x -> x :: <[j := y]> t ≡ₚ y :: t.
Proof.
  revert j. induction t as [|z t IH]; intros j Hj; [by destruct j|].
  destruct j as [|j]; simpl in *.
  - injection Hj as ->. apply perm_swap.
  - rewrite perm_swap, (IH j Hj). apply perm_swap.
Qed.

Lemma sample_step_perm {A} (pool : list A) n j x last :
  (j < n)%nat -> pool !! j = Some x -> pool !! (n - 1)%nat = Some last ->
  x :: take (n - 1) (<[j := last]> pool) ≡ₚ take n pool.
Proof.
  intros Hj Hx Hlast.
  replace (take n pool) with (take (n - 1) pool ++ [last])
    by (rewrite <- take_S_r by exact Hlast; f_equal; lia).
  destruct (decide (j = n - 1)%nat) as [->|Hne].
  - rewrite take_insert_ge by lia. rewrite Hx in Hlast. injection Hlast as ->.
    apply Permutation_cons_append.
  - rewrite take_insert_lt by lia.
    rewrite insert_swap_perm by (rewrite lookup_take_lt by lia; exact Hx).
    apply Permutation_cons_append.
Qed.

Lemma draw_index_lt r n :
  (0 < n)%nat -> (N.to_nat (r mod N.of_nat n) < n)%nat.
Proof.
  intros Hn. assert (Hne : N.of_nat n <> 0%N) by lia.
  pose proof (N.mod_upper_bound r (N.of_nat n) Hne). lia.
Qed.

Lemma sample_pool_Ok {A} k (pool : list A) n w ys w' :
  (k <= n)%nat -> (n <= length pool)%nat ->
  sample_pool k pool n w = Ok (ys, w') ->
  length ys = k /\ exists rest, ys ++ rest ≡ₚ take n pool.
Proof.
  revert pool n w ys w'. induction k as [|k IH]; intros pool n w ys w' Hk Hn H;
    simpl in H.
  - apply ret_Ok in H as [-> _]. split; [reflexivity|]. by exists (take n pool).
  - bind_inv H as r w1 Er.
    pose proof (draw_index_lt r n ltac:(lia)) as Hj.
    destruct (pool !! N.to_nat (r mod N.of_nat n)) as [x|] eqn:Ex; [|discriminate].
    destruct (pool !! (n - 1)%nat) as [last|] eqn:El; [|discriminate].
    bind_inv H as rest w2 Erest. apply ret_Ok in H as [-> _].
    apply IH in Erest as [Hlen (rest' & Hperm)];
      [|lia|rewrite length_insert; lia].
    split; [simpl; lia|]. exists rest'. simpl. rewrite Hperm.
    by apply sample_step_perm.
Qed.

Lemma sample_pool_returns {A} k (pool : list A) n w :
  (k <= n)%nat -> (n <= length pool)%nat ->
  exists ys w', sample_pool k pool n w = Ok (ys, w').
Proof.
  revert pool n w. induction k as [|k IH]; intros pool n w Hk Hn; simpl.
  - unfold ret. eauto.
  - unfold bind at 1. unfold draw at 1.
    pose proof (draw_index_lt (rnd w (rnd_pos w)) n ltac:(lia)) as Hj.
    destruct (lookup_lt_is_Some_2 pool (N.to_nat (rnd w (rnd_pos w) mod N.of_nat n)))
      as [x Hx]; [lia|].
    destruct (lookup_lt_is_Some_2 pool (n - 1)%nat) as [last Hl]; [lia|].
    rewrite Hx, Hl. unfold bind.
    match goal with |- context [sample_pool k ?p ?m ?w1] =>
      destruct (IH p m w1) as (ys & w' & E); [lia|rewrite length_insert; lia|]
    end.
    rewrite E. unfold ret. eauto.
Qed.

Lemma sample_Ok {A} (population : list A) k w ys w' :
  sample population k w = Ok (ys, w') ->
  Z.of_nat (length ys) = k /\ exists rest, ys ++ rest ≡ₚ population.
Proof.
  unfold sample.
  destruct (Z.ltb_spec k 0); [discriminate|].
  destruct (Z.ltb_spec (Z.of_nat (length population)) k); [discriminate|].
  simpl. intros Hs. apply sample_pool_Ok in Hs as [Hlen Hperm]; [|lia|lia].
  rewrite firstn_all in Hperm. split; [lia|exact Hperm].
Qed.

Lemma sample_returns {A} (population : list A) k w :
  0 <= k <= Z.of_nat (length population) ->
  exists ys w', sample population k w = Ok (ys, w').
Proof.
  intros Hk. unfold sample.
  destruct (Z.ltb_spec k 0); [lia|].
  destruct (Z.ltb_spec (Z.of_nat (length population)) k); [lia|].
  simpl. apply sample_pool_returns; lia.
Qed.

Lemma sample_NoDup {A} (population ys rest : list A) :
  NoDup population -> ys ++ rest ≡ₚ population ->
  NoDup ys /\ (forall y, y ∈ ys -> y ∈ population).
Proof.
  intros Hnd Hperm. rewrite <- Hperm in Hnd.
  apply NoDup_app in Hnd as (Hys & _ & _). split; [exact Hys|].
  intros y Hy. rewrite <- Hperm. apply elem_of_app. by left.
Qed.

(** ** Waitlists *)

Lemma total_regs_get0 regs e :
  get0 (V2Derived.calculate_total_registrations regs) e
  = sum_quantity (by_event e regs).
Proof.
  unfold V2Derived.calculate_total_registrations.
  assert (Hgen : forall d : gmap Z Z,
             get0 (foldl (fun total_regs reg =>
                            <[r_event_id reg :=
                                get0 total_regs (r_event_id reg) + r_quantity reg]>
                              total_regs) d regs) e
             = get0 d e + sum_quantity (by_event e regs)).
  { induction regs as [|r regs IH]; intros d; simpl; [lia|].
    rewrite IH, get0_insert. unfold by_event. simpl.
    destruct (decide (r_event_id r = e)) as [->|Hne].
    - rewrite Z.eqb_refl. simpl. fold (by_event e regs). lia.
    - apply Z.eqb_neq in Hne. rewrite Hne. fold (by_event e regs). lia. }
  rewrite Hgen. unfold get0 at 1. rewrite lookup_empty. simpl. lia.
Qed.

Lemma concat_elem_batch {A B} (Q : A -> list B -> Prop) l yss y :
  Forall2 Q l yss -> y ∈ concat yss ->
  exists x b, x ∈ l /\ Q x b /\ y ∈ b.
Proof.
  induction 1 as [|x b l yss HQ _ IH]; simpl; intros Hy.
  - by apply elem_of_nil in Hy.
  - apply elem_of_app in Hy as [Hy|Hy].
    + exists x, b. split; [left|auto].
    + destruct (IH Hy) as (x' & b' & Hx' & HQ' & Hy').
      exists x', b'. split; [by right|auto].
Qed.

Lemma waitlist_for_event_Ok user_ids total_regs caps lo hi e w b w' :
  V2Derived.waitlist_for_event user_ids total_regs caps lo hi e w = Ok (b, w') ->
  waitlist_batch user_ids total_regs caps lo hi e b.
Proof.
  unfold V2Derived.waitlist_for_event. intros H.
  bind_inv H as capacity w1 Ec. apply getitem_Ok in Ec as [Ec ->].
  exists capacity. split; [exact Ec|].
  destruct (Z.leb_spec capacity (get0 total_regs e)) as [Hfull|Hfree].
  - bind_inv H as num w2 En. apply randint_range in En.
    bind_inv H as selected w3 Es. apply sample_Ok in Es as [Hlen (rest & Hperm)].
    apply mapM_Ok in H.
    assert (Hrel : Forall2 (fun u x => wl_user_id x = u /\ wl_event_id x = e)
                           selected b).
    { eapply Forall2_impl; [exact H|]. simpl. intros u x (w4 & w5 & Hx).
      bind_inv Hx as joined w6 E1. bind_inv Hx as status w7 E2.
      apply ret_Ok in Hx as [-> _]. simpl. auto. }
    clear H.
    assert (Hmap : map wl_user_id b = selected).
    { clear -Hrel. induction Hrel as [|u x sel b (Hu & _) _ IH]; simpl;
        [reflexivity|]. by rewrite Hu, IH. }
    split; [|split; [lia|]].
    + clear -Hrel. induction Hrel as [|u x sel b (_ & He) _ IH]; constructor; auto.
    + intros _. exists num. split; [exact En|]. split.
      * rewrite <- Hlen, <- Hmap, length_map. reflexivity.
      * split.
        -- intros Hnd. rewrite Hmap. eapply sample_NoDup; eauto.
        -- rewrite Forall_forall. intros x Hx.
           assert (Hin : wl_user_id x ∈ selected).
           { rewrite <- Hmap. change (wl_user_id x ∈ wl_user_id <$> b).
             apply list_elem_of_fmap. eauto. }
           rewrite <- Hperm. apply elem_of_app. by left.
  - apply ret_Ok in H as [-> _]. split; [constructor|]. split; [reflexivity|lia].
Qed.

Lemma waitlist_for_event_returns user_ids total_regs (caps : gmap Z Z) lo hi e w :
  is_Some (caps !! e) -> 0 <= lo <= hi ->
  exists b w',
    V2Derived.waitlist_for_event user_ids total_regs caps lo hi e w = Ok (b, w').
Proof.
  intros [capacity Hc] Hrange. unfold V2Derived.waitlist_for_event.
  unfold bind at 1. unfold getitem. rewrite Hc. unfold ret at 1.
  destruct (capacity <=? get0 total_regs e); [|unfold ret; eauto].
  destruct (randint_returns lo hi w) as (num & w1 & En); [lia|].
  unfold bind at 1. rewrite En. apply randint_range in En.
  destruct (sample_returns user_ids (Z.min num (Z.of_nat (length user_ids))) w1)
    as (selected & w2 & Es); [lia|].
  unfold bind at 1. rewrite Es.
  apply mapM_returns. intros u w3 _.
  unfold bind, faker, choice, V2Derived.statuses, draw, ret. simpl. eauto.
Qed.

(** C7.  [generate_waitlists], called as [main] calls it, returns whenever
    every event has a capacity entry.  An event has waitlist entries only
    if it is one of the given events and the quantity registered for it in
    the final registration list is at least its capacity; when the event
    ids are pairwise distinct, each such event gets min(num, number of
    users) entries for some 10 <= num <= 50, all for users of the list and,
    the user ids being distinct, for pairwise distinct users. *)
Theorem waitlists_only_for_full_events user_ids event_ids regs
    (caps : gmap Z Z) w :
  (forall e, e ∈ event_ids -> is_Some (caps !! e)) ->
  exists waitlists w',
    V2Derived.generate_waitlists
      user_ids event_ids (V2Derived.calculate_total_registrations regs) caps
      10 50 w = Ok (waitlists, w') /\
    forall e,
      (waitlist_of_event e waitlists <> [] ->
       e ∈ event_ids /\
       exists capacity, caps !! e = Some capacity /\
                        capacity <= sum_quantity (by_event e regs)) /\
      (NoDup event_ids -> NoDup user_ids -> e ∈ event_ids ->
       forall capacity,
         caps !! e = Some capacity ->
         capacity <= sum_quantity (by_event e regs) ->
         exists num,
           10 <= num <= 50 /\
           Z.of_nat (length (waitlist_of_event e waitlists))
             = Z.min num (Z.of_nat (length user_ids)) /\
           NoDup (map wl_user_id (waitlist_of_event e waitlists)) /\
           Forall (fun x => wl_user_id x ∈ user_ids)
                  (waitlist_of_event e waitlists)).
Proof.
  intros Hcaps. unfold V2Derived.generate_waitlists.
  set (total := V2Derived.calculate_total_registrations regs).
  destruct (concatM_returns
              (V2Derived.waitlist_for_event user_ids total caps 10 50) event_ids w)
    as (waitlists & w' & Hret).
  { intros e w1 He. apply waitlist_for_event_returns; [by apply Hcaps|lia]. }
  exists waitlists, w'. split; [exact Hret|].
  apply concatM_Ok in Hret as (yss & -> & Hall).
  assert (HQ : Forall2 (waitlist_batch user_ids total caps 10 50) event_ids yss).
  { eapply Forall2_impl; [exact Hall|]. simpl.
    intros x b (w1 & w2 & H). by apply waitlist_for_event_Ok in H. }
  clear Hall.
  assert (Hkey : Forall2 (fun x b => Forall (fun y => wl_event_id y = x) b)
                         event_ids yss).
  { eapply Forall2_impl; [exact HQ|]. simpl. by intros x b (c & _ & Hk & _). }
  intros e. unfold waitlist_of_event. split.
  - intros Hne.
    destruct (List.filter (fun x => wl_event_id x =? e) (concat yss))
      as [|y ys] eqn:Ef; [congruence|].
    assert (Hy : In y (List.filter (fun x => wl_event_id x =? e) (concat yss)))
      by (rewrite Ef; left; reflexivity).
    apply List.filter_In in Hy as [Hy Hye]. apply Z.eqb_eq in Hye.
    apply list_elem_of_In in Hy.
    destruct (concat_elem_batch _ _ _ _ HQ Hy) as (x & b & Hx & Hb & Hyb).
    destruct Hb as (capacity & Hc & Hk & Hempty & _).
    rewrite Forall_forall in Hk. rewrite (Hk y Hyb) in Hye. subst x.
    split; [exact Hx|]. exists capacity. split; [exact Hc|].
    destruct (Z.le_gt_cases capacity (get0 total e)) as [Hle|Hgt].
    + unfold total in Hle. by rewrite total_regs_get0 in Hle.
    + rewrite (Hempty ltac:(lia)) in Hyb. by apply elem_of_nil in Hyb.
  - intros Hnd Hndu Hin capacity Hc Hfull.
    apply list_elem_of_lookup in Hin as [i Hi].
    destruct (concat_filter_present wl_event_id e _ _ i Hkey Hnd Hi)
      as (b & Hb & ->).
    pose proof (Forall2_lookup_lr _ _ _ _ _ _ HQ Hi Hb) as (c & Hc' & _ & _ & Hq).
    rewrite Hc in Hc'. injection Hc' as <-.
    destruct Hq as (num & Hnum & Hlen & Hdis & Hsub).
    { unfold total. by rewrite total_regs_get0. }
    exists num. auto.
Qed.

Lemma waitlists_only_for_full_events_witness :
  exists waitlists w',
    V2Derived.generate_waitlists
      [1; 2; 3] [1; 2]
      (V2Derived.calculate_total_registrations
         [mkRegistration 1 1 1 5 12500 "confirmed" "x" "paid";
          mkRegistration 2 1 2 2 20000 "confirmed" "x" "unpaid";
          mkRegistration 3 2 3 1 2500 "confirmed" "x" "paid"])
      {[ 1 := 7; 2 := 100 ]} 10 50 (demo_world 0) = Ok (waitlists, w') /\
    length (waitlist_of_event 1 waitlists) = 3%nat /\
    waitlist_of_event 2 waitlists = [].
Proof.
  destruct (waitlists_only_for_full_events
              [1; 2; 3] [1; 2]
              [mkRegistration 1 1 1 5 12500 "confirmed" "x" "paid";
               mkRegistration 2 1 2 2 20000 "confirmed" "x" "unpaid";
               mkRegistration 3 2 3 1 2500 "confirmed" "x" "paid"]
              {[ 1 := 7; 2 := 100 ]} (demo_world 0))
    as (waitlists & w' & Hret & Hall).
  - intros e He. apply elem_of_dom. revert e He. apply Forall_forall.
    repeat constructor; vm_compute; reflexivity.
  - exists waitlists, w'. split; [exact Hret|]. split.
    + destruct (Hall 1) as [_ Hfull].
      destruct (Hfull ltac:(decide_closed) ltac:(decide_closed)
                      ltac:(decide_closed) 7 eq_refl)
        as (num & Hnum & Hlen & _); [vm_compute; discriminate|].
      simpl in Hlen. lia.
    + destruct (Hall 2) as [Honly _].
      destruct (waitlist_of_event 2 waitlists) as [|x xs]; [reflexivity|].
      destruct Honly as (_ & capacity & Hc & Hle); [discriminate|].
      vm_compute in Hc. injection Hc as <-. vm_compute in Hle. contradiction.
Defined.

(** ** Reproducibility *)

(** C3 fails on the code.  Two runs with the same generator and provider
    tapes whose clocks read one millisecond apart produce different user
    tuples: [generate_users] writes [int(time.time() * 1000) + i] into
    every e-mail address. *)
Theorem generate_users_depends_on_clock :
  let run1 := users_of (generate_users (seeded_world 1700000000000)) in
  let run2 := users_of (generate_users (seeded_world 1700000000001)) in
  rnd (seeded_world 1700000000000) = rnd (seeded_world 1700000000001) /\
  fake (seeded_world 1700000000000) = fake (seeded_world 1700000000001) /\
  length run1 = 500%nat /\ length run2 = 500%nat /\
  u_email <$> head run1 = Some "ada.lovelace.1700000000000@example.com"%string /\
  u_email <$> head run2 = Some "ada.lovelace.1700000000001@example.com"%string /\
  run1 <> run2.
Proof.
  cbv zeta. split; [reflexivity|]. split; [reflexivity|].
  assert (H1 : u_email <$> head (users_of (generate_users (seeded_world 1700000000000)))
               = Some "ada.lovelace.1700000000000@example.com"%string)
    by (vm_compute; reflexivity).
  assert (H2 : u_email <$> head (users_of (generate_users (seeded_world 1700000000001)))
               = Some "ada.lovelace.1700000000001@example.com"%string)
    by (vm_compute; reflexivity).
  split; [vm_compute; reflexivity|]. split; [vm_compute; reflexivity|].
  split; [exact H1|]. split; [exact H2|].
  intros Heq. rewrite Heq in H1. rewrite H1 in H2. discriminate H2.
Qed.

(** ** The ticket export of data.py *)

Lemma write_to_csv_skips_existing filename columns1 data1 columns2 data2 s :
  V1Sink.write_to_csv filename columns2 data2 false
    (V1Sink.write_to_csv filename columns1 data1 false s)
  = V1Sink.write_to_csv filename columns1 data1 false s.
Proof.
  unfold V1Sink.write_to_csv.
  destruct (bool_decide (is_Some (V1Sink.files s !! filename))) eqn:E; simpl.
  - rewrite E. reflexivity.
  - rewrite lookup_insert_eq, bool_decide_eq_true_2 by eauto. reflexivity.
Qed.

Lemma write_to_csv_forced filename columns data s :
  V1Sink.files (V1Sink.write_to_csv filename columns data true s) !! filename
  = Some (V1Sink.mkCsv columns data).
Proof.
  unfold V1Sink.write_to_csv. rewrite andb_false_r. simpl.
  apply lookup_insert_eq.
Qed.

Lemma files_batch_insert_tickets data force s :
  V1Sink.files (V1Sink.batch_insert_tickets data force s) = V1Sink.files s.
Proof. unfold V1Sink.batch_insert_tickets. by destruct (_ && _). Qed.

Lemma files_batch_insert_registrations data force s :
  V1Sink.files (V1Sink.batch_insert_registrations data force s) = V1Sink.files s.
Proof. unfold V1Sink.batch_insert_registrations. by destruct (_ && _). Qed.

Lemma write_to_csv_other filename other columns data force s :
  other <> filename ->
  V1Sink.files (V1Sink.write_to_csv other columns data force s) !! filename
  = V1Sink.files s !! filename.
Proof.
  intros Hne. unfold V1Sink.write_to_csv.
  destruct (_ && _); simpl; [reflexivity|]. by apply lookup_insert_ne.
Qed.

Lemma write_to_csv_present filename columns data s :
  is_Some (V1Sink.files s !! filename) ->
  V1Sink.write_to_csv filename columns data false s = s.
Proof.
  intros Hsome. unfold V1Sink.write_to_csv.
  by rewrite bool_decide_eq_true_2.
Qed.

Lemma write_to_csv_is_Some filename columns data force s :
  is_Some (V1Sink.files (V1Sink.write_to_csv filename columns data force s)
             !! filename).
Proof.
  unfold V1Sink.write_to_csv.
  destruct (bool_decide (is_Some (V1Sink.files s !! filename))) eqn:E; simpl.
  - destruct force; simpl.
    + rewrite lookup_insert_eq. eauto.
    + by apply bool_decide_eq_true in E.
  - rewrite lookup_insert_eq. eauto.
Qed.

Lemma files_update_store updated s :
  V1Sink.files (V1Sink.update_store updated s) = V1Sink.files s.
Proof. reflexivity. Qed.

Lemma write_to_csv_first filename columns data s :
  V1Sink.files (V1Sink.write_to_csv filename columns data false s) !! filename
  = Some (match V1Sink.files s !! filename with
          | Some old => old
          | None => V1Sink.mkCsv columns data
          end).
Proof.
  unfold V1Sink.write_to_csv.
  destruct (V1Sink.files s !! filename) as [old|] eqn:E.
  - rewrite bool_decide_eq_true_2 by eauto. simpl. exact E.
  - rewrite bool_decide_eq_false_2 by (intros [? ?]; discriminate). simpl.
    apply lookup_insert_eq.
Qed.

(** X19.  In [data.py], for every input, a run without the force flag
    that reaches the end of the reconciliation leaves in
    [csv/tickets.csv] what the first [write_to_csv] left there: the file
    found at the start or, if there was none, the tickets as generated;
    never the reconciled tickets. *)
Lemma main_keeps_first_ticket_export tickets user_ids event_ids s w s' w' :
  V1Sink.main_tickets_to_reconciliation false tickets user_ids event_ids s w
    = Some (Ok (s', w')) ->
  V1Sink.files s' !! "csv/tickets.csv"%string
  = Some (match V1Sink.files s !! "csv/tickets.csv"%string with
          | Some old => old
          | None => V1Sink.mkCsv V1Sink.ticket_columns (V1Sink.TicketRows tickets)
          end).
Proof.
  unfold V1Sink.main_tickets_to_reconciliation.
  destruct (V1.generate_registrations _ _ w) as [[[st w1]|e]|];
    [|discriminate|discriminate].
  intros [= <- _].
  rewrite write_to_csv_present.
  - rewrite files_update_store, write_to_csv_other by discriminate.
    rewrite files_batch_insert_registrations, write_to_csv_first.
    by rewrite files_batch_insert_tickets.
  - rewrite files_update_store, write_to_csv_other by discriminate.
    rewrite files_batch_insert_registrations. apply write_to_csv_is_Some.
Qed.

(** C4 fails on [data.py].  In a run without the force flag, on an empty
    store and no files, the store receives the reconciled [quantity_sold]
    (300 and 300) but the second [write_to_csv('csv/tickets.csv', ...)]
    finds the file written a few lines earlier and skips: the export
    keeps the rows with [quantity_sold = 0]. *)
Theorem csv_ticket_export_not_rewritten :
  match V1Sink.main_tickets_to_reconciliation false demo_tickets [1; 2] [1]
                                              empty_sink (demo_world 0) with
  | Some (Ok (s, _)) =>
      map t_quantity_sold (V1Sink.tickets_table s) = [300; 300] /\
      V1Sink.files s !! "csv/tickets.csv"%string
        = Some (V1Sink.mkCsv V1Sink.ticket_columns (V1Sink.TicketRows demo_tickets)) /\
      map t_quantity_sold demo_tickets = [0; 0]
  | _ => False
  end.
Proof. vm_compute. repeat split; reflexivity. Qed.

(** With the force flag the same run rewrites the export. *)
Lemma csv_ticket_export_rewritten_when_forced :
  match V1Sink.main_tickets_to_reconciliation true demo_tickets [1; 2] [1]
                                              empty_sink (demo_world 0) with
  | Some (Ok (s, _)) =>
      match V1Sink.files s !! "csv/tickets.csv"%string with
      | Some (V1Sink.mkCsv _ (V1Sink.TicketRows rows)) =>
          map t_quantity_sold rows = [300; 300]
      | _ => False
      end
  | _ => False
  end.
Proof. vm_compute. reflexivity. Qed.

(** ** The scenarios of the specification *)

(** An event of capacity 3 with a single ticket of three seats: the
    allocator uses its whole attempt budget and emits registrations whose
    quantities add up to 3. *)
Example scenario_capacity_three :
  match V2.generate_registrations
          (V2.mkInputs [1; 2] [1] {[ 1 := [1] ]} {[ 1 := 2500 ]} {[ 1 := 3 ]})
          {[ 1 := 3 ]} ∅ (demo_world 0) with
  | Some (Ok (st, _)) =>
      map r_quantity (V2.registrations st) = [1; 1; 1] /\
      V2.attempts st = 25000
  | _ => False
  end.
Proof. vm_compute. split; reflexivity. Qed.

(** A paid registration of two tickets at 25.00 has [total_amount] 50.00
    and, selected into the payments, yields a payment of 50.00. *)
Example scenario_paid_registration :
  match generate_payments
          [mkRegistration 1 1 1 2 (2 * 2500) "confirmed" "2026-01-15 10:30:00"
                          "paid"]
          (demo_world 0) with
  | Ok (payments, _) =>
      map (fun p => (p_registration_id p, p_amount p)) payments = [(1, 5000)]
  | Raise _ => False
  end.
Proof. vm_compute. reflexivity. Qed.

(** * Further properties *)

(** ** What the allocators emit *)

Lemma bind_eq {A B} (c : M A) (k : A -> M B) w a w1 :
  c w = Ok (a, w1) -> bind c k w = k a w1.
Proof. unfold bind. by intros ->. Qed.

Lemma random_returns w : exists u w', random w = Ok (u, w').
Proof. unfold random, bind, draw, ret. eauto. Qed.

Lemma faker_returns w : exists s w', faker w = Ok (s, w').
Proof. unfold faker. eauto. Qed.

Lemma payment_status_cases (u : N) :
  (if lt_0_4 u then "paid" else "unpaid")%string = "paid"%string \/
  (if lt_0_4 u then "paid" else "unpaid")%string = "unpaid"%string.
Proof. destruct (lt_0_4 u); auto. Qed.

Lemma v2_body_ok inp st w st' w' :
  V2.body inp st w = Ok (st', w') ->
  Forall (registration_ok (V2.user_ids inp) (V2.event_ids inp)
                          (V2.ticket_map inp) (V2.ticket_prices inp))
         (V2.registrations st) ->
  Forall (registration_ok (V2.user_ids inp) (V2.event_ids inp)
                          (V2.ticket_map inp) (V2.ticket_prices inp))
         (V2.registrations st').
Proof.
  unfold V2.body. intros H Hall.
  bind_inv H as user_id w1 Eu. bind_inv H as event_id w2 Ee.
  apply choice_elem in Eu, Ee.
  destruct (default [] (V2.ticket_map inp !! event_id)) as [|t0 ts] eqn:Etm.
  { apply ret_Ok in H as [-> _]. exact Hall. }
  bind_inv H as ticket_id w3 Et. apply choice_elem in Et. simpl in H.
  destruct (Z.leb_spec (get0 (V2.tickets_remaining st) ticket_id) 0) as [Hav|Hav].
  { apply ret_Ok in H as [-> _]. exact Hall. }
  bind_inv H as capacity w4 Ec. apply getitem_Ok in Ec as [Ec ->].
  destruct (Z.leb_spec (capacity - get0 (V2.event_reg_totals st) event_id) 0)
    as [Hcap|Hcap].
  { apply ret_Ok in H as [-> _]. exact Hall. }
  bind_inv H as quantity w5 Eq. apply randint_range in Eq.
  bind_inv H as price w6 Ep. apply getitem_Ok in Ep as [Ep ->].
  bind_inv H as registered_at w7 Ef. bind_inv H as u w8 Er.
  apply ret_Ok in H as [-> ->]. simpl.
  apply Forall_app. split; [exact Hall|]. constructor; [|constructor].
  unfold registration_ok; simpl. rewrite Etm.
  split; [exact Eu|]. split; [exact Ee|]. split; [exact Et|].
  split; [lia|]. split; [by exists price|].
  split; [reflexivity | apply payment_status_cases].
Qed.

Lemma v1_body_ok inp st w st' w' :
  V1.body inp st w = Ok (st', w') ->
  Forall (registration_ok (V1.user_ids inp) (V1.event_ids inp)
                          (V1.ticket_map inp) (V1.ticket_prices inp))
         (V1.registrations st) ->
  Forall (registration_ok (V1.user_ids inp) (V1.event_ids inp)
                          (V1.ticket_map inp) (V1.ticket_prices inp))
         (V1.registrations st').
Proof.
  unfold V1.body. intros H Hall.
  bind_inv H as user_id w1 Eu. bind_inv H as event_id w2 Ee.
  apply choice_elem in Eu, Ee.
  destruct (default [] (V1.ticket_map inp !! event_id)) as [|t0 ts] eqn:Etm.
  { apply ret_Ok in H as [-> _]. exact Hall. }
  bind_inv H as ticket_id w3 Et. apply choice_elem in Et. simpl in H.
  destruct (Z.leb_spec (get0 (V1.tickets_remaining st) ticket_id) 0) as [Hav|Hav].
  { apply ret_Ok in H as [-> _]. exact Hall. }
  bind_inv H as drawn w5 Eq. apply randint_range in Eq.
  bind_inv H as price w6 Ep. apply getitem_Ok in Ep as [Ep ->].
  bind_inv H as registered_at w7 Ef. bind_inv H as u w8 Er.
  apply ret_Ok in H as [-> ->]. simpl.
  apply Forall_app. split; [exact Hall|]. constructor; [|constructor].
  unfold registration_ok; simpl. rewrite Etm.
  split; [exact Eu|]. split; [exact Ee|]. split; [exact Et|].
  split.
  { destruct (Z.ltb_spec (get0 (V1.tickets_remaining st) ticket_id) drawn); lia. }
  split; [by exists price|].
  split; [reflexivity | apply payment_status_cases].
Qed.

(** X1.  Every registration returned by either allocator names a user and
    an event of the given lists and a ticket listed for that event that
    has an entry in [ticket_prices], has a quantity between 1 and 5,
    status 'confirmed' and payment status 'paid' or 'unpaid'. *)
Theorem registrations_well_formed :
  (forall inp tr0 ert0 w st w',
      V2.generate_registrations inp tr0 ert0 w = Some (Ok (st, w')) ->
      Forall (registration_ok (V2.user_ids inp) (V2.event_ids inp)
                              (V2.ticket_map inp) (V2.ticket_prices inp))
             (V2.registrations st)) /\
  (forall inp tr0 w st w',
      V1.generate_registrations inp tr0 w = Some (Ok (st, w')) ->
      Forall (registration_ok (V1.user_ids inp) (V1.event_ids inp)
                              (V1.ticket_map inp) (V1.ticket_prices inp))
             (V1.registrations st)).
Proof.
  split.
  - intros inp tr0 ert0 w st w' Hret. apply v2_returns_reaches in Hret.
    eapply (reaches_invariant V2.cond (V2.body inp)
              (fun s => Forall (registration_ok _ _ _ _) (V2.registrations s)));
      [| |exact Hret]; [|constructor].
    intros s w1 s' w1' Hall _ Hb. eapply v2_body_ok; eauto.
  - intros inp tr0 w st w' Hret. apply v1_returns_reaches in Hret.
    eapply (reaches_invariant V1.cond (V1.body inp)
              (fun s => Forall (registration_ok _ _ _ _) (V1.registrations s)));
      [| |exact Hret]; [|constructor].
    intros s w1 s' w1' Hall _ Hb. eapply v1_body_ok; eauto.
Qed.

Lemma registrations_well_formed_witness :
  exists st w',
    V2.generate_registrations demo_inputs demo_remaining ∅ (demo_world 0)
      = Some (Ok (st, w')) /\
    Forall (registration_ok [1; 2] [1] {[ 1 := [1; 2] ]}
                            {[ 1 := 2500; 2 := 10000 ]})
           (V2.registrations st).
Proof.
  destruct (returned_Ok _ demo_v2_returns) as ([st w'] & E).
  exists st, w'. split; [exact E|].
  exact (proj1 registrations_well_formed demo_inputs demo_remaining ∅
               (demo_world 0) st w' E).
Defined.

(** X2.  A returned run stopped for one of the two reasons of the loop
    condition: it holds exactly 2500 registrations or it has used all
    25000 attempts; it never holds more, nor counts more attempts. *)
Theorem stops_at_target_or_budget :
  (forall inp tr0 ert0 w st w',
      V2.generate_registrations inp tr0 ert0 w = Some (Ok (st, w')) ->
      (Z.of_nat (length (V2.registrations st)) = 2500 \/ V2.attempts st = 25000) /\
      Z.of_nat (length (V2.registrations st)) <= 2500 /\
      0 <= V2.attempts st <= 25000) /\
  (forall inp tr0 w st w',
      V1.generate_registrations inp tr0 w = Some (Ok (st, w')) ->
      (Z.of_nat (length (V1.registrations st)) = 2500 \/ V1.attempts st = 25000) /\
      Z.of_nat (length (V1.registrations st)) <= 2500 /\
      0 <= V1.attempts st <= 25000).
Proof.
  split.
  - intros inp tr0 ert0 w st w' Hret.
    destruct (v2_terminates inp tr0 ert0 w) as (n & r & Hr & Hruns & Hn & Hfin).
    rewrite Hret in Hr. injection Hr as <-. destruct Hfin as [Ha Hl].
    apply runs_exit_cond in Hruns. unfold V2.cond, desired_count in Hruns.
    apply andb_false_iff in Hruns. rewrite !Z.ltb_ge in Hruns. lia.
  - intros inp tr0 w st w' Hret.
    destruct (v1_terminates inp tr0 w) as (n & r & Hr & Hruns & Hn & Hfin).
    rewrite Hret in Hr. injection Hr as <-. destruct Hfin as [Ha Hl].
    apply runs_exit_cond in Hruns. unfold V1.cond, desired_count in Hruns.
    apply andb_false_iff in Hruns. rewrite !Z.ltb_ge in Hruns. lia.
Qed.

Lemma stops_at_target_or_budget_witness :
  exists st w',
    V2.generate_registrations demo_inputs demo_remaining ∅ (demo_world 0)
      = Some (Ok (st, w')) /\
    (Z.of_nat (length (V2.registrations st)) = 2500 \/ V2.attempts st = 25000).
Proof.
  destruct (returned_Ok _ demo_v2_returns) as ([st w'] & E).
  exists st, w'. split; [exact E|].
  exact (proj1 (proj1 stops_at_target_or_budget demo_inputs demo_remaining ∅
                      (demo_world 0) st w' E)).
Defined.

(** ** Runs without exception *)

Lemma runs_never_raises {S} (cond : S -> bool) (body : S -> M S) n s w r :
  (forall s1 w1, exists s' w', body s1 w1 = Ok (s', w')) ->
  runs cond body n s w r -> exists s' w', r = Ok (s', w').
Proof.
  intros Hret Hruns.
  induction Hruns as [s w Hc|s w e Hc Hb|n s w s1 w1 r Hc Hb Hr IH].
  - eauto.
  - destruct (Hret s w) as (s' & w' & E). congruence.
  - exact IH.
Qed.

Lemma v2_body_returns inp st w :
  V2.user_ids inp <> [] -> V2.event_ids inp <> [] ->
  tickets_priced (V2.event_ids inp) (V2.ticket_map inp) (V2.ticket_prices inp) ->
  (forall e, e ∈ V2.event_ids inp -> is_Some (V2.event_capacities inp !! e)) ->
  exists st' w', V2.body inp st w = Ok (st', w').
Proof.
  intros Hu He Hpriced Hcaps. unfold V2.body.
  destruct (choice_returns (V2.user_ids inp) w Hu) as (user_id & w1 & Eu).
  rewrite (bind_eq _ _ _ _ _ Eu).
  destruct (choice_returns (V2.event_ids inp) w1 He) as (event_id & w2 & Ee).
  rewrite (bind_eq _ _ _ _ _ Ee). apply choice_elem in Ee.
  destruct (default [] (V2.ticket_map inp !! event_id)) as [|t0 ts] eqn:Etm;
    [unfold ret; eauto|].
  destruct (choice_returns (t0 :: ts) w2) as (ticket_id & w3 & Et); [discriminate|].
  rewrite (bind_eq _ _ _ _ _ Et). apply choice_elem in Et. cbv zeta. simpl.
  destruct (Z.leb_spec (get0 (V2.tickets_remaining st) ticket_id) 0) as [Hav|Hav];
    [unfold ret; eauto|].
  destruct (Hcaps event_id Ee) as [capacity Hc].
  rewrite (bind_eq _ _ _ capacity w3) by (unfold getitem; by rewrite Hc).
  destruct (Z.leb_spec (capacity - get0 (V2.event_reg_totals st) event_id) 0)
    as [Hrem|Hrem]; [unfold ret; eauto|].
  match goal with |- context [randint 1 ?hi] =>
    destruct (randint_returns 1 hi w3) as (quantity & w4 & Eq); [lia|]
  end.
  rewrite (bind_eq _ _ _ _ _ Eq).
  destruct (Hpriced event_id ticket_id Ee) as [price Hp]; [by rewrite Etm|].
  rewrite (bind_eq _ _ _ price w4) by (unfold getitem; by rewrite Hp).
  unfold bind, faker, random, draw, ret. simpl. eauto.
Qed.

Lemma v1_body_returns inp st w :
  V1.user_ids inp <> [] -> V1.event_ids inp <> [] ->
  tickets_priced (V1.event_ids inp) (V1.ticket_map inp) (V1.ticket_prices inp) ->
  exists st' w', V1.body inp st w = Ok (st', w').
Proof.
  intros Hu He Hpriced. unfold V1.body.
  destruct (choice_returns (V1.user_ids inp) w Hu) as (user_id & w1 & Eu).
  rewrite (bind_eq _ _ _ _ _ Eu).
  destruct (choice_returns (V1.event_ids inp) w1 He) as (event_id & w2 & Ee).
  rewrite (bind_eq _ _ _ _ _ Ee). apply choice_elem in Ee.
  destruct (default [] (V1.ticket_map inp !! event_id)) as [|t0 ts] eqn:Etm;
    [unfold ret; eauto|].
  destruct (choice_returns (t0 :: ts) w2) as (ticket_id & w3 & Et); [discriminate|].
  rewrite (bind_eq _ _ _ _ _ Et). apply choice_elem in Et. cbv zeta. simpl.
  destruct (Z.leb_spec (get0 (V1.tickets_remaining st) ticket_id) 0) as [Hav|Hav];
    [unfold ret; eauto|].
  destruct (randint_returns 1 5 w3) as (drawn & w4 & Eq); [lia|].
  rewrite (bind_eq _ _ _ _ _ Eq).
  destruct (Hpriced event_id ticket_id Ee) as [price Hp]; [by rewrite Etm|].
  rewrite (bind_eq _ _ _ price w4) by (unfold getitem; by rewrite Hp).
  unfold bind, faker, random, draw, ret. simpl. eauto.
Qed.

Lemma v2_generate_returns inp tr0 ert0 w :
  V2.user_ids inp <> [] -> V2.event_ids inp <> [] ->
  tickets_priced (V2.event_ids inp) (V2.ticket_map inp) (V2.ticket_prices inp) ->
  (forall e, e ∈ V2.event_ids inp -> is_Some (V2.event_capacities inp !! e)) ->
  exists st w', V2.generate_registrations inp tr0 ert0 w = Some (Ok (st, w')).
Proof.
  intros Hu He Hp Hc.
  destruct (v2_terminates inp tr0 ert0 w) as (n & r & Hr & Hruns & _).
  destruct (runs_never_raises _ _ _ _ _ _
              (fun s1 w1 => v2_body_returns inp s1 w1 Hu He Hp Hc) Hruns)
    as (st & w' & ->).
  eauto.
Qed.

Lemma v1_generate_returns inp tr0 w :
  V1.user_ids inp <> [] -> V1.event_ids inp <> [] ->
  tickets_priced (V1.event_ids inp) (V1.ticket_map inp) (V1.ticket_prices inp) ->
  exists st w', V1.generate_registrations inp tr0 w = Some (Ok (st, w')).
Proof.
  intros Hu He Hp.
  destruct (v1_terminates inp tr0 w) as (n & r & Hr & Hruns & _).
  destruct (runs_never_raises _ _ _ _ _ _
              (fun s1 w1 => v1_body_returns inp s1 w1 Hu He Hp) Hruns)
    as (st & w' & ->).
  eauto.
Qed.

(** X3.  With a non-empty user list, a non-empty event list, a price for
    every ticket offered for a listed event and (in [v2_data.py]) a
    capacity for every listed event, [generate_registrations] raises no
    exception: it returns its list. *)
Theorem generate_registrations_returns :
  (forall inp tr0 ert0 w,
      V2.user_ids inp <> [] -> V2.event_ids inp <> [] ->
      tickets_priced (V2.event_ids inp) (V2.ticket_map inp) (V2.ticket_prices inp) ->
      (forall e, e ∈ V2.event_ids inp -> is_Some (V2.event_capacities inp !! e)) ->
      exists st w', V2.generate_registrations inp tr0 ert0 w = Some (Ok (st, w'))) /\
  (forall inp tr0 w,
      V1.user_ids inp <> [] -> V1.event_ids inp <> [] ->
      tickets_priced (V1.event_ids inp) (V1.ticket_map inp) (V1.ticket_prices inp) ->
      exists st w', V1.generate_registrations inp tr0 w = Some (Ok (st, w'))).
Proof.
  split.
  - intros inp tr0 ert0 w. apply v2_generate_returns.
  - intros inp tr0 w. apply v1_generate_returns.
Qed.

Lemma demo_tickets_priced :
  tickets_priced [1] {[ 1 := [1; 2] ]} ({[ 1 := 2500; 2 := 10000 ]} : gmap Z Z).
Proof.
  intros e t He Ht. apply list_elem_of_In in He. destruct He as [<-|[]].
  change (t ∈ [1; 2]) in Ht. apply list_elem_of_In in Ht.
  destruct Ht as [<-|[<-|[]]]; eexists; reflexivity.
Qed.

Lemma generate_registrations_returns_witness :
  exists st w',
    V2.generate_registrations demo_inputs demo_remaining ∅ (demo_world 0)
      = Some (Ok (st, w')).
Proof.
  apply (proj1 generate_registrations_returns demo_inputs demo_remaining ∅
               (demo_world 0)).
  - discriminate.
  - discriminate.
  - exact demo_tickets_priced.
  - intros e He. apply list_elem_of_In in He. destruct He as [<-|[]].
    eexists; reflexivity.
Defined.

(** ** How many registrations the inventory allows *)

Lemma length_le_sum_quantity regs :
  Forall (fun r => 1 <= r_quantity r) regs ->
  Z.of_nat (length regs) <= sum_quantity regs.
Proof.
  induction 1 as [|r regs Hr _ IH]; simpl; lia.
Qed.

Lemma Forall_filter_keep {A} (P : A -> Prop) (f : A -> bool) l :
  Forall P l -> Forall P (List.filter f l).
Proof.
  induction 1 as [|x l Hx _ IH]; simpl; [constructor|].
  destruct (f x); [constructor|]; auto.
Qed.

Lemma by_ticket_snoc_list t l r :
  by_ticket t (l ++ [r])
  = by_ticket t l ++ (if decide (r_ticket_id r = t) then [r] else []).
Proof.
  unfold by_ticket. rewrite List.filter_app. simpl.
  destruct (decide (r_ticket_id r = t)) as [->|Hne].
  - by rewrite Z.eqb_refl.
  - apply Z.eqb_neq in Hne. by rewrite Hne.
Qed.

Lemma v2_registered_nonneg inp tr0 ert0 w st w' :
  reaches V2.cond (V2.body inp) (V2.init tr0 ert0) w st w' ->
  forall t, by_ticket t (V2.registrations st) = [] \/
            0 <= get0 (V2.tickets_remaining st) t.
Proof.
  apply (reaches_invariant V2.cond (V2.body inp)
           (fun s => forall t, by_ticket t (V2.registrations s) = [] \/
                               0 <= get0 (V2.tickets_remaining s) t)).
  - intros s w1 s' w1' Hinv _ Hb t.
    apply v2_body_inv in Hb as [_ [(Er & Et & _)|(r & Hr)]].
    { rewrite Er, Et. apply Hinv. }
    destruct Hr as (capacity & price & u & wa & wb & wc & Hr).
    destruct Hr as (_ & _ & _ & Hav & _ & Hrem & Hq & _ & _ & _ & _ & Er & Et & _).
    apply randint_range in Hq. rewrite Er, Et, by_ticket_snoc_list, get0_insert.
    destruct (decide (r_ticket_id r = t)) as [<-|Hne]; [right; lia|].
    rewrite app_nil_r. apply Hinv.
  - intros t. by left.
Qed.

Lemma v1_registered_nonneg inp tr0 w st w' :
  reaches V1.cond (V1.body inp) (V1.init tr0) w st w' ->
  forall t, by_ticket t (V1.registrations st) = [] \/
            0 <= get0 (V1.tickets_remaining st) t.
Proof.
  apply (reaches_invariant V1.cond (V1.body inp)
           (fun s => forall t, by_ticket t (V1.registrations s) = [] \/
                               0 <= get0 (V1.tickets_remaining s) t)).
  - intros s w1 s' w1' Hinv _ Hb t.
    apply v1_body_inv in Hb as [_ [(Er & Et)|(r & Hr)]].
    { rewrite Er, Et. apply Hinv. }
    destruct Hr as (drawn & price & u & wa & wb & wc & Hr).
    destruct Hr as (_ & _ & _ & Hav & Hd & Hq & _ & _ & _ & _ & Er & Et).
    apply randint_range in Hd. rewrite Er, Et, by_ticket_snoc_list, get0_insert.
    destruct (decide (r_ticket_id r = t)) as [<-|Hne]; [right; lia|].
    rewrite app_nil_r. apply Hinv.
  - intros t. by left.
Qed.

(** X4.  A ticket is registered at most as many times as it had seats:
    the number of returned registrations of a ticket is at most its
    initial [tickets_remaining] count, and none at all if that count is
    zero, negative or missing.  In [v2_data.py], started with an empty
    [event_reg_totals], an event of capacity [c >= 0] has at most [c]
    registrations. *)
Theorem registration_counts_bounded :
  (forall inp tr0 ert0 w st w' t,
      V2.generate_registrations inp tr0 ert0 w = Some (Ok (st, w')) ->
      Z.of_nat (length (by_ticket t (V2.registrations st)))
        <= Z.max 0 (get0 tr0 t)) /\
  (forall inp tr0 w st w' e capacity,
      V2.generate_registrations inp tr0 ∅ w = Some (Ok (st, w')) ->
      V2.event_capacities inp !! e = Some capacity -> 0 <= capacity ->
      Z.of_nat (length (by_event e (V2.registrations st))) <= capacity) /\
  (forall inp tr0 w st w' t,
      V1.generate_registrations inp tr0 w = Some (Ok (st, w')) ->
      Z.of_nat (length (by_ticket t (V1.registrations st)))
        <= Z.max 0 (get0 tr0 t)).
Proof.
  split; [|split].
  - intros inp tr0 ert0 w st w' t Hret. apply v2_returns_reaches in Hret.
    pose proof (v2_registered_nonneg _ _ _ _ _ _ Hret t) as Hnn.
    apply v2_inv_reaches in Hret as (Ht & _ & _ & _ & _ & Hwf).
    specialize (Ht t).
    assert (Hlen : Z.of_nat (length (by_ticket t (V2.registrations st)))
                   <= sum_quantity (by_ticket t (V2.registrations st))).
    { apply length_le_sum_quantity, Forall_filter_keep.
      eapply Forall_impl; [exact Hwf|]. intros r (Hq & _). simpl. lia. }
    destruct Hnn as [Hnil|Hpos]; [rewrite Hnil; simpl; lia|lia].
  - intros inp tr0 w st w' e capacity Hret Hc Hpos.
    apply v2_returns_reaches, v2_inv_reaches in Hret as (_ & He & _ & Hcap & _ & Hwf).
    specialize (He e). specialize (Hcap e capacity Hc).
    unfold get0 at 2 in He. rewrite lookup_empty in He. simpl in He.
    unfold get0 at 1 in Hcap. rewrite lookup_empty in Hcap. simpl in Hcap.
    assert (Hlen : Z.of_nat (length (by_event e (V2.registrations st)))
                   <= sum_quantity (by_event e (V2.registrations st))).
    { apply length_le_sum_quantity, Forall_filter_keep.
      eapply Forall_impl; [exact Hwf|]. intros r (Hq & _). simpl. lia. }
    lia.
  - intros inp tr0 w st w' t Hret. apply v1_returns_reaches in Hret.
    pose proof (v1_registered_nonneg _ _ _ _ _ Hret t) as Hnn.
    apply v1_inv_reaches in Hret as (Ht & _ & _ & Hwf).
    specialize (Ht t).
    assert (Hlen : Z.of_nat (length (by_ticket t (V1.registrations st)))
                   <= sum_quantity (by_ticket t (V1.registrations st))).
    { apply length_le_sum_quantity, Forall_filter_keep.
      eapply Forall_impl; [exact Hwf|]. intros r (Hq & _). simpl. lia. }
    destruct Hnn as [Hnil|Hpos]; [rewrite Hnil; simpl; lia|lia].
Qed.

Lemma registration_counts_bounded_witness :
  exists st w',
    V2.generate_registrations demo_inputs demo_remaining ∅ (demo_world 0)
      = Some (Ok (st, w')) /\
    Z.of_nat (length (by_ticket 1 (V2.registrations st))) <= 5 /\
    Z.of_nat (length (by_event 1 (V2.registrations st))) <= 7.
Proof.
  destruct (returned_Ok _ demo_v2_returns) as ([st w'] & E).
  exists st, w'. split; [exact E|].
  destruct registration_counts_bounded as (H1 & H2 & _). split.
  - exact (H1 demo_inputs demo_remaining ∅ (demo_world 0) st w' 1 E).
  - apply (H2 demo_inputs demo_remaining (demo_world 0) st w' 1 7 E);
      [reflexivity|lia].
Defined.

(** ** The ledger and the totals recomputed for the waitlists *)

Lemma total_regs_snoc regs r :
  V2Derived.calculate_total_registrations (regs ++ [r])
  = <[r_event_id r :=
        get0 (V2Derived.calculate_total_registrations regs) (r_event_id r)
        + r_quantity r]> (V2Derived.calculate_total_registrations regs).
Proof.
  unfold V2Derived.calculate_total_registrations. by rewrite foldl_app.
Qed.

(** X5.  Started with an empty [event_reg_totals], the allocator of
    [v2_data.py] leaves in it, after every iteration and on return,
    exactly the dictionary [calculate_total_registrations] computes from
    the registrations: the waitlist stage recomputes what the ledger
    already holds. *)
Theorem ledger_equals_recomputed_totals inp tr0 w st w' :
  V2.generate_registrations inp tr0 ∅ w = Some (Ok (st, w')) ->
  V2.event_reg_totals st
  = V2Derived.calculate_total_registrations (V2.registrations st).
Proof.
  intros Hret. apply v2_returns_reaches in Hret.
  eapply (reaches_invariant V2.cond (V2.body inp)
            (fun s => V2.event_reg_totals s
                      = V2Derived.calculate_total_registrations (V2.registrations s)));
    [| |exact Hret]; [|reflexivity].
  intros s w1 s' w1' Hinv _ Hb.
  apply v2_body_inv in Hb as [_ [(Er & _ & Ee)|(r & Hr)]].
  { by rewrite Er, Ee. }
  destruct Hr as (capacity & price & u & wa & wb & wc & Hr).
  destruct Hr as (_ & _ & _ & _ & _ & _ & _ & _ & _ & _ & _ & Er & _ & Ee).
  rewrite Er, Ee, total_regs_snoc, Hinv. reflexivity.
Qed.

Lemma ledger_equals_recomputed_totals_witness :
  exists st w',
    V2.generate_registrations demo_inputs demo_remaining ∅ (demo_world 0)
      = Some (Ok (st, w')) /\
    V2.event_reg_totals st
    = V2Derived.calculate_total_registrations (V2.registrations st).
Proof.
  destruct (returned_Ok _ demo_v2_returns) as ([st w'] & E).
  exists st, w'. split; [exact E|].
  exact (ledger_equals_recomputed_totals demo_inputs demo_remaining
           (demo_world 0) st w' E).
Defined.

(** ** The dictionaries main builds from the tickets and events *)

Lemma ticket_map_of_lookup event_ids tickets e :
  ticket_map_of event_ids tickets !! e
  = if decide (e ∈ event_ids)
    then Some (map fst (List.filter (fun it => t_event_id (snd it) =? e)
                                    (enumerate 1 tickets)))
    else None.
Proof.
  unfold ticket_map_of.
  assert (Hgen : forall d : gmap Z (list Z),
             foldl (fun d event_id =>
                      <[event_id :=
                          map fst (List.filter
                                     (fun it => t_event_id (snd it) =? event_id)
                                     (enumerate 1 tickets))]> d) d event_ids !! e
             = if decide (e ∈ event_ids)
               then Some (map fst (List.filter
                                     (fun it => t_event_id (snd it) =? e)
                                     (enumerate 1 tickets)))
               else d !! e).
  { induction event_ids as [|x l IH]; intros d; simpl.
    - destruct (decide (e ∈ [])) as [Hin|_]; [by apply elem_of_nil in Hin|done].
    - rewrite IH. destruct (decide (e ∈ l)) as [Hin|Hnin].
      + destruct (decide (e ∈ x :: l)) as [_|Hn]; [done|].
        exfalso. apply Hn. by right.
      + destruct (decide (x = e)) as [->|Hne].
        * rewrite lookup_insert_eq.
          destruct (decide (e ∈ e :: l)) as [_|Hn]; [done|].
          exfalso. apply Hn. left.
        * rewrite lookup_insert_ne by done.
          destruct (decide (e ∈ x :: l)) as [Hin|_]; [|done].
          apply elem_of_cons in Hin as [->|Hin]; [done|contradiction]. }
  rewrite Hgen. destruct (decide (e ∈ event_ids)); [done|apply lookup_empty].
Qed.

Lemma ticket_ids_elem tickets e t :
  t ∈ map fst (List.filter (fun it => t_event_id (snd it) =? e)
                           (enumerate 1 tickets))
  <-> exists i tk, tickets !! i = Some tk /\ t = Z.of_nat i + 1
                   /\ t_event_id tk = e.
Proof.
  split.
  - intros Hin. apply list_elem_of_fmap in Hin as ([k tk] & -> & Hin).
    apply list_elem_of_In, List.filter_In in Hin as [Hin He].
    simpl in *. apply Z.eqb_eq in He.
    apply list_elem_of_In, list_elem_of_lookup in Hin as [i Hi].
    rewrite enumerate_lookup in Hi.
    destruct (tickets !! i) as [tk'|] eqn:Etk; [|discriminate].
    simpl in Hi. injection Hi as <- <-. exists i, tk'. repeat split; auto; lia.
  - intros (i & tk & Hi & -> & He).
    apply list_elem_of_fmap. exists (Z.of_nat i + 1, tk). split; [reflexivity|].
    apply list_elem_of_In, List.filter_In. split.
    + apply list_elem_of_In, list_elem_of_lookup. exists i.
      rewrite enumerate_lookup, Hi. simpl. f_equal. f_equal. lia.
    + simpl. by apply Z.eqb_eq.
Qed.

Lemma ticket_map_of_elem event_ids tickets e t :
  t ∈ default [] (ticket_map_of event_ids tickets !! e)
  <-> e ∈ event_ids /\
      exists i tk, tickets !! i = Some tk /\ t = Z.of_nat i + 1
                   /\ t_event_id tk = e.
Proof.
  rewrite ticket_map_of_lookup. destruct (decide (e ∈ event_ids)) as [Hin|Hnin]; simpl.
  - rewrite ticket_ids_elem. tauto.
  - split; [intros H; by apply elem_of_nil in H|tauto].
Qed.

Lemma prices_of_lookup tickets i t :
  tickets !! i = Some t -> prices_of tickets !! (Z.of_nat i + 1) = Some (t_price t).
Proof.
  intros Ht. unfold prices_of. rewrite enumerate_dict_lookup.
  destruct (decide (1 <= Z.of_nat i + 1)); [|lia].
  replace (Z.to_nat (Z.of_nat i + 1 - 1)) with i by lia. by rewrite Ht.
Qed.

Lemma remaining_of_key tickets i t :
  tickets !! i = Some t ->
  remaining_of tickets !! (Z.of_nat i + 1) = Some (t_quantity_available t).
Proof.
  intros Ht. unfold remaining_of. rewrite enumerate_dict_lookup.
  destruct (decide (1 <= Z.of_nat i + 1)); [|lia].
  replace (Z.to_nat (Z.of_nat i + 1 - 1)) with i by lia. by rewrite Ht.
Qed.

Lemma ticket_map_of_partitioned event_ids tickets :
  tickets_partitioned (ticket_map_of event_ids tickets).
Proof.
  intros e1 e2 l1 l2 t H1 H2 Ht1 Ht2.
  assert (Hin1 : t ∈ default [] (ticket_map_of event_ids tickets !! e1))
    by (by rewrite H1).
  assert (Hin2 : t ∈ default [] (ticket_map_of event_ids tickets !! e2))
    by (by rewrite H2).
  apply ticket_map_of_elem in Hin1 as (_ & i1 & tk1 & Hi1 & -> & <-).
  apply ticket_map_of_elem in Hin2 as (_ & i2 & tk2 & Hi2 & Heq & <-).
  assert (i1 = i2) as -> by lia. congruence.
Qed.

Lemma ticket_map_of_priced event_ids tickets :
  tickets_priced event_ids (ticket_map_of event_ids tickets) (prices_of tickets).
Proof.
  intros e t _ Ht. apply ticket_map_of_elem in Ht as (_ & i & tk & Hi & -> & _).
  rewrite (prices_of_lookup _ _ _ Hi). eauto.
Qed.

(** X6.  The three dictionaries [main] builds from the ticket list agree
    with it: ticket [t] is listed under event [e] exactly when [e] is a
    listed event and the [t]-th ticket (counting from 1) belongs to [e];
    so no ticket is listed under two events, and every listed ticket has
    its price and its [quantity_available] in the other two
    dictionaries. *)
Theorem main_dictionaries_consistent event_ids tickets :
  (forall e t,
      t ∈ default [] (ticket_map_of event_ids tickets !! e)
      <-> e ∈ event_ids /\
          exists i tk, tickets !! i = Some tk /\ t = Z.of_nat i + 1
                       /\ t_event_id tk = e) /\
  tickets_partitioned (ticket_map_of event_ids tickets) /\
  (forall e t,
      t ∈ default [] (ticket_map_of event_ids tickets !! e) ->
      exists tk,
        tickets !! Z.to_nat (t - 1) = Some tk /\
        prices_of tickets !! t = Some (t_price tk) /\
        remaining_of tickets !! t = Some (t_quantity_available tk)).
Proof.
  split; [|split].
  - intros e t. apply ticket_map_of_elem.
  - apply ticket_map_of_partitioned.
  - intros e t Ht. apply ticket_map_of_elem in Ht as (_ & i & tk & Hi & -> & _).
    exists tk. replace (Z.to_nat (Z.of_nat i + 1 - 1)) with i by lia.
    split; [exact Hi|]. split; [by apply prices_of_lookup|by apply remaining_of_key].
Qed.

Lemma capacities_of_lookup events i ev :
  events !! i = Some ev ->
  capacities_of events !! (Z.of_nat i + 1) = Some (e_capacity ev).
Proof.
  intros Hev. unfold capacities_of.
  assert (Hshift : forall (l : list Event) s (d : gmap Z Z),
             foldl (fun d ie => <[fst ie + 1 := e_capacity (snd ie)]> d) d
                   (enumerate s l)
             = foldl (fun d it => <[fst it := e_capacity (snd it)]> d) d
                     (enumerate (s + 1) l)).
  { induction l as [|x l IH]; intros s d; simpl; [reflexivity|]. apply IH. }
  rewrite Hshift, enumerate_dict_lookup. change (0 + 1) with 1.
  destruct (decide (1 <= Z.of_nat i + 1)); [|lia].
  replace (Z.to_nat (Z.of_nat i + 1 - 1)) with i by lia. by rewrite Hev.
Qed.

Lemma ids_upto_elem n e : e ∈ ids_upto n <-> 1 <= e <= Z.of_nat n.
Proof.
  unfold ids_upto. split.
  - intros Hin. apply list_elem_of_fmap in Hin as (i & -> & Hi).
    apply list_elem_of_In, in_seq in Hi. lia.
  - intros He. apply list_elem_of_fmap. exists (Z.to_nat (e - 1)).
    split; [lia|]. apply list_elem_of_In, in_seq. lia.
Qed.

Lemma ids_upto_nonempty {A} (l : list A) : l <> [] -> ids_upto (length l) <> [].
Proof. destruct l; [congruence|]. discriminate. Qed.

(** X7.  The allocation stage as [main] wires it raises no exception as
    soon as there is a user and an event: [v2_data.py]'s returns, and for
    every event of non-negative capacity the quantities registered on the
    event's tickets add up to at most the capacity; [data.py]'s returns
    as well. *)
Theorem main_allocation_returns :
  (forall users events tickets w,
      users <> [] -> events <> [] ->
      let event_ids := ids_upto (length events) in
      let ticket_map := ticket_map_of event_ids tickets in
      exists st w',
        V2.generate_registrations
          (V2.mkInputs users event_ids ticket_map (prices_of tickets)
                       (capacities_of events))
          (remaining_of tickets) ∅ w = Some (Ok (st, w')) /\
        forall i ev,
          events !! i = Some ev -> 0 <= e_capacity ev ->
          sum_quantity (by_tickets_of ticket_map (Z.of_nat i + 1)
                                      (V2.registrations st))
            <= e_capacity ev) /\
  (forall users (events : list Event) tickets w,
      users <> [] -> events <> [] ->
      let event_ids := ids_upto (length events) in
      exists st w',
        V1.generate_registrations
          (V1.mkInputs users event_ids (ticket_map_of event_ids tickets)
                       (prices_of tickets))
          (remaining_of tickets) w = Some (Ok (st, w'))).
Proof.
  split.
  - intros users events tickets w Hu He event_ids ticket_map.
    set (inp := V2.mkInputs users event_ids ticket_map (prices_of tickets)
                            (capacities_of events)).
    destruct (v2_generate_returns inp (remaining_of tickets) ∅ w)
      as (st & w' & Hret).
    + exact Hu.
    + by apply ids_upto_nonempty.
    + apply ticket_map_of_priced.
    + intros e Hin. apply ids_upto_elem in Hin.
      destruct (lookup_lt_is_Some_2 events (Z.to_nat (e - 1))) as [ev Hev]; [lia|].
      exists (e_capacity ev). simpl.
      replace e with (Z.of_nat (Z.to_nat (e - 1)) + 1) by lia.
      by apply capacities_of_lookup.
    + exists st, w'. split; [exact Hret|].
      intros i ev Hev Hpos. apply v2_returns_reaches, v2_inv_reaches in Hret.
      destruct Hret as (_ & Hsum & _ & Hcap & _ & Hwf).
      rewrite by_tickets_of_by_event.
      * specialize (Hsum (Z.of_nat i + 1)).
        specialize (Hcap (Z.of_nat i + 1) (e_capacity ev)
                      (capacities_of_lookup _ _ _ Hev)).
        unfold get0 at 2 in Hsum. rewrite lookup_empty in Hsum. simpl in Hsum.
        unfold get0 at 1 in Hcap. rewrite lookup_empty in Hcap. simpl in Hcap.
        lia.
      * apply ticket_map_of_partitioned.
      * eapply Forall_impl; [exact Hwf|]. by intros r (_ & Hr & _).
  - intros users events tickets w Hu He event_ids.
    apply v1_generate_returns; simpl.
    + exact Hu.
    + by apply ids_upto_nonempty.
    + apply ticket_map_of_priced.
Qed.

Lemma main_allocation_returns_witness :
  exists st w',
    V2.generate_registrations
      (V2.mkInputs [1; 2] (ids_upto (length demo_events))
                   (ticket_map_of (ids_upto (length demo_events)) demo_tickets)
                   (prices_of demo_tickets) (capacities_of demo_events))
      (remaining_of demo_tickets) ∅ (demo_world 0) = Some (Ok (st, w')) /\
    sum_quantity
      (by_tickets_of (ticket_map_of (ids_upto (length demo_events)) demo_tickets)
                     1 (V2.registrations st)) <= 100.
Proof.
  destruct (proj1 main_allocation_returns [1; 2] demo_events demo_tickets
                  (demo_world 0))
    as (st & w' & Hret & Hcap); [discriminate|discriminate|].
  exists st, w'. split; [exact Hret|].
  exact (Hcap 0%nat (demo_event 100) eq_refl ltac:(simpl; lia)).
Defined.

(** ** Waitlists only where no seat is left *)

Lemma waitlist_entries_imply_full user_ids event_ids total caps lo hi w
      waitlists w' e :
  V2Derived.generate_waitlists user_ids event_ids total caps lo hi w
    = Ok (waitlists, w') ->
  waitlist_of_event e waitlists <> [] ->
  e ∈ event_ids /\
  exists capacity, caps !! e = Some capacity /\ capacity <= get0 total e.
Proof.
  unfold V2Derived.generate_waitlists, waitlist_of_event. intros Hret Hne.
  apply concatM_Ok in Hret as (yss & -> & Hall).
  assert (HQ : Forall2 (waitlist_batch user_ids total caps lo hi) event_ids yss).
  { eapply Forall2_impl; [exact Hall|]. simpl.
    intros x b (w1 & w2 & H). by apply waitlist_for_event_Ok in H. }
  destruct (List.filter (fun x => wl_event_id x =? e) (concat yss))
    as [|y ys] eqn:Ef; [congruence|].
  assert (Hy : In y (List.filter (fun x => wl_event_id x =? e) (concat yss)))
    by (rewrite Ef; left; reflexivity).
  apply List.filter_In in Hy as [Hy Hye]. apply Z.eqb_eq in Hye.
  apply list_elem_of_In in Hy.
  destruct (concat_elem_batch _ _ _ _ HQ Hy) as (x & b & Hx & Hb & Hyb).
  destruct Hb as (capacity & Hc & Hk & Hempty & _).
  rewrite Forall_forall in Hk. rewrite (Hk y Hyb) in Hye. subst x.
  split; [exact Hx|]. exists capacity. split; [exact Hc|].
  destruct (Z.le_gt_cases capacity (get0 total e)) as [Hle|Hgt]; [exact Hle|].
  rewrite (Hempty ltac:(lia)) in Hyb. by apply elem_of_nil in Hyb.
Qed.

(** X8.  In a run of [v2_data.py] (allocation started with an empty
    [event_reg_totals], waitlists computed from the returned
    registrations), an event of non-negative capacity that gets waitlist
    entries is sold out exactly: the quantities registered for it add up
    to its capacity. *)
Theorem waitlisted_events_are_sold_out inp tr0 w st w1 users lo hi waitlists w2
        e capacity :
  V2.generate_registrations inp tr0 ∅ w = Some (Ok (st, w1)) ->
  V2Derived.generate_waitlists
    users (V2.event_ids inp)
    (V2Derived.calculate_total_registrations (V2.registrations st))
    (V2.event_capacities inp) lo hi w1 = Ok (waitlists, w2) ->
  V2.event_capacities inp !! e = Some capacity -> 0 <= capacity ->
  waitlist_of_event e waitlists <> [] ->
  sum_quantity (by_event e (V2.registrations st)) = capacity.
Proof.
  intros Hret Hwl Hc Hpos Hne.
  destruct (waitlist_entries_imply_full _ _ _ _ _ _ _ _ _ _ Hwl Hne)
    as (_ & c & Hc' & Hfull).
  rewrite Hc in Hc'. injection Hc' as <-. rewrite total_regs_get0 in Hfull.
  apply v2_returns_reaches, v2_inv_reaches in Hret.
  destruct Hret as (_ & Hsum & _ & Hcap & _).
  specialize (Hsum e). specialize (Hcap e capacity Hc).
  unfold get0 at 2 in Hsum. rewrite lookup_empty in Hsum. simpl in Hsum.
  unfold get0 at 1 in Hcap. rewrite lookup_empty in Hcap. simpl in Hcap.
  lia.
Qed.

(** ** Notifications *)

Lemma choice_types_elem w t w' :
  choice notification_types w = Ok (t, w') -> t ∈ notification_types.
Proof. apply choice_elem. Qed.

Lemma v2_notifications_for_Ok reg w b w' :
  V2Notify.notifications_for reg w = Ok (b, w') ->
  notification_batch stamped_iff_paid reg b.
Proof.
  unfold V2Notify.notifications_for. intros H.
  bind_inv H as sent_at w1 Es. bind_inv H as type w2 Et.
  apply choice_elem in Et. bind_inv H as u w3 Eu.
  assert (Hstamp : is_Some sent_at <-> is_paid reg = true).
  { destruct (is_paid reg).
    - bind_inv Es as s w4 E. apply ret_Ok in Es as [-> _]. split; eauto.
    - apply ret_Ok in Es as [-> _]. split; [intros [? ?]|]; discriminate. }
  exists (mkNotification (r_user_id reg) (r_event_id reg)
                         (confirmation_message (r_event_id reg)) type
                         (if is_paid reg then "sent" else "pending")%string
                         sent_at).
  split; [unfold confirms; simpl; auto|].
  split; [exact Hstamp|].
  destruct (lt_0_5 u).
  - bind_inv H as type' w4 Et'. apply choice_elem in Et'.
    apply ret_Ok in H as [-> _]. right. eexists. split; [|reflexivity].
    unfold is_reminder_of. simpl. auto 10.
  - apply ret_Ok in H as [-> _]. by left.
Qed.

Lemma v1_notifications_for_Ok reg w b w' :
  V1Notify.notifications_for reg w = Ok (b, w') ->
  notification_batch always_stamped reg b.
Proof.
  unfold V1Notify.notifications_for. intros H.
  bind_inv H as type w1 Et. apply choice_elem in Et.
  bind_inv H as sent_at w2 Es. bind_inv H as u w3 Eu.
  exists (mkNotification (r_user_id reg) (r_event_id reg)
                         (confirmation_message (r_event_id reg)) type
                         (if is_paid reg then "sent" else "pending")%string
                         (Some sent_at)).
  split; [unfold confirms; simpl; auto|].
  split; [unfold always_stamped; simpl; eauto|].
  destruct (lt_0_5 u).
  - bind_inv H as type' w4 Et'. apply choice_elem in Et'.
    apply ret_Ok in H as [-> _]. right. eexists. split; [|reflexivity].
    unfold is_reminder_of. simpl. auto 10.
  - apply ret_Ok in H as [-> _]. by left.
Qed.

Lemma notifications_for_returns reg w :
  (exists b w', V2Notify.notifications_for reg w = Ok (b, w')) /\
  (exists b w', V1Notify.notifications_for reg w = Ok (b, w')).
Proof.
  split.
  - unfold V2Notify.notifications_for.
    destruct (is_paid reg);
      unfold bind, faker, choice, notification_types, random, draw, ret; simpl;
      match goal with |- context [lt_0_5 ?u] => destruct (lt_0_5 u) end; eauto.
  - unfold V1Notify.notifications_for.
    unfold bind, faker, choice, notification_types, random, draw, ret; simpl;
      match goal with |- context [lt_0_5 ?u] => destruct (lt_0_5 u) end; eauto.
Qed.

Lemma confirmation_is_not_reminder reg c :
  confirms reg c -> is_reminder c = false.
Proof.
  intros (_ & _ & Hm & _). unfold is_reminder. rewrite Hm. reflexivity.
Qed.

Lemma reminder_is_reminder reg r : is_reminder_of reg r -> is_reminder r = true.
Proof.
  intros (_ & _ & Hm & _). unfold is_reminder. rewrite Hm. reflexivity.
Qed.

Lemma notification_batches extra regs (yss : list (list Notification)) :
  Forall2 (notification_batch extra) regs yss ->
  Forall2 (fun reg c => confirms reg c /\ extra reg c)
          regs (confirmations (concat yss)) /\
  Forall (fun r => exists reg, reg ∈ regs /\ is_reminder_of reg r)
         (reminders (concat yss)) /\
  (length regs <= length (concat yss) <= 2 * length regs)%nat.
Proof.
  unfold confirmations, reminders.
  induction 1 as [|reg b regs yss (c & Hc & Hx & Hb) _ (IH1 & IH2 & IH3)]; simpl.
  - repeat split; auto.
  - rewrite !List.filter_app, length_app.
    assert (Hrest : Forall (fun r => exists reg0, reg0 ∈ reg :: regs
                                                  /\ is_reminder_of reg0 r)
                           (List.filter is_reminder (concat yss))).
    { eapply Forall_impl; [exact IH2|]. simpl.
      intros r (reg0 & Hin & Hr). exists reg0. split; [by right|exact Hr]. }
    pose proof (confirmation_is_not_reminder _ _ Hc) as Hnc.
    destruct Hb as [->|(r & Hr & ->)]; simpl.
    + rewrite Hnc. simpl. repeat split; auto; lia.
    + pose proof (reminder_is_reminder _ _ Hr) as Hrr.
      rewrite Hnc, Hrr. simpl. repeat split; auto; try lia.
      constructor; [|exact Hrest]. exists reg. split; [left|exact Hr].
Qed.

(** X9.  [generate_notifications] returns for every registration list.
    Its output is the concatenation, in the order of the registrations,
    of one batch per registration; a batch is the confirmation of its
    registration (status 'sent' for a paid registration, 'pending'
    otherwise) followed by at most one reminder for the same registration
    ('pending', no timestamp).  Hence the confirmations of the output
    correspond one to one, in order, to the registrations, every reminder
    belongs to a registration, and there are between n and 2n
    notifications.  In [v2_data.py] a confirmation carries a [sent_at]
    timestamp exactly when its registration is paid; in [data.py] every
    confirmation carries one, also the pending ones. *)
Theorem notifications_per_registration regs w :
  (exists ns w',
      V2Notify.generate_notifications regs w = Ok (ns, w') /\
      (exists batches,
          ns = concat batches /\
          Forall2 (notification_batch stamped_iff_paid) regs batches) /\
      Forall2 (fun reg c => confirms reg c /\ stamped_iff_paid reg c)
              regs (confirmations ns) /\
      Forall (fun r => exists reg, reg ∈ regs /\ is_reminder_of reg r)
             (reminders ns) /\
      (length regs <= length ns <= 2 * length regs)%nat) /\
  (exists ns w',
      V1Notify.generate_notifications regs w = Ok (ns, w') /\
      (exists batches,
          ns = concat batches /\
          Forall2 (notification_batch always_stamped) regs batches) /\
      Forall2 (fun reg c => confirms reg c /\ always_stamped reg c)
              regs (confirmations ns) /\
      Forall (fun r => exists reg, reg ∈ regs /\ is_reminder_of reg r)
             (reminders ns) /\
      (length regs <= length ns <= 2 * length regs)%nat).
Proof.
  split.
  - destruct (concatM_returns V2Notify.notifications_for regs w)
      as (ns & w' & Hret).
    { intros reg w1 _. apply notifications_for_returns. }
    exists ns, w'. split; [exact Hret|].
    apply concatM_Ok in Hret as (yss & -> & Hall).
    assert (Hb : Forall2 (notification_batch stamped_iff_paid) regs yss).
    { eapply Forall2_impl; [exact Hall|]. simpl.
      intros reg b (w1 & w2 & H). by apply v2_notifications_for_Ok in H. }
    split; [by exists yss|]. by apply notification_batches.
  - destruct (concatM_returns V1Notify.notifications_for regs w)
      as (ns & w' & Hret).
    { intros reg w1 _. apply notifications_for_returns. }
    exists ns, w'. split; [exact Hret|].
    apply concatM_Ok in Hret as (yss & -> & Hall).
    assert (Hb : Forall2 (notification_batch always_stamped) regs yss).
    { eapply Forall2_impl; [exact Hall|]. simpl.
      intros reg b (w1 & w2 & H). by apply v1_notifications_for_Ok in H. }
    split; [by exists yss|]. by apply notification_batches.
Qed.

Lemma waitlisted_events_are_sold_out_witness :
  sum_quantity (by_event 1 (V2.registrations demo_state)) = 7.
Proof.
  apply (waitlisted_events_are_sold_out
           demo_inputs demo_remaining (demo_world 0) demo_state demo_world_after
           [1; 2; 3] 10 50 demo_waitlists demo_world_final 1 7).
  - vm_compute. reflexivity.
  - vm_compute. reflexivity.
  - reflexivity.
  - lia.
  - vm_compute. discriminate.
Defined.

(** ** Feedback *)

Lemma feedback_for_Ok p reg w b w' :
  feedback_for p reg w = Ok (b, w') ->
  b = [] \/
  (is_paid reg = true /\
   exists f, b = [f] /\ f_event_id f = r_event_id reg /\
             f_user_id f = r_user_id reg /\ 1 <= f_rating f <= 5).
Proof.
  unfold feedback_for. intros H.
  destruct (is_paid reg); [|apply ret_Ok in H as [-> _]; by left].
  bind_inv H as u w1 Eu.
  destruct (random_lt u p); [|apply ret_Ok in H as [-> _]; by left].
  bind_inv H as rating w2 Er. apply randint_range in Er.
  bind_inv H as comment w3 Ec. bind_inv H as submitted w4 Es.
  apply ret_Ok in H as [-> _]. right. split; [reflexivity|].
  eexists. split; [reflexivity|]. simpl. auto.
Qed.

Lemma feedback_for_returns p reg w :
  exists b w', feedback_for p reg w = Ok (b, w').
Proof.
  unfold feedback_for. destruct (is_paid reg); [|unfold ret; eauto].
  unfold bind, random, draw, ret. simpl.
  match goal with |- context [random_lt ?u p] => destruct (random_lt u p) end;
    [|eauto].
  unfold randint, bind, draw, faker, ret. simpl. eauto.
Qed.

Lemma random_lt_never p u : dy_num p <= 0 -> random_lt u p = false.
Proof.
  intros Hp. unfold random_lt. apply Z.ltb_ge.
  assert (0 <= Z.of_N u * 2 ^ Z.of_N (dy_exp p)) by (apply Z.mul_nonneg_nonneg; lia).
  assert (dy_num p * 2 ^ 53 <= 0) by (apply Z.mul_nonpos_nonneg; lia).
  lia.
Qed.

Lemma random_lt_always p u :
  (u < two53)%N -> 2 ^ Z.of_N (dy_exp p) <= dy_num p -> random_lt u p = true.
Proof.
  intros Hu Hp. unfold random_lt. apply Z.ltb_lt.
  assert (Hpow : 0 < 2 ^ Z.of_N (dy_exp p)) by (apply Z.pow_pos_nonneg; lia).
  assert (Hu' : Z.of_N u < 2 ^ 53) by (unfold two53 in Hu; lia).
  apply Z.lt_le_trans with (2 ^ 53 * 2 ^ Z.of_N (dy_exp p)).
  - apply Z.mul_lt_mono_pos_r; assumption.
  - rewrite (Z.mul_comm (dy_num p)). apply Z.mul_le_mono_nonneg_l; lia.
Qed.

Lemma feedback_for_certain p reg w b w' :
  2 ^ Z.of_N (dy_exp p) <= dy_num p ->
  feedback_for p reg w = Ok (b, w') ->
  length b = if is_paid reg then 1%nat else 0%nat.
Proof.
  intros Hp. unfold feedback_for. intros H.
  destruct (is_paid reg); [|by apply ret_Ok in H as [-> _]].
  bind_inv H as u w1 Eu. rewrite random_lt_always in H;
    [|by eapply random_bound|exact Hp].
  bind_inv H as rating w2 Er. bind_inv H as comment w3 Ec.
  bind_inv H as submitted w4 Es. by apply ret_Ok in H as [-> _].
Qed.

Lemma feedback_for_never p reg w b w' :
  dy_num p <= 0 -> feedback_for p reg w = Ok (b, w') -> b = [].
Proof.
  intros Hp. unfold feedback_for. intros H.
  destruct (is_paid reg); [|by apply ret_Ok in H as [-> _]].
  bind_inv H as u w1 Eu. rewrite random_lt_never in H by exact Hp.
  by apply ret_Ok in H as [-> _].
Qed.

(** X10.  [generate_feedback] returns for every registration list and
    probability.  Every feedback record comes from a paid registration of
    the list (same event and user) and has a rating between 1 and 5;
    there are at most as many records as paid registrations; a
    probability [<= 0] gives none, a probability [>= 1] gives one for
    every paid registration. *)
Theorem feedback_only_from_paid regs p w :
  exists fs w',
    generate_feedback regs p w = Ok (fs, w') /\
    Forall (fun f =>
              1 <= f_rating f <= 5 /\
              exists reg, reg ∈ regs /\ r_payment_status reg = "paid"%string /\
                          f_event_id f = r_event_id reg /\
                          f_user_id f = r_user_id reg) fs /\
    (length fs <= length (List.filter is_paid regs))%nat /\
    (dy_num p <= 0 -> fs = []) /\
    (2 ^ Z.of_N (dy_exp p) <= dy_num p ->
     length fs = length (List.filter is_paid regs)).
Proof.
  unfold generate_feedback.
  destruct (concatM_returns (feedback_for p) regs w) as (fs & w' & Hret).
  { intros reg w1 _. apply feedback_for_returns. }
  exists fs, w'. split; [exact Hret|].
  apply concatM_Ok in Hret as (yss & -> & Hall).
  induction Hall as [|reg b regs yss (w1 & w2 & Hb) _ (IH1 & IH2 & IH3 & IH4)];
    simpl.
  - repeat split; auto.
  - assert (Hrest : Forall (fun f =>
                1 <= f_rating f <= 5 /\
                exists reg0, reg0 ∈ reg :: regs /\
                             r_payment_status reg0 = "paid"%string /\
                             f_event_id f = r_event_id reg0 /\
                             f_user_id f = r_user_id reg0) (concat yss)).
    { eapply Forall_impl; [exact IH1|]. simpl.
      intros f (Hr & reg0 & Hin & Hrest). split; [exact Hr|].
      exists reg0. split; [by right|exact Hrest]. }
    pose proof (fun Hp => feedback_for_never p reg w1 b w2 Hp Hb) as Hnever.
    pose proof (fun Hp => feedback_for_certain p reg w1 b w2 Hp Hb) as Hcertain.
    apply feedback_for_Ok in Hb as [->|(Hpaid & f & -> & He & Hu & Hr)]; simpl.
    + split; [exact Hrest|]. split; [destruct (is_paid reg); simpl; lia|].
      split; [exact IH3|]. intros Hp. specialize (Hcertain Hp).
      simpl in Hcertain. destruct (is_paid reg); [discriminate|]. by apply IH4.
    + rewrite Hpaid. simpl. split.
      * constructor; [|exact Hrest]. split; [exact Hr|]. exists reg.
        split; [left|]. split; [|auto].
        unfold is_paid in Hpaid. by apply String.eqb_eq in Hpaid.
      * split; [lia|]. split.
        -- intros Hp. specialize (Hnever Hp). discriminate.
        -- intros Hp. f_equal. by apply IH4.
Qed.

(** ** Venues and events *)

Lemma repeatM_Ok {A} n (c : M A) w xs w' :
  repeatM n c w = Ok (xs, w') ->
  length xs = n /\ Forall (fun x => exists w1 w2, c w1 = Ok (x, w2)) xs.
Proof.
  revert w xs w'. induction n as [|n IH]; intros w xs w' H; simpl in H.
  - apply ret_Ok in H as [-> _]. split; [reflexivity|constructor].
  - bind_inv H as x w1 Ex. bind_inv H as rest w2 Er.
    apply ret_Ok in H as [-> _]. apply IH in Er as [Hlen Hall].
    split; [simpl; lia|]. constructor; eauto.
Qed.

Lemma repeatM_returns {A} n (c : M A) w :
  (forall w1, exists x w2, c w1 = Ok (x, w2)) ->
  exists xs w', repeatM n c w = Ok (xs, w').
Proof.
  intros Hc. revert w. induction n as [|n IH]; intros w; simpl.
  - unfold ret. eauto.
  - destruct (Hc w) as (x & w1 & Ex). destruct (IH w1) as (xs & w2 & Exs).
    unfold bind. rewrite Ex, Exs. unfold ret. eauto.
Qed.

Lemma repeatM_raises {A} n (c : M A) w e :
  (forall w1, c w1 = Raise e) -> repeatM (Datatypes.S n) c w = Raise e.
Proof. intros Hc. simpl. unfold bind. by rewrite Hc. Qed.

Lemma choice_cities w city w' :
  choice cities w = Ok (city, w') ->
  (city = "Dallas" \/ city = "Philadelphia" \/ city = "New York")%string.
Proof.
  intros H. apply choice_elem in H. unfold cities in H.
  apply list_elem_of_In in H. simpl in H. intuition.
Qed.

Lemma generate_venues_spec w :
  exists venues w',
    generate_venues w = Ok (venues, w') /\
    length venues = 10%nat /\ Forall venue_ok venues.
Proof.
  unfold generate_venues.
  match goal with |- context [repeatM 10 ?c] =>
    destruct (repeatM_returns 10 c w) as (venues & w' & Hret)
  end.
  { intros w1. unfold bind, choice, cities, faker, randint, draw, ret. simpl.
    eauto. }
  exists venues, w'. split; [exact Hret|].
  apply repeatM_Ok in Hret as [Hlen Hall]. split; [exact Hlen|].
  eapply Forall_impl; [exact Hall|]. simpl. intros v (w1 & w2 & H).
  bind_inv H as city w3 Ec. apply choice_cities in Ec.
  bind_inv H as company w4 E1. bind_inv H as address w5 E2.
  bind_inv H as zip w6 E3. bind_inv H as lat w7 E4. bind_inv H as lon w8 E5.
  bind_inv H as capacity w9 E6. apply randint_range in E6.
  bind_inv H as created w10 E7. apply ret_Ok in H as [-> _].
  unfold venue_ok. simpl. split; [|split; [reflexivity|exact E6]].
  destruct Ec as [-> | [-> | ->]]; simpl; auto.
Qed.

(** X11.  [generate_venues] returns ten venues for every world; each has
    the state of its city (Dallas/TX, Philadelphia/PA, New York/NY),
    country 'USA' and a capacity between 500 and 10000. *)
Theorem generate_venues_ok w :
  exists venues w',
    generate_venues w = Ok (venues, w') /\
    length venues = 10%nat /\ Forall venue_ok venues.
Proof. apply generate_venues_spec. Qed.

Lemma generate_events_Ok plus_hours organizer_ids venue_ids w events w' :
  generate_events plus_hours organizer_ids venue_ids w = Ok (events, w') ->
  length events = 15%nat /\
  Forall (event_ok plus_hours organizer_ids venue_ids) events.
Proof.
  unfold generate_events. intros Hret.
  apply repeatM_Ok in Hret as [Hlen Hall]. split; [exact Hlen|].
  eapply Forall_impl; [exact Hall|]. cbv beta. intros ev (w1 & w2 & H).
  bind_inv H as title w3 E1. bind_inv H as descr w4 E2.
  bind_inv H as start w5 E3. bind_inv H as hours w6 E4.
  apply randint_range in E4.
  bind_inv H as organizer w7 E5. apply choice_elem in E5.
  bind_inv H as venue w8 E6. apply choice_elem in E6.
  bind_inv H as capacity w9 E7. apply randint_range in E7.
  bind_inv H as status w10 E8. apply choice_elem in E8.
  bind_inv H as created w11 E9. apply ret_Ok in H as [-> _].
  unfold event_ok. simpl. repeat split; auto; try lia. exists hours. auto.
Qed.

(** X12.  With at least one organizer id and one venue id
    [generate_events] returns fifteen events, each with an organizer and
    a venue of the given lists, a capacity between 100 and 5000, one of
    the four statuses, [updated_at = created_at] and an end time 2 to 8
    hours after its start; with an empty organizer list it raises
    IndexError. *)
Theorem generate_events_ok plus_hours organizer_ids venue_ids w :
  (organizer_ids <> [] -> venue_ids <> [] ->
   exists events w',
     generate_events plus_hours organizer_ids venue_ids w = Ok (events, w') /\
     length events = 15%nat /\
     Forall (event_ok plus_hours organizer_ids venue_ids) events) /\
  (organizer_ids = [] ->
   generate_events plus_hours organizer_ids venue_ids w = Raise IndexError).
Proof.
  split.
  - intros Ho Hv. unfold generate_events.
    match goal with |- context [repeatM 15 ?c] =>
      destruct (repeatM_returns 15 c w) as (events & w' & Hret)
    end.
    { intros w1. unfold bind at 1 2 3 4. unfold faker, randint. simpl.
      unfold bind at 1. unfold draw at 1. unfold ret at 1.
      match goal with |- context [choice organizer_ids ?w2] =>
        destruct (choice_returns organizer_ids w2 Ho) as (o & w3 & Eo)
      end.
      unfold bind at 1. rewrite Eo.
      destruct (choice_returns venue_ids w3 Hv) as (v & w4 & Ev).
      unfold bind at 1. rewrite Ev.
      unfold bind, choice, event_statuses, draw, ret. simpl. eauto. }
    exists events, w'. split; [exact Hret|].
    by apply (generate_events_Ok plus_hours organizer_ids venue_ids w events w').
  - intros ->. unfold generate_events. apply repeatM_raises. intros w1.
    unfold bind, faker, randint, draw, ret. simpl. reflexivity.
Qed.

Lemma generate_events_ok_witness :
  exists events w',
    generate_events (fun t h => (t +:+ "+" +:+ pretty h +:+ "h")%string)
                    [3; 4] [1; 2] (demo_world 0) = Ok (events, w') /\
    length events = 15%nat.
Proof.
  destruct (proj1 (generate_events_ok
                     (fun t h => (t +:+ "+" +:+ pretty h +:+ "h")%string)
                     [3; 4] [1; 2] (demo_world 0)))
    as (events & w' & Hret & Hlen & _); [discriminate|discriminate|].
  exists events, w'. split; [exact Hret|exact Hlen].
Defined.

Lemma organizer_ids_of_elem users o :
  o ∈ organizer_ids_of users <->
  1 <= o /\ exists u, users !! Z.to_nat (o - 1) = Some u /\
                      (u_role u = "organizer" \/ u_role u = "admin")%string.
Proof.
  unfold organizer_ids_of. split.
  - intros Hin. apply list_elem_of_fmap in Hin as ([i u] & -> & Hin).
    apply list_elem_of_In, List.filter_In in Hin as [Hin Hrole].
    simpl in *. apply list_elem_of_In, list_elem_of_lookup in Hin as [k Hk].
    rewrite enumerate_lookup in Hk.
    destruct (users !! k) as [u'|] eqn:Eu; [|discriminate].
    simpl in Hk. injection Hk as <- <-. split; [lia|]. exists u'.
    replace (Z.to_nat (0 + Z.of_nat k + 1 - 1)) with k by lia.
    split; [exact Eu|].
    apply orb_true_iff in Hrole as [H|H]; apply String.eqb_eq in H; auto.
  - intros (Ho & u & Hu & Hrole).
    apply list_elem_of_fmap. exists (o - 1, u). split; [simpl; lia|].
    apply list_elem_of_In, List.filter_In. split.
    + apply list_elem_of_In, list_elem_of_lookup. exists (Z.to_nat (o - 1)).
      rewrite enumerate_lookup, Hu. simpl. f_equal. f_equal. lia.
    + simpl. apply orb_true_iff.
      destruct Hrole as [H|H]; rewrite H; [left|right]; reflexivity.
Qed.

(** X13.  Events generated, as in [main], from the organizer ids selected
    out of a user list reference only users whose role is organizer or
    admin: every event's [organizer_id] is the 1-based position of such a
    user. *)
Theorem events_reference_organizers plus_hours users venue_ids w events w' :
  generate_events plus_hours (organizer_ids_of users) venue_ids w
    = Ok (events, w') ->
  Forall (fun ev =>
            1 <= e_organizer_id ev /\
            exists u, users !! Z.to_nat (e_organizer_id ev - 1) = Some u /\
                      (u_role u = "organizer" \/ u_role u = "admin")%string)
         events.
Proof.
  intros Hret. apply generate_events_Ok in Hret as [_ Hall].
  eapply Forall_impl; [exact Hall|]. simpl.
  intros ev (Ho & _). by apply organizer_ids_of_elem in Ho.
Qed.

Lemma events_reference_organizers_witness :
  Forall (fun ev =>
            1 <= e_organizer_id ev /\
            exists u, demo_users !! Z.to_nat (e_organizer_id ev - 1) = Some u /\
                      (u_role u = "organizer" \/ u_role u = "admin")%string)
         (value_of [] demo_events_run).
Proof.
  apply (events_reference_organizers demo_plus_hours demo_users [1; 2]
           (demo_world 0) (value_of [] demo_events_run)
           (world_of (demo_world 0) demo_events_run)).
  vm_compute. reflexivity.
Defined.

(** ** Category mappings and event sponsors *)

Lemma NoDup_concat_keyed {B} (key : B -> Z) l (yss : list (list B)) :
  Forall2 (fun x b => Forall (fun y => key y = x) b /\ NoDup b) l yss ->
  NoDup l -> NoDup (concat yss).
Proof.
  induction 1 as [|x b l yss (Hk & Hb) Hall IH]; intros Hnd; simpl;
    [constructor|].
  apply NoDup_cons in Hnd as [Hx Hnd]. apply NoDup_app.
  split; [exact Hb|]. split; [|by apply IH].
  intros y Hy Hy'. apply Hx.
  destruct (concat_elem_batch _ _ _ _ Hall Hy') as (x' & b' & Hx' & (Hk' & _) & Hyb').
  rewrite Forall_forall in Hk, Hk'.
  rewrite <- (Hk y Hy), (Hk' y Hyb'). exact Hx'.
Qed.

Lemma categories_for_event_Ok category_ids e w b w' :
  categories_for_event category_ids e w = Ok (b, w') ->
  Forall (fun m => fst m = e /\ snd m ∈ category_ids) b /\
  (1 <= length b <= 3)%nat /\
  (length b <= length category_ids)%nat /\
  (NoDup category_ids -> NoDup b).
Proof.
  unfold categories_for_event. intros H.
  bind_inv H as num w1 En. apply randint_range in En.
  bind_inv H as selected w2 Es.
  pose proof Es as Hrange. unfold sample in Hrange.
  destruct (Z.ltb_spec num 0); [discriminate|].
  destruct (Z.ltb_spec (Z.of_nat (length category_ids)) num); [discriminate|].
  clear Hrange.
  apply sample_Ok in Es as [Hlen (rest & Hperm)].
  apply ret_Ok in H as [-> _]. rewrite length_map.
  split; [|split; [lia|split; [lia|]]].
  - rewrite Forall_forall. intros m Hm.
    apply list_elem_of_fmap in Hm as (c & -> & Hc). simpl. split; [reflexivity|].
    rewrite <- Hperm. apply elem_of_app. by left.
  - intros Hnd. apply (NoDup_fmap_2_strong (fun cat => (e, cat))).
    + intros c1 c2 _ _ [= ->]. reflexivity.
    + eapply sample_NoDup; eauto.
Qed.

Lemma categories_for_event_returns category_ids e w :
  (3 <= length category_ids)%nat ->
  exists b w', categories_for_event category_ids e w = Ok (b, w').
Proof.
  intros Hlen. unfold categories_for_event.
  destruct (randint_returns 1 3 w) as (num & w1 & En); [lia|].
  rewrite (bind_eq _ _ _ _ _ En). apply randint_range in En.
  destruct (sample_returns category_ids num w1) as (sel & w2 & Es); [lia|].
  rewrite (bind_eq _ _ _ _ _ Es). unfold ret. eauto.
Qed.

Lemma categories_for_event_raises e w :
  categories_for_event [] e w = Raise ValueError.
Proof.
  unfold categories_for_event.
  destruct (randint_returns 1 3 w) as (num & w1 & En); [lia|].
  rewrite (bind_eq _ _ _ _ _ En). apply randint_range in En.
  unfold bind, sample.
  replace ((num <? 0) || (Z.of_nat (length (@nil Z)) <? num)) with true;
    [reflexivity|].
  symmetry. apply orb_true_iff. right. apply Z.ltb_lt. simpl. lia.
Qed.

(** X14.  With at least three category ids
    [generate_event_category_mapping] returns; every pair joins a listed
    event with a listed category; with pairwise distinct event ids every
    listed event gets between one and three pairs, and with category ids
    distinct too no pair occurs twice.  With no category at all and at
    least one event it raises ValueError ([random.sample] of more than
    the population). *)
Theorem category_mapping_ok event_ids category_ids w :
  ((3 <= length category_ids)%nat ->
   exists mappings w',
     generate_event_category_mapping event_ids category_ids w
       = Ok (mappings, w') /\
     Forall (fun m => fst m ∈ event_ids /\ snd m ∈ category_ids) mappings /\
     (NoDup event_ids ->
      (forall e, e ∈ event_ids ->
                 1 <= Z.of_nat (length (List.filter (fun m => fst m =? e)
                                                    mappings)) <= 3)
      /\ (NoDup category_ids -> NoDup mappings))) /\
  (category_ids = [] -> event_ids <> [] ->
   generate_event_category_mapping event_ids category_ids w = Raise ValueError).
Proof.
  unfold generate_event_category_mapping. split.
  - intros Hlen.
    destruct (concatM_returns (categories_for_event category_ids) event_ids w)
      as (mappings & w' & Hret).
    { intros e w1 _. by apply categories_for_event_returns. }
    exists mappings, w'. split; [exact Hret|].
    apply concatM_Ok in Hret as (yss & -> & Hall).
    assert (HQ : Forall2 (fun e b =>
                   Forall (fun m => fst m = e /\ snd m ∈ category_ids) b /\
                   (1 <= length b <= 3)%nat /\
                   (NoDup category_ids -> NoDup b)) event_ids yss).
    { eapply Forall2_impl; [exact Hall|]. cbv beta.
      intros e b (w1 & w2 & H). apply categories_for_event_Ok in H. tauto. }
    clear Hall.
    assert (Hkey : Forall2 (fun e b => Forall (fun m : Z * Z => fst m = e) b)
                           event_ids yss).
    { eapply Forall2_impl; [exact HQ|]. cbv beta. intros e b (Hb & _).
      eapply Forall_impl; [exact Hb|]. by intros m [? _]. }
    split; [|intros Hnd; split].
    + rewrite Forall_forall. intros m Hm.
      destruct (concat_elem_batch _ _ _ _ HQ Hm) as (e & b & He & (Hb & _) & Hmb).
      rewrite Forall_forall in Hb. destruct (Hb m Hmb) as [-> Hc]. auto.
    + intros e He. apply list_elem_of_lookup in He as [i Hi].
      destruct (concat_filter_present fst e _ _ i Hkey Hnd Hi) as (b & Hb & ->).
      pose proof (Forall2_lookup_lr _ _ _ _ _ _ HQ Hi Hb) as (_ & Hlen' & _).
      lia.
    + intros Hndc. apply (NoDup_concat_keyed fst event_ids); [|exact Hnd].
      eapply Forall2_impl; [exact HQ|]. cbv beta.
      intros e b (Hb & _ & Hn). split; [|by apply Hn].
      eapply Forall_impl; [exact Hb|]. by intros m [? _].
  - intros -> Hne. destruct event_ids as [|e l]; [congruence|]. simpl.
    unfold bind at 1. by rewrite categories_for_event_raises.
Qed.

Lemma category_mapping_ok_witness :
  exists mappings w',
    generate_event_category_mapping [1; 2] [1; 2; 3; 4; 5] (demo_world 0)
      = Ok (mappings, w') /\
    Forall (fun m => fst m ∈ [1; 2] /\ snd m ∈ [1; 2; 3; 4; 5]) mappings /\
    generate_event_category_mapping [1; 2] [] (demo_world 0) = Raise ValueError.
Proof.
  destruct (category_mapping_ok [1; 2] [1; 2; 3; 4; 5] (demo_world 0)) as [Hok _].
  destruct Hok as (mappings & w' & Hret & Hall & _); [simpl; lia|].
  exists mappings, w'. split; [exact Hret|]. split; [exact Hall|].
  apply (proj2 (category_mapping_ok [1; 2] [] (demo_world 0)));
    [reflexivity|discriminate].
Defined.

Lemma uniform_cents_range lo hi w x w' :
  lo <= hi -> uniform_cents lo hi w = Ok (x, w') -> 100 * lo <= x <= 100 * hi.
Proof.
  intros Hle. unfold uniform_cents. intros H. bind_inv H as r w1 E.
  apply ret_Ok in H as [-> _].
  assert (0 <= Z.of_N r mod (100 * (hi - lo) + 1) < 100 * (hi - lo) + 1)
    by (apply Z.mod_pos_bound; lia).
  lia.
Qed.

Lemma sponsors_for_event_Ok sponsor_ids max e w b w' :
  sponsors_for_event sponsor_ids max e w = Ok (b, w') ->
  Forall (fun s => es_event_id s = e /\ es_sponsor_id s ∈ sponsor_ids /\
                   es_level s ∈ sponsorship_levels /\
                   100000 <= es_contribution s <= 1000000) b /\
  Z.of_nat (length b) <= max /\
  (NoDup sponsor_ids -> NoDup (map es_sponsor_id b)).
Proof.
  unfold sponsors_for_event. intros H.
  bind_inv H as num w1 En. apply randint_range in En.
  bind_inv H as selected w2 Es. apply sample_Ok in Es as [Hlen (rest & Hperm)].
  apply mapM_Ok in H.
  assert (Hrel : Forall2 (fun sp s =>
                            es_sponsor_id s = sp /\ es_event_id s = e /\
                            es_level s ∈ sponsorship_levels /\
                            100000 <= es_contribution s <= 1000000)
                         selected b).
  { eapply Forall2_impl; [exact H|]. cbv beta. intros sp s (w3 & w4 & Hs).
    bind_inv Hs as level w5 El. apply choice_elem in El.
    bind_inv Hs as c w6 Ec. apply uniform_cents_range in Ec; [|lia].
    apply ret_Ok in Hs as [-> _]. simpl. repeat split; auto; lia. }
  clear H.
  assert (Hmap : map es_sponsor_id b = selected).
  { clear -Hrel. induction Hrel as [|sp s sel b (Hs & _) _ IH]; simpl;
      [reflexivity|]. by rewrite Hs, IH. }
  split; [|split].
  - rewrite Forall_forall. intros s Hs.
    assert (Hin : es_sponsor_id s ∈ selected).
    { rewrite <- Hmap. change (es_sponsor_id s ∈ es_sponsor_id <$> b).
      apply list_elem_of_fmap. eauto. }
    assert (Hprops : es_event_id s = e /\ es_level s ∈ sponsorship_levels /\
                     100000 <= es_contribution s <= 1000000).
    { clear -Hrel Hs. induction Hrel as [|sp s' sel b (_ & Hp) _ IH];
        [by apply elem_of_nil in Hs|].
      apply elem_of_cons in Hs as [->|Hs]; [exact Hp|by apply IH]. }
    destruct Hprops as (He & Hl & Hc). repeat split; auto; try lia.
    rewrite <- Hperm. apply elem_of_app. by left.
  - rewrite <- (length_map es_sponsor_id), Hmap. lia.
  - intros Hnd. rewrite Hmap. eapply sample_NoDup; eauto.
Qed.

Lemma sponsors_for_event_returns sponsor_ids max e w :
  0 <= max ->
  exists b w', sponsors_for_event sponsor_ids max e w = Ok (b, w').
Proof.
  intros Hmax. unfold sponsors_for_event.
  destruct (randint_returns 0 max w) as (num & w1 & En); [lia|].
  rewrite (bind_eq _ _ _ _ _ En). apply randint_range in En.
  destruct (sample_returns sponsor_ids (Z.min num (Z.of_nat (length sponsor_ids))) w1)
    as (sel & w2 & Es); [lia|].
  rewrite (bind_eq _ _ _ _ _ Es).
  apply mapM_returns. intros sp w3 _.
  unfold bind, choice, sponsorship_levels, uniform_cents, draw, ret. simpl. eauto.
Qed.

(** X15.  For every sponsor list (also an empty one) and every
    [max_sponsors_per_event >= 0], [generate_event_sponsors] returns: the
    sample size is clamped to the number of sponsors.  Every record joins
    a listed event with a listed sponsor, has one of the three levels and
    a contribution between 1000.00 and 10000.00; with pairwise distinct
    event ids an event gets at most [max_sponsors_per_event] records, for
    pairwise distinct sponsors when the sponsor ids are distinct. *)
Theorem event_sponsors_ok event_ids sponsor_ids max w :
  0 <= max ->
  exists records w',
    generate_event_sponsors event_ids sponsor_ids max w = Ok (records, w') /\
    Forall (fun s => es_event_id s ∈ event_ids /\ es_sponsor_id s ∈ sponsor_ids /\
                     es_level s ∈ sponsorship_levels /\
                     100000 <= es_contribution s <= 1000000) records /\
    (NoDup event_ids ->
     forall e,
       Z.of_nat (length (List.filter (fun s => es_event_id s =? e) records)) <= max /\
       (NoDup sponsor_ids ->
        NoDup (map es_sponsor_id
                   (List.filter (fun s => es_event_id s =? e) records)))).
Proof.
  intros Hmax. unfold generate_event_sponsors.
  destruct (concatM_returns (sponsors_for_event sponsor_ids max) event_ids w)
    as (records & w' & Hret).
  { intros e w1 _. by apply sponsors_for_event_returns. }
  exists records, w'. split; [exact Hret|].
  apply concatM_Ok in Hret as (yss & -> & Hall).
  assert (HQ : Forall2 (fun e b =>
                 Forall (fun s => es_event_id s = e /\ es_sponsor_id s ∈ sponsor_ids /\
                                  es_level s ∈ sponsorship_levels /\
                                  100000 <= es_contribution s <= 1000000) b /\
                 Z.of_nat (length b) <= max /\
                 (NoDup sponsor_ids -> NoDup (map es_sponsor_id b)))
               event_ids yss).
  { eapply Forall2_impl; [exact Hall|]. cbv beta.
    intros e b (w1 & w2 & H). by apply sponsors_for_event_Ok in H. }
  clear Hall.
  assert (Hkey : Forall2 (fun e b => Forall (fun s => es_event_id s = e) b)
                         event_ids yss).
  { eapply Forall2_impl; [exact HQ|]. cbv beta. intros e b (Hb & _).
    eapply Forall_impl; [exact Hb|]. by intros s [? _]. }
  split.
  - rewrite Forall_forall. intros s Hs.
    destruct (concat_elem_batch _ _ _ _ HQ Hs) as (e & b & He & (Hb & _) & Hsb).
    rewrite Forall_forall in Hb. destruct (Hb s Hsb) as (-> & Hrest). auto.
  - intros Hnd e. destruct (decide (e ∈ event_ids)) as [Hin|Hnin].
    + apply list_elem_of_lookup in Hin as [i Hi].
      destruct (concat_filter_present es_event_id e _ _ i Hkey Hnd Hi)
        as (b & Hb & ->).
      pose proof (Forall2_lookup_lr _ _ _ _ _ _ HQ Hi Hb) as (_ & Hlen & Hdis).
      auto.
    + rewrite (concat_filter_absent es_event_id e _ _ Hkey Hnin). simpl.
      split; [lia|intros _; constructor].
Qed.

Lemma event_sponsors_ok_witness :
  exists records w',
    generate_event_sponsors [1; 2] [] 3 (demo_world 0) = Ok (records, w').
Proof.
  destruct (event_sponsors_ok [1; 2] [] 3 (demo_world 0)) as (records & w' & Hret & _);
    [lia|].
  eauto.
Defined.

(** ** Phone numbers *)

Lemma string_length_append (s1 s2 : string) :
  String.length (s1 +:+ s2) = (String.length s1 + String.length s2)%nat.
Proof. induction s1 as [|c s1 IH]; simpl; [reflexivity|]. by rewrite IH. Qed.

Lemma pretty_length_3 (n : Z) :
  100 <= n <= 999 -> String.length (pretty n) = 3%nat.
Proof.
  intros Hn.
  assert (H : Forall (fun k : Z => String.length (pretty k) = 3%nat) (seqZ 100 900))
    by decide_closed.
  rewrite Forall_forall in H. apply H, elem_of_seqZ. lia.
Qed.

Lemma pretty_length_4 (n : Z) :
  1000 <= n <= 9999 -> String.length (pretty n) = 4%nat.
Proof.
  intros Hn.
  assert (H : Forall (fun k : Z => String.length (pretty k) = 4%nat)
                     (seqZ 1000 9000))
    by decide_closed.
  rewrite Forall_forall in H. apply H, elem_of_seqZ. lia.
Qed.

Lemma area_code_length city code :
  code ∈ area_codes city -> String.length code = 3%nat.
Proof.
  unfold area_codes. intros Hin.
  destruct (String.eqb city "Dallas");
    [|destruct (String.eqb city "Philadelphia");
      [|destruct (String.eqb city "New York")]];
    apply list_elem_of_In in Hin; simpl in Hin;
    repeat (destruct Hin as [<-|Hin]; [reflexivity|]); destruct Hin.
Qed.

Lemma generate_phone_number_Ok city w phone w' :
  generate_phone_number city w = Ok (phone, w') -> String.length phone = 12%nat.
Proof.
  unfold generate_phone_number. intros H.
  bind_inv H as code w1 Ec. apply choice_elem, area_code_length in Ec.
  bind_inv H as exchange w2 Ee. apply randint_range in Ee.
  bind_inv H as line w3 El. apply randint_range in El.
  apply ret_Ok in H as [-> _].
  rewrite !string_length_append, Ec, pretty_length_3, pretty_length_4 by lia.
  reflexivity.
Qed.

Lemma generate_phone_number_returns city w :
  exists phone w', generate_phone_number city w = Ok (phone, w').
Proof.
  unfold generate_phone_number.
  destruct (choice_returns (area_codes city) w) as (code & w1 & Ec).
  { unfold area_codes. destruct (String.eqb city "Dallas"); [discriminate|].
    destruct (String.eqb city "Philadelphia"); [discriminate|].
    destruct (String.eqb city "New York"); discriminate. }
  rewrite (bind_eq _ _ _ _ _ Ec).
  unfold bind, randint, draw, ret. simpl. eauto.
Qed.

Lemma length_range n : length (range n) = n.
Proof. unfold range. by rewrite length_map, length_seq. Qed.

(** X16.  Every phone number the scripts build has exactly twelve
    characters (three digits, a dash, three digits, a dash, four digits):
    [generate_phone_number] returns such a number for every city, known
    or not, and [generate_speakers] returns [num_speakers] speakers (none
    for a negative number), each with such a phone number. *)
Theorem phone_numbers_have_12_characters :
  (forall city w,
      exists phone w',
        generate_phone_number city w = Ok (phone, w') /\
        String.length phone = 12%nat) /\
  (forall num_speakers w,
      exists speakers w',
        generate_speakers num_speakers w = Ok (speakers, w') /\
        length speakers = Z.to_nat num_speakers /\
        Forall (fun s => String.length (sp_phone s) = 12%nat) speakers).
Proof.
  split.
  - intros city w. destruct (generate_phone_number_returns city w)
      as (phone & w' & H).
    exists phone, w'. split; [exact H|]. by apply generate_phone_number_Ok in H.
  - intros n w. unfold generate_speakers.
    match goal with |- context [mapM ?f ?l w] =>
      destruct (mapM_returns f l w) as (speakers & w' & Hret)
    end.
    { intros i w1 _. unfold bind, faker, randint, draw, ret. simpl. eauto. }
    exists speakers, w'. split; [exact Hret|].
    apply mapM_Ok in Hret. split.
    + rewrite <- (Forall2_length _ _ _ Hret). apply length_range.
    + clear -Hret. induction Hret as [|i s l ss (w1 & w2 & H) _ IH];
        constructor; [|exact IH].
      bind_inv H as first w3 E1. bind_inv H as last w4 E2.
      bind_inv H as bio w5 E3.
      bind_inv H as area w6 E4. apply randint_range in E4.
      bind_inv H as exchange w7 E5. apply randint_range in E5.
      bind_inv H as line w8 E6. apply randint_range in E6.
      bind_inv H as created w9 E7. apply ret_Ok in H as [-> _]. simpl.
      rewrite !string_length_append, !pretty_length_3, pretty_length_4 by lia.
      reflexivity.
Qed.

(** ** Users and their roles *)

Lemma swap_perm {A} (x : list A) i j xi xj :
  x !! i = Some xi -> x !! j = Some xj ->
  <[j := xi]> (<[i := xj]> x) ≡ₚ x.
Proof.
  intros Hi Hj.
  assert (Hj' : <[i := xj]> x !! j = Some xj).
  { destruct (decide (i = j)) as [->|Hne].
    - apply list_lookup_insert_eq. by eapply lookup_lt_Some.
    - by rewrite list_lookup_insert_ne. }
  apply (Permutation_cons_inv (a := xj)).
  rewrite (insert_swap_perm _ j xj xi Hj').
  by rewrite (insert_swap_perm _ i xi xj Hi).
Qed.

Lemma shuffle_from_spec {A} i (x : list A) w :
  (i < length x \/ i = 0)%nat ->
  exists y w', shuffle_from i x w = Ok (y, w') /\ y ≡ₚ x.
Proof.
  revert x w. induction i as [|i IH]; intros x w Hi; simpl.
  - unfold ret. eauto.
  - destruct Hi as [Hi|Hi]; [|discriminate].
    unfold bind at 1. unfold draw at 1.
    set (j := N.to_nat (rnd w (rnd_pos w) `mod` N.of_nat (Datatypes.S (Datatypes.S i)))).
    assert (Hj : (j < Datatypes.S (Datatypes.S i))%nat)
      by (apply draw_index_lt; lia).
    destruct (lookup_lt_is_Some_2 x (Datatypes.S i)) as [xi Hxi]; [lia|].
    destruct (lookup_lt_is_Some_2 x j) as [xj Hxj]; [lia|].
    rewrite Hxi, Hxj.
    match goal with |- context [shuffle_from i ?x1 ?w1] =>
      destruct (IH x1 w1) as (y & w' & Hy & Hperm)
    end.
    { left. rewrite !length_insert. lia. }
    exists y, w'. split; [exact Hy|].
    rewrite Hperm. by apply swap_perm.
Qed.

Lemma shuffle_spec {A} (x : list A) w :
  exists y w', shuffle x w = Ok (y, w') /\ y ≡ₚ x.
Proof. apply shuffle_from_spec. destruct x; simpl; lia. Qed.

Lemma lookup_five_copies {A} (l : list A) k :
  length l = 100%nat ->
  (l ++ l ++ l ++ l ++ l) !! k
  = if decide (k < 500)%nat then l !! Z.to_nat (Z.of_nat k mod 100) else None.
Proof.
  intros Hlen. destruct (decide (k < 500)%nat) as [Hk|Hk].
  - assert (Hcase : (k < 100 \/ 100 <= k < 200 \/ 200 <= k < 300 \/
                     300 <= k < 400 \/ 400 <= k < 500)%nat) by lia.
    destruct Hcase as [H|[H|[H|[H|H]]]].
    + rewrite lookup_app_l by lia. f_equal.
      rewrite Z.mod_small by lia. lia.
    + rewrite lookup_app_r, lookup_app_l by lia. f_equal.
      assert (Z.of_nat k mod 100 = Z.of_nat k - 100)
        by (symmetry; apply (Z.mod_unique _ _ 1); lia). lia.
    + rewrite lookup_app_r, lookup_app_r, lookup_app_l by lia. f_equal.
      assert (Z.of_nat k mod 100 = Z.of_nat k - 200)
        by (symmetry; apply (Z.mod_unique _ _ 2); lia). lia.
    + rewrite lookup_app_r, lookup_app_r, lookup_app_r, lookup_app_l by lia.
      f_equal.
      assert (Z.of_nat k mod 100 = Z.of_nat k - 300)
        by (symmetry; apply (Z.mod_unique _ _ 3); lia). lia.
    + rewrite lookup_app_r, lookup_app_r, lookup_app_r, lookup_app_r by lia.
      f_equal.
      assert (Z.of_nat k mod 100 = Z.of_nat k - 400)
        by (symmetry; apply (Z.mod_unique _ _ 4); lia). lia.
  - apply lookup_ge_None. rewrite !length_app. lia.
Qed.

Lemma range_lookup n k : (k < n)%nat -> range n !! k = Some (Z.of_nat k).
Proof.
  intros Hk. unfold range. rewrite list_lookup_fmap, lookup_seq_lt by lia.
  reflexivity.
Qed.

Lemma initial_roles_length : length initial_roles = 100%nat.
Proof. reflexivity. Qed.

Lemma generate_users_spec w :
  exists users w',
    generate_users w = Ok (users, w') /\
    length users = 500%nat /\
    (exists roles,
        roles ≡ₚ initial_roles /\
        map u_role users = roles ++ roles ++ roles ++ roles ++ roles) /\
    Forall (fun u => String.length (u_phone u) = 12%nat /\
                     u_updated_at u = u_created_at u) users /\
    organizer_ids_of users <> [].
Proof.
  unfold generate_users. cbv zeta.
  change (replicate 80 "attendee"%string ++ replicate 15 "organizer"%string
          ++ replicate 5 "admin"%string) with initial_roles.
  destruct (shuffle_spec initial_roles w) as (roles & w1 & Es & Hperm).
  rewrite (bind_eq _ _ _ _ _ Es). cbv beta.
  assert (Hlen : length roles = 100%nat)
    by (rewrite (Permutation_length Hperm); apply initial_roles_length).
  match goal with |- context [mapM ?f ?l w1] =>
    set (body := f); destruct (mapM_returns body l w1) as (users & w' & Hret)
  end.
  { intros i w2 Hi. unfold body.
    apply list_elem_of_lookup in Hi as [k Hk].
    assert (Hk' : (k < 500)%nat)
      by (apply lookup_lt_Some in Hk; by rewrite length_range in Hk).
    rewrite range_lookup in Hk by exact Hk'. injection Hk as <-.
    rewrite (bind_eq faker _ w2 _ _ eq_refl).
    rewrite (bind_eq faker _ _ _ _ eq_refl).
    rewrite (bind_eq time_ms _ _ _ _ eq_refl). cbv beta zeta.
    match goal with |- context [bind (choice cities) _ ?w3] =>
      destruct (choice_returns cities w3) as (city & w4 & Ec); [discriminate|]
    end.
    rewrite (bind_eq _ _ _ _ _ Ec). cbv beta.
    destruct (generate_phone_number_returns city w4) as (phone & w5 & Ep).
    rewrite (bind_eq _ _ _ _ _ Ep). cbv beta.
    destruct (lookup_lt_is_Some_2 roles (Z.to_nat (Z.of_nat k mod 100)))
      as [role Hrole].
    { pose proof (Z.mod_pos_bound (Z.of_nat k) 100). lia. }
    rewrite Hrole. unfold bind, faker, ret. eauto. }
  exists users, w'. split; [exact Hret|].
  apply mapM_Ok in Hret.
  assert (Hrel : Forall2 (fun i u =>
                            roles !! Z.to_nat (i mod 100) = Some (u_role u) /\
                            String.length (u_phone u) = 12%nat /\
                            u_updated_at u = u_created_at u)
                         (range 500) users).
  { eapply Forall2_impl; [exact Hret|]. cbv beta. unfold body.
    intros i u (w2 & w3 & H).
    bind_inv H as first w4 E1. bind_inv H as last w5 E2.
    bind_inv H as now w6 E3. bind_inv H as city w7 E4.
    bind_inv H as phone w8 E5. apply generate_phone_number_Ok in E5.
    bind_inv H as role w9 E6.
    destruct (roles !! Z.to_nat (i mod 100)) as [role'|] eqn:Er; [|discriminate].
    apply ret_Ok in E6 as [-> _].
    bind_inv H as created w10 E7. apply ret_Ok in H as [-> _]. simpl. auto. }
  clear Hret.
  assert (Hlen_u : length users = 500%nat)
    by (rewrite <- (Forall2_length _ _ _ Hrel); apply length_range).
  assert (Hroles : forall k u, users !! k = Some u ->
                               roles !! Z.to_nat (Z.of_nat k mod 100)
                               = Some (u_role u)).
  { intros k u Hu.
    assert (Hk : (k < 500)%nat) by (apply lookup_lt_Some in Hu; lia).
    by destruct (Forall2_lookup_lr _ _ _ _ _ _ Hrel (range_lookup 500 k Hk) Hu). }
  split; [exact Hlen_u|]. split; [|split].
  - exists roles. split; [exact Hperm|].
    apply list_eq. intros k. rewrite lookup_five_copies by exact Hlen.
    rewrite list_lookup_fmap.
    destruct (decide (k < 500)%nat) as [Hk|Hk].
    + destruct (lookup_lt_is_Some_2 users k) as [u Hu]; [lia|].
      rewrite Hu. simpl. symmetry. by apply Hroles.
    + rewrite (lookup_ge_None_2 users k) by lia. reflexivity.
  - clear -Hrel. induction Hrel as [|i u l us (_ & Hp & Hu) _ IH];
      constructor; auto.
  - assert (Hin : "organizer"%string ∈ roles).
    { rewrite Hperm. apply list_elem_of_lookup. exists 80%nat. reflexivity. }
    apply list_elem_of_lookup in Hin as [j Hj].
    assert (Hj' : (j < 100)%nat) by (apply lookup_lt_Some in Hj; lia).
    destruct (lookup_lt_is_Some_2 users j) as [u Hu]; [lia|].
    pose proof (Hroles j u Hu) as Hr.
    rewrite Z.mod_small, Nat2Z.id in Hr by lia. rewrite Hj in Hr.
    injection Hr as Hr.
    assert (Ho : Z.of_nat j + 1 ∈ organizer_ids_of users).
    { apply organizer_ids_of_elem. split; [lia|]. exists u.
      replace (Z.to_nat (Z.of_nat j + 1 - 1)) with j by lia. auto. }
    intros Hnil. rewrite Hnil in Ho. by apply elem_of_nil in Ho.
Qed.

(** X17.  [generate_users] returns 500 users for every world.  Their
    roles are five copies of one arrangement of 80 'attendee', 15
    'organizer' and 5 'admin' (users i and i + 100 have the same role);
    every phone number has twelve characters and [updated_at] equals
    [created_at]; and the organizer ids [main] selects from them are not
    empty, so that [generate_events] finds an organizer. *)
Theorem generate_users_ok w :
  exists users w',
    generate_users w = Ok (users, w') /\
    length users = 500%nat /\
    (exists roles,
        roles ≡ₚ initial_roles /\
        map u_role users = roles ++ roles ++ roles ++ roles ++ roles) /\
    Forall (fun u => String.length (u_phone u) = 12%nat /\
                     u_updated_at u = u_created_at u) users /\
    organizer_ids_of users <> [].
Proof. apply generate_users_spec. Qed.

Lemma generate_events_returns plus_hours organizer_ids venue_ids w :
  organizer_ids <> [] -> venue_ids <> [] ->
  exists events w',
    generate_events plus_hours organizer_ids venue_ids w = Ok (events, w').
Proof.
  intros Ho Hv. unfold generate_events. apply repeatM_returns.
  intros w1. unfold bind at 1 2 3 4. unfold faker, randint. simpl.
  unfold bind at 1. unfold draw at 1. unfold ret at 1.
  match goal with |- context [choice organizer_ids ?w2] =>
    destruct (choice_returns organizer_ids w2 Ho) as (o & w3 & Eo)
  end.
  unfold bind at 1. rewrite Eo.
  destruct (choice_returns venue_ids w3 Hv) as (v & w4 & Ev).
  unfold bind at 1. rewrite Ev.
  unfold bind, choice, event_statuses, draw, ret. simpl. eauto.
Qed.

(** X18.  The head of [main] (users, venues, events) raises no exception
    in any world: it yields 500 users, 10 venues and 15 events, and every
    event refers to one of the ten venues and to a user whose role is
    organizer or admin. *)
Theorem main_entities_ok plus_hours w :
  exists users venues events w',
    main_entities plus_hours w = Ok (users, venues, events, w') /\
    length users = 500%nat /\ length venues = 10%nat /\
    length events = 15%nat /\
    Forall (fun ev =>
              1 <= e_venue_id ev <= 10 /\
              1 <= e_organizer_id ev <= 500 /\
              exists u, users !! Z.to_nat (e_organizer_id ev - 1) = Some u /\
                        (u_role u = "organizer" \/ u_role u = "admin")%string)
           events.
Proof.
  unfold main_entities.
  destruct (generate_users_spec w) as (users & w1 & Eu & Hlu & _ & _ & Horg).
  rewrite (bind_eq _ _ _ _ _ Eu). cbv beta.
  destruct (generate_venues_spec w1) as (venues & w2 & Ev & Hlv & _).
  rewrite (bind_eq _ _ _ _ _ Ev). cbv beta zeta.
  destruct (generate_events_returns plus_hours (organizer_ids_of users)
              (ids_upto (length venues)) w2) as (events & w3 & Ee).
  { exact Horg. }
  { rewrite Hlv. discriminate. }
  rewrite (bind_eq _ _ _ _ _ Ee). cbv beta.
  exists users, venues, events, w3. split; [reflexivity|].
  apply generate_events_Ok in Ee as [Hle Hall].
  split; [exact Hlu|]. split; [exact Hlv|]. split; [exact Hle|].
  eapply Forall_impl; [exact Hall|]. cbv beta.
  intros ev (Ho & Hven & _).
  apply ids_upto_elem in Hven. rewrite Hlv in Hven.
  apply organizer_ids_of_elem in Ho as (Ho1 & u & Hu & Hrole).
  split; [lia|]. split.
  - apply lookup_lt_Some in Hu. lia.
  - eauto.
Qed.

(** ** The sinks of data.py *)

Lemma demo_sink_run_returns : returned demo_sink_run = true.
Proof. vm_compute. reflexivity. Qed.

Lemma main_keeps_first_ticket_export_witness :
  exists s' w',
    demo_sink_run = Some (Ok (s', w')) /\
    V1Sink.files s' !! "csv/tickets.csv"%string
    = Some (V1Sink.mkCsv V1Sink.ticket_columns (V1Sink.TicketRows demo_tickets)).
Proof.
  destruct (returned_Ok _ demo_sink_run_returns) as ([s' w'] & E).
  exists s', w'. split; [exact E|].
  exact (main_keeps_first_ticket_export demo_tickets [1; 2] [1] empty_sink
           (demo_world 0) s' w' E).
Defined.

(** X20.  [batch_insert] never removes a row.  Without the force flag a
    second call with the same data changes nothing, whatever the table
    held; with the force flag every call appends, so that two forced
    calls leave the data twice.  For the ticket and the registration
    table alike. *)
Theorem batch_insert_reruns :
  (forall data force s,
      V1Sink.tickets_table s
        `prefix_of` V1Sink.tickets_table (V1Sink.batch_insert_tickets data force s) /\
      V1Sink.batch_insert_tickets data false
        (V1Sink.batch_insert_tickets data false s)
      = V1Sink.batch_insert_tickets data false s /\
      V1Sink.tickets_table
        (V1Sink.batch_insert_tickets data true
           (V1Sink.batch_insert_tickets data true s))
      = V1Sink.tickets_table s ++ data ++ data) /\
  (forall data force s,
      V1Sink.registrations_table s
        `prefix_of` V1Sink.registrations_table
                      (V1Sink.batch_insert_registrations data force s) /\
      V1Sink.batch_insert_registrations data false
        (V1Sink.batch_insert_registrations data false s)
      = V1Sink.batch_insert_registrations data false s /\
      V1Sink.registrations_table
        (V1Sink.batch_insert_registrations data true
           (V1Sink.batch_insert_registrations data true s))
      = V1Sink.registrations_table s ++ data ++ data).
Proof.
  split.
  - intros data force s. unfold V1Sink.batch_insert_tickets.
    rewrite !andb_false_r. simpl. split; [|split].
    + destruct (_ && _); simpl; [reflexivity|]. by apply prefix_app_r.
    + destruct s as [fs [|t ts] rs]; simpl.
      * destruct data as [|d ds]; simpl; reflexivity.
      * reflexivity.
    + by rewrite app_assoc.
  - intros data force s. unfold V1Sink.batch_insert_registrations.
    rewrite !andb_false_r. simpl. split; [|split].
    + destruct (_ && _); simpl; [reflexivity|]. by apply prefix_app_r.
    + destruct s as [fs ts [|r rs]]; simpl.
      * destruct data as [|d ds]; simpl; reflexivity.
      * reflexivity.
    + by rewrite app_assoc.
Qed.

Lemma write_to_csv_spec filename columns data force s :
  let s' := V1Sink.write_to_csv filename columns data force s in
  is_Some (V1Sink.files s' !! filename) /\
  (forall other, other <> filename ->
                 V1Sink.files s' !! other = V1Sink.files s !! other) /\
  V1Sink.tickets_table s' = V1Sink.tickets_table s /\
  V1Sink.registrations_table s' = V1Sink.registrations_table s /\
  (force = true \/ V1Sink.files s !! filename = None ->
   V1Sink.files s' !! filename = Some (V1Sink.mkCsv columns data)) /\
  (force = false -> is_Some (V1Sink.files s !! filename) -> s' = s).
Proof.
  cbv zeta. split; [apply write_to_csv_is_Some|].
  unfold V1Sink.write_to_csv.
  destruct (bool_decide (is_Some (V1Sink.files s !! filename))) eqn:E;
    destruct force; simpl.
  - repeat split; auto.
    + intros other Hne. by apply lookup_insert_ne.
    + intros _. apply lookup_insert_eq.
    + discriminate.
  - apply bool_decide_eq_true in E. repeat split; auto.
    intros [Hf|Hn]; [discriminate|]. rewrite Hn in E. by destruct E.
  - repeat split; auto.
    + intros other Hne. by apply lookup_insert_ne.
    + intros _. apply lookup_insert_eq.
    + discriminate.
  - apply bool_decide_eq_false in E. repeat split; auto.
    + intros other Hne. by apply lookup_insert_ne.
    + intros _. apply lookup_insert_eq.
    + intros _ Hs. contradiction.
Qed.

Lemma append_cancel_r (a b s : string) :
  (a +:+ s = b +:+ s)%string -> a = b.
Proof.
  revert b. induction a as [|c a IH]; intros [|d b] H.
  - reflexivity.
  - apply (f_equal String.length) in H.
    rewrite !string_length_append in H. cbn [String.length] in H. lia.
  - apply (f_equal String.length) in H.
    rewrite !string_length_append in H. cbn [String.length] in H. lia.
  - cbn [String.append] in H. injection H as -> H. f_equal. by apply IH.
Qed.

Lemma csv_path_inj a b : csv_path a = csv_path b -> a = b.
Proof.
  unfold csv_path. intros H. cbv [String.append] in H. injection H as H.
  by apply (append_cancel_r a b ".csv").
Qed.

(** X21.  For the export [csv/<table>.csv] of a table (a name of
    lower-case letters and underscores, as all those [main] passes),
    [write_to_csv] always leaves the file in place and touches no other
    export and no table; it stores the given columns and rows when the
    force flag is set or the file did not exist, and changes nothing at
    all when the file exists and the flag is unset. *)
Theorem write_to_csv_contract table columns data force s :
  table_name table = true ->
  let filename := csv_path table in
  let s' := V1Sink.write_to_csv filename columns data force s in
  is_Some (V1Sink.files s' !! filename) /\
  (forall other, table_name other = true -> other <> table ->
                 V1Sink.files s' !! csv_path other
                 = V1Sink.files s !! csv_path other) /\
  V1Sink.tickets_table s' = V1Sink.tickets_table s /\
  V1Sink.registrations_table s' = V1Sink.registrations_table s /\
  (force = true \/ V1Sink.files s !! filename = None ->
   V1Sink.files s' !! filename = Some (V1Sink.mkCsv columns data)) /\
  (force = false -> is_Some (V1Sink.files s !! filename) -> s' = s).
Proof.
  intros _. cbv zeta.
  destruct (write_to_csv_spec (csv_path table) columns data force s)
    as (Hex & Hother & Ht & Hr & Hstore & Hskip).
  repeat split; auto.
  intros other _ Hne. apply Hother. intros Heq. by apply csv_path_inj in Heq.
Qed.

Lemma write_to_csv_contract_witness :
  V1Sink.files (V1Sink.write_to_csv "csv/tickets.csv" V1Sink.ticket_columns
                  (V1Sink.TicketRows demo_tickets) false empty_sink)
    !! "csv/tickets.csv"%string
  = Some (V1Sink.mkCsv V1Sink.ticket_columns (V1Sink.TicketRows demo_tickets)).
Proof.
  destruct (write_to_csv_contract "tickets" V1Sink.ticket_columns
              (V1Sink.TicketRows demo_tickets) false empty_sink eq_refl)
    as (_ & _ & _ & _ & Hstore & _).
  apply Hstore. right. reflexivity.
Defined.

Lemma update_store_rows (done rest updated : list Ticket) :
  Forall2 (fun t u =>
             u = mkTicket (t_event_id t) (t_type t) (t_price t)
                          (t_quantity_available t) (t_quantity_sold u)
                          (t_sales_start t) (t_sales_end t) (t_created_at t))
          rest updated ->
  foldl (fun table it =>
           V1Sink.update_ticket_row (t_quantity_sold (snd it)) (fst it) table)
        (done ++ rest) (enumerate (Z.of_nat (length done) + 1) updated)
  = done ++ updated.
Proof.
  intros Hall. revert done.
  induction Hall as [|t u rest updated Hu _ IH]; intros done; simpl;
    [reflexivity|].
  unfold V1Sink.update_ticket_row at 2.
  destruct (Z.ltb_spec (Z.of_nat (length done) + 1) 1); [lia|].
  replace (Z.to_nat (Z.of_nat (length done) + 1 - 1))
    with (length done + 0)%nat by lia.
  rewrite alter_app_r. simpl. rewrite <- Hu.
  specialize (IH (done ++ [u])). rewrite length_app in IH. simpl in IH.
  replace (Z.of_nat (length done + 1) + 1)
    with (Z.of_nat (length done) + 1 + 1) in IH by lia.
  rewrite <- !app_assoc in IH. simpl in IH. exact IH.
Qed.

Lemma update_quantity_sold_rows tickets tr :
  Forall2 (fun t u =>
             u = mkTicket (t_event_id t) (t_type t) (t_price t)
                          (t_quantity_available t) (t_quantity_sold u)
                          (t_sales_start t) (t_sales_end t) (t_created_at t))
          tickets (update_quantity_sold tickets tr).
Proof.
  unfold update_quantity_sold. generalize 1.
  induction tickets as [|t tickets IH]; intros s; simpl; constructor; auto.
Qed.

(** X22.  On a store whose ticket table is empty, a run of [data.py]
    that reaches the end of the reconciliation leaves in the ticket table
    exactly the reconciled tickets, with or without the force flag: the
    UPDATE statements bring every inserted row to its [quantity_sold]. *)
Theorem store_tickets_reconciled force tickets user_ids event_ids s w s' w' :
  V1Sink.tickets_table s = [] ->
  V1Sink.main_tickets_to_reconciliation force tickets user_ids event_ids s w
    = Some (Ok (s', w')) ->
  exists st w1,
    V1.generate_registrations
      (V1.mkInputs user_ids event_ids (ticket_map_of event_ids tickets)
                   (prices_of tickets))
      (remaining_of tickets) w = Some (Ok (st, w1)) /\
    V1Sink.tickets_table s'
    = update_quantity_sold tickets (V1.tickets_remaining st).
Proof.
  intros Hempty. unfold V1Sink.main_tickets_to_reconciliation.
  destruct (V1.generate_registrations _ _ w) as [[[st w1]|e]|];
    [|discriminate|discriminate].
  intros [= <- _]. exists st, w1. split; [reflexivity|].
  destruct (write_to_csv_spec "csv/tickets.csv" V1Sink.ticket_columns
              (V1Sink.TicketRows (update_quantity_sold tickets
                                    (V1.tickets_remaining st)))
              force
              (V1Sink.update_store
                 (update_quantity_sold tickets (V1.tickets_remaining st))
                 (V1Sink.write_to_csv "csv/registrations.csv"
                    V1Sink.registration_columns
                    (V1Sink.RegistrationRows (V1.registrations st)) force
                    (V1Sink.batch_insert_registrations (V1.registrations st) force
                       (V1Sink.write_to_csv "csv/tickets.csv"
                          V1Sink.ticket_columns (V1Sink.TicketRows tickets) force
                          (V1Sink.batch_insert_tickets tickets force s))))))
    as (_ & _ & Ht & _).
  rewrite Ht. unfold V1Sink.update_store. simpl.
  assert (Htable : V1Sink.tickets_table
                     (V1Sink.write_to_csv "csv/registrations.csv"
                        V1Sink.registration_columns
                        (V1Sink.RegistrationRows (V1.registrations st)) force
                        (V1Sink.batch_insert_registrations (V1.registrations st)
                           force
                           (V1Sink.write_to_csv "csv/tickets.csv"
                              V1Sink.ticket_columns (V1Sink.TicketRows tickets)
                              force
                              (V1Sink.batch_insert_tickets tickets force s))))
                   = tickets).
  { unfold V1Sink.write_to_csv at 1.
    destruct (_ && _); simpl;
      unfold V1Sink.batch_insert_registrations;
      destruct (_ && _); simpl;
        unfold V1Sink.write_to_csv;
        destruct (_ && _); simpl;
          unfold V1Sink.batch_insert_tickets; rewrite Hempty; simpl;
            reflexivity. }
  rewrite Htable.
  exact (update_store_rows [] tickets _ (update_quantity_sold_rows tickets _)).
Qed.

Lemma store_tickets_reconciled_witness :
  exists s' w',
    demo_sink_run = Some (Ok (s', w')) /\
    exists st w1,
      V1.generate_registrations
        (V1.mkInputs [1; 2] [1] (ticket_map_of [1] demo_tickets)
                     (prices_of demo_tickets))
        (remaining_of demo_tickets) (demo_world 0) = Some (Ok (st, w1)) /\
      V1Sink.tickets_table s'
      = update_quantity_sold demo_tickets (V1.tickets_remaining st).
Proof.
  destruct (returned_Ok _ demo_sink_run_returns) as ([s' w'] & E).
  exists s', w'. split; [exact E|].
  exact (store_tickets_reconciled false demo_tickets [1; 2] [1] empty_sink
           (demo_world 0) s' w' eq_refl E).
Defined.

(** ** Connecting to the store *)

Lemma create_connection_from_spec refused budget attempts slept :
  match create_connection_from refused budget attempts slept with
  | Connected k t =>
      (attempts <= k < attempts + budget)%nat /\ refused k = false /\
      (forall j, (attempts <= j < k)%nat -> refused j = true) /\
      t = slept + 5 * Z.of_nat (k - attempts)
  | ConnectionFailed k t =>
      k = (attempts + budget)%nat /\
      (forall j, (attempts <= j < k)%nat -> refused j = true) /\
      t = slept + 5 * Z.of_nat budget
  end.
Proof.
  revert attempts slept. induction budget as [|budget IH]; intros attempts slept;
    simpl.
  - split; [lia|]. split; [intros j Hj; lia|lia].
  - destruct (refused attempts) eqn:Er.
    + specialize (IH (Datatypes.S attempts) (slept + 5)).
      destruct (create_connection_from refused budget (Datatypes.S attempts)
                                       (slept + 5)) as [k t|k t].
      * destruct IH as (Hk & Hr & Hall & Ht). split; [lia|]. split; [exact Hr|].
        split; [|lia]. intros j Hj.
        destruct (decide (j = attempts)) as [->|Hne]; [exact Er|apply Hall; lia].
      * destruct IH as (Hk & Hall & Ht). split; [lia|].
        split; [|lia]. intros j Hj.
        destruct (decide (j = attempts)) as [->|Hne]; [exact Er|apply Hall; lia].
    + split; [lia|]. split; [exact Er|]. split; [intros j Hj; lia|].
      rewrite Nat.sub_diag. lia.
Qed.

(** X23.  [create_connection] calls [connect] at most five times.  It
    returns the connection of the first call that is not refused, after
    sleeping five seconds for each refusal before it; if the first five
    calls are all refused it gives up (raises) after 25 seconds of
    sleep. *)
Theorem create_connection_bounded refused :
  match create_connection refused with
  | Connected k t =>
      (k < 5)%nat /\ refused k = false /\
      (forall j, (j < k)%nat -> refused j = true) /\ t = 5 * Z.of_nat k
  | ConnectionFailed k t =>
      k = 5%nat /\ (forall j, (j < 5)%nat -> refused j = true) /\ t = 25
  end.
Proof.
  unfold create_connection, max_attempts.
  pose proof (create_connection_from_spec refused 5 0 0) as H.
  destruct (create_connection_from refused 5 0 0) as [k t|k t].
  - destruct H as (Hk & Hr & Hall & Ht). split; [lia|]. split; [exact Hr|].
    split; [intros j Hj; apply Hall; lia|]. rewrite Nat.sub_0_r in Ht. lia.
  - destruct H as (Hk & Hall & Ht). split; [lia|].
    split; [intros j Hj; apply Hall; lia|lia].
Qed.

(** ** Promotions *)

Section PromotionFacts.
Variable upper : string -> string.
Variable plus_days : string -> Z -> string.

Lemma fresh_code_fresh fuel used w code w1 :
  fresh_code upper fuel used w = Some (Ok (code, w1)) -> code ∉ used.
Proof.
  revert w. induction fuel as [|fuel IH]; intros w; cbn [fresh_code];
    [intros [=]|].
  destruct (new_code upper w) as [[c w0]|e]; [|intros [=]].
  destruct (bool_decide (c ∈ used)) eqn:E.
  - apply IH.
  - intros [= <- _]. by apply bool_decide_eq_false in E.
Qed.

Lemma promotion_with_code_spec event_id code w p w' :
  promotion_with_code plus_days event_id code w = Ok (p, w') ->
  pr_event_id p = event_id /\ pr_code p = code /\
  500 <= pr_discount p <= 5000 /\
  pr_valid_to p = plus_days (pr_valid_from p) 30.
Proof.
  unfold promotion_with_code, uniform_cents, bind, draw, faker, ret.
  cbv beta iota. intros [= <- _].
  cbn [pr_event_id pr_code pr_discount pr_valid_from pr_valid_to].
  pose proof (Z.mod_pos_bound (Z.of_N (rnd w (rnd_pos w)))
                (100 * (50 - 5) + 1) ltac:(lia)).
  repeat split; try reflexivity; lia.
Qed.

Lemma promotions_for_event_spec fuel event_id n used w ps used' w' :
  promotions_for_event upper plus_days fuel event_id n used w
    = Some (Ok (ps, used', w')) ->
  length ps = n /\
  NoDup (map pr_code ps) /\
  (forall c, c ∈ map pr_code ps -> c ∉ used) /\
  used' = list_to_set (map pr_code ps) ∪ used /\
  Forall (fun p => pr_event_id p = event_id /\
                   500 <= pr_discount p <= 5000 /\
                   pr_valid_to p = plus_days (pr_valid_from p) 30) ps.
Proof.
  revert used w ps used' w'.
  induction n as [|n IH]; intros used w ps used' w';
    cbn [promotions_for_event].
  - intros [= <- <- _]. simpl. repeat split; auto.
    + constructor.
    + intros c Hc. inversion Hc.
    + apply set_eq; intros x. rewrite elem_of_union, elem_of_empty. tauto.
  - destruct (fresh_code upper fuel used w) as [[[code w1]|e]|] eqn:Ef;
      [|discriminate|discriminate].
    destruct (promotion_with_code plus_days event_id code w1) as [[p w2]|e] eqn:Ep;
      [|discriminate].
    destruct (promotions_for_event upper plus_days fuel event_id n
                ({[code]} ∪ used) w2) as [[[[qs u] w3]|e]|] eqn:Er;
      [|discriminate|discriminate].
    intros [= <- <- _].
    apply fresh_code_fresh in Ef.
    apply promotion_with_code_spec in Ep as (He & Hc & Hd & Hv).
    apply IH in Er as (Hlen & Hnd & Hfresh & Hused & Hall).
    simpl. rewrite Hc. split; [lia|]. split; [|split; [|split]].
    + constructor; [|exact Hnd]. intros Hin.
      apply (Hfresh code Hin), elem_of_union. left. by apply elem_of_singleton.
    + intros c Hin. apply elem_of_cons in Hin as [->|Hin]; [exact Ef|].
      intros Hc'. apply (Hfresh c Hin), elem_of_union. by right.
    + rewrite Hused. apply set_eq; intros x.
      rewrite !elem_of_union. tauto.
    + constructor; [auto|exact Hall].
Qed.

Lemma generate_promotions_from_spec fuel event_ids max used w ps used' w' :
  generate_promotions_from upper plus_days fuel event_ids max used w
    = Some (Ok (ps, used', w')) ->
  NoDup (map pr_code ps) /\
  (forall c, c ∈ map pr_code ps -> c ∉ used) /\
  used' = list_to_set (map pr_code ps) ∪ used /\
  Forall (promotion_ok plus_days event_ids) ps /\
  Z.of_nat (length ps) <= Z.of_nat (length event_ids) * max /\
  exists batches,
    ps = concat batches /\ Forall2 (promotion_batch max) event_ids batches.
Proof.
  revert used w ps used' w'.
  induction event_ids as [|event_id rest IH]; intros used w ps used' w';
    cbn [generate_promotions_from].
  - intros [= <- <- _]. simpl. repeat split; auto.
    + constructor.
    + intros c Hc. inversion Hc.
    + apply set_eq; intros x. rewrite elem_of_union, elem_of_empty. tauto.
    + lia.
    + exists []. split; [reflexivity|constructor].
  - unfold randint at 1. destruct (Z.ltb_spec max 0) as [Hneg|Hmax];
      [discriminate|].
    unfold bind, draw, ret. cbv beta iota.
    set (num := 0 + Z.of_N (rnd w (rnd_pos w)) mod (max - 0 + 1)).
    assert (Hnum : 0 <= num <= max).
    { subst num.
      pose proof (Z.mod_pos_bound (Z.of_N (rnd w (rnd_pos w))) (max - 0 + 1)
                    ltac:(lia)). lia. }
    match goal with |- context [promotions_for_event _ _ _ _ _ _ ?w1] =>
      destruct (promotions_for_event upper plus_days fuel event_id
                  (Z.to_nat num) used w1) as [[[[qs u] w2]|e]|] eqn:Ee;
        [|discriminate|discriminate]
    end.
    destruct (generate_promotions_from upper plus_days fuel rest max u w2)
      as [[[[rs u'] w3]|e]|] eqn:Er; [|discriminate|discriminate].
    intros [= <- <- _].
    apply promotions_for_event_spec in Ee as (Hlen & Hnd1 & Hf1 & Hu1 & Hall1).
    apply IH in Er as (Hnd2 & Hf2 & Hu2 & Hall2 & Hlen2 & bs & -> & Hbs).
    rewrite map_app, length_app. split; [|split; [|split; [|split; [|split]]]].
    + apply NoDup_app. split; [exact Hnd1|]. split; [|exact Hnd2].
      intros c Hc1 Hc2. apply (Hf2 c Hc2). rewrite Hu1.
      apply elem_of_union. left. by apply elem_of_list_to_set.
    + intros c Hc. apply elem_of_app in Hc as [Hc|Hc]; [by apply Hf1|].
      intros Hc'. apply (Hf2 c Hc). rewrite Hu1. apply elem_of_union. by right.
    + rewrite Hu2, Hu1, list_to_set_app_L. apply set_eq; intros x.
      rewrite !elem_of_union. tauto.
    + apply Forall_app. split.
      * eapply Forall_impl; [exact Hall1|]. cbv beta.
        intros p (He & Hd & Hv). unfold promotion_ok. rewrite He.
        split; [left|auto].
      * eapply Forall_impl; [exact Hall2|]. cbv beta.
        intros p (He & Hd & Hv). unfold promotion_ok.
        split; [by right|auto].
    + cbn [length]. lia.
    + exists (qs :: bs). split; [reflexivity|]. constructor; [|exact Hbs].
      split; [|lia]. eapply Forall_impl; [exact Hall1|]. cbv beta. tauto.
Qed.

Lemma promotion_batches_count max event_ids batches e :
  Forall2 (promotion_batch max) event_ids batches ->
  Z.of_nat (length (promotions_of_event e (concat batches)))
  <= Z.of_nat (length (List.filter (Z.eqb e) event_ids)) * max.
Proof.
  unfold promotions_of_event.
  induction 1 as [|e0 b event_ids batches [Hev Hlen] _ IH]; simpl; [lia|].
  rewrite List.filter_app, length_app.
  destruct (Z.eqb_spec e e0) as [->|Hne].
  - assert (Hall : List.filter (fun p => pr_event_id p =? e0) b = b).
    { clear Hlen. induction b as [|p b IHb]; [reflexivity|]. simpl.
      pose proof (Forall_inv Hev) as Hp. pose proof (Forall_inv_tail Hev) as Hb.
      cbv beta in Hp.
      rewrite Hp, Z.eqb_refl. f_equal. by apply IHb. }
    rewrite Hall. cbn [length]. lia.
  - assert (Hnone : List.filter (fun p => pr_event_id p =? e) b = []).
    { clear Hlen. induction b as [|p b IHb]; [reflexivity|]. simpl.
      pose proof (Forall_inv Hev) as Hp. pose proof (Forall_inv_tail Hev) as Hb.
      cbv beta in Hp.
      destruct (Z.eqb_spec (pr_event_id p) e) as [He|_];
        [congruence|by apply IHb]. }
    rewrite Hnone. simpl. lia.
Qed.

Lemma filter_eqb_NoDup (l : list Z) e :
  NoDup l -> e ∈ l -> length (List.filter (Z.eqb e) l) = 1%nat.
Proof.
  induction 1 as [|x l Hx Hnd IH]; intros Hin; [inversion Hin|]. simpl.
  destruct (Z.eqb_spec e x) as [->|Hne].
  - simpl. f_equal.
    assert (Hnone : forall l', x ∉ l' -> List.filter (Z.eqb x) l' = []).
    { induction l' as [|y l' IHl]; intros Hy; [reflexivity|]. simpl.
      destruct (Z.eqb_spec x y) as [->|_].
      - destruct Hy. left.
      - apply IHl. intros H'. apply Hy. by right. }
    by rewrite Hnone.
  - apply IH. by apply elem_of_cons in Hin as [?|?].
Qed.

Lemma generate_promotions_spec fuel event_ids max w promotions w' :
  generate_promotions upper plus_days fuel event_ids max w
    = Some (Ok (promotions, w')) ->
  NoDup (map pr_code promotions) /\
  Forall (promotion_ok plus_days event_ids) promotions /\
  (exists batches,
      promotions = concat batches /\
      Forall2 (promotion_batch max) event_ids batches) /\
  (forall e,
      Z.of_nat (length (promotions_of_event e promotions))
      <= Z.of_nat (length (List.filter (Z.eqb e) event_ids)) * max) /\
  (NoDup event_ids ->
   forall e, e ∈ event_ids ->
             Z.of_nat (length (promotions_of_event e promotions)) <= max) /\
  Z.of_nat (length promotions) <= Z.of_nat (length event_ids) * max.
Proof.
  unfold generate_promotions.
  destruct (generate_promotions_from upper plus_days fuel event_ids max ∅ w)
    as [[[[ps u] w1]|e]|] eqn:E; [|discriminate|discriminate].
  intros [= <- _].
  apply generate_promotions_from_spec in E
    as (Hnd & _ & _ & Hall & Hlen & bs & -> & Hbs).
  split; [exact Hnd|]. split; [exact Hall|]. split; [by exists bs|].
  split; [|split; [|exact Hlen]].
  - intros e. by apply promotion_batches_count.
  - intros Hnodup e He.
    pose proof (promotion_batches_count max event_ids bs e Hbs) as Hc.
    rewrite (filter_eqb_NoDup event_ids e Hnodup He) in Hc. lia.
Qed.

Lemma generate_promotions_negative fuel event_ids max w :
  event_ids <> [] -> max < 0 ->
  generate_promotions upper plus_days fuel event_ids max w
    = Some (Raise ValueError).
Proof.
  intros Hne Hneg. destruct event_ids as [|e rest]; [contradiction|].
  unfold generate_promotions. simpl. unfold randint.
  destruct (Z.ltb_spec max 0); [reflexivity|lia].
Qed.
End PromotionFacts.

Lemma demo_promotions_returns : returned demo_promotions_run = true.
Proof. vm_compute. reflexivity. Qed.

(** X24.  The promotions [generate_promotions] returns carry pairwise
    distinct codes; each belongs to one of the given events, has a
    discount between 5 and 50 percent and is valid for 30 days from its
    [valid_from].  The list is the concatenation, in the order of
    [event_ids], of one batch per listed event, a batch holding at most
    [max_promos_per_event] promotions, all of its event: an event gets at
    most [max_promos_per_event] promotions for each time it is listed,
    hence at most that many when the event ids are pairwise distinct. *)
Theorem promotion_codes_unique upper plus_days fuel event_ids max w promotions w' :
  generate_promotions upper plus_days fuel event_ids max w
    = Some (Ok (promotions, w')) ->
  NoDup (map pr_code promotions) /\
  Forall (promotion_ok plus_days event_ids) promotions /\
  (exists batches,
      promotions = concat batches /\
      Forall2 (promotion_batch max) event_ids batches) /\
  (forall e,
      Z.of_nat (length (promotions_of_event e promotions))
      <= Z.of_nat (length (List.filter (Z.eqb e) event_ids)) * max) /\
  (NoDup event_ids ->
   forall e, e ∈ event_ids ->
             Z.of_nat (length (promotions_of_event e promotions)) <= max) /\
  Z.of_nat (length promotions) <= Z.of_nat (length event_ids) * max.
Proof. apply generate_promotions_spec. Qed.

Lemma promotion_codes_unique_witness :
  exists promotions w',
    demo_promotions_run = Some (Ok (promotions, w')) /\
    NoDup (map pr_code promotions) /\
    Forall (promotion_ok demo_plus_days [1; 2; 3]) promotions /\
    (forall e, e ∈ [1; 2; 3] ->
               Z.of_nat (length (promotions_of_event e promotions)) <= 2).
Proof.
  destruct (returned_Ok _ demo_promotions_returns) as ([promotions w'] & E).
  exists promotions, w'. split; [exact E|].
  destruct (promotion_codes_unique demo_upper demo_plus_days 3 [1; 2; 3] 2
              (demo_world 0) promotions w' E)
    as (Hnd & Hall & _ & _ & Hper & _).
  split; [exact Hnd|]. split; [exact Hall|].
  apply Hper. decide_closed.
Defined.

(** X25.  With at least one event and a negative [max_promos_per_event],
    [generate_promotions] raises ValueError (from [random.randint]) before
    it builds any promotion. *)
Theorem promotions_negative_maximum_raises upper plus_days fuel event_ids max w :
  event_ids <> [] -> max < 0 ->
  generate_promotions upper plus_days fuel event_ids max w
    = Some (Raise ValueError).
Proof. apply generate_promotions_negative. Qed.

Lemma promotions_negative_maximum_raises_witness :
  generate_promotions demo_upper demo_plus_days 0 [1] (-1) (demo_world 0)
  = Some (Raise ValueError).
Proof.
  apply promotions_negative_maximum_raises; [discriminate|lia].
Defined.
